(** * djehuty: the SPARQL data-access layer (src/djehuty/web/database.py)

    A shallow embedding of [SparqlInterface] and of the library behaviour it
    relies on, followed by the properties of the data-access layer that the
    specification states about it.

    Python text is modelled as [string], a sequence of 8-bit characters:
    a character of the model stands for the character of Python with the
    same code, below U+0100.  The lexical forms handled here (timestamps,
    identifiers, SPARQL fragments) are ASCII; a text with a character from
    U+0100 on has no counterpart in the model. *)

From Stdlib Require Import ZArith String Ascii List Bool Lia.
From stdpp Require Import base strings list pretty.

Open Scope string_scope.
Open Scope Z_scope.

(* ===================================================================== *)
(** * Part I.  Definitions                                               *)
(* ===================================================================== *)

(* --------------------------------------------------------------------- *)
(** ** Python exceptions and results                                      *)
(* --------------------------------------------------------------------- *)

(** The exception classes that the module raises or handles.  The first
    three are the arms of the handler in [__run_query]; [Exception] stands
    for any other error of the SPARQL client. *)
Inductive exn : Type :=
| IndexError
| KeyError
| TypeError
| ValueError
| URLError
| QueryBadFormed
| Exception (detail : string)
| UnknownDatabaseState
| EmptyDatabase.

(** The result of evaluating a Python expression or call. *)
Inductive outcome (A : Type) : Type :=
| Return (a : A)
| Raise (e : exn).
Arguments Return {A} a.
Arguments Raise {A} e.

(* --------------------------------------------------------------------- *)
(** ** datetime.strptime and datetime.strftime                            *)
(* --------------------------------------------------------------------- *)

Module Datetime.

(** A character class of the regular expressions of [_strptime.TimeRE].
    Among the characters below U+0100 the decimal digits that [\d] matches
    are "0" to "9", so [\d] is the range [0-9] here; the decimal digits of
    other scripts, which [\d] matches as well, are not characters of the
    model. *)
Inductive cls : Type :=
| Range (lo hi : ascii)       (* [lo-hi], and \d as [0-9] *)
| Exactly (c : ascii).

Definition cls_match (k : cls) (c : ascii) : bool :=
  match k with
  | Range lo hi => (N_of_ascii lo <=? N_of_ascii c)%N && (N_of_ascii c <=? N_of_ascii hi)%N
  | Exactly x => Ascii.eqb x c
  end.

Definition digit : cls := Range "0" "9".

(** Matches a sequence of classes at the start of [s]: the matched text and
    what remains. *)
Fixpoint match_classes (ks : list cls) (s : string) : option (string * string) :=
  match ks with
  | [] => Some (EmptyString, s)
  | k :: ks' =>
      match s with
      | EmptyString => None
      | String c s' =>
          if cls_match k c
          then match match_classes ks' s' with
               | Some (m, rest) => Some (String c m, rest)
               | None => None
               end
          else None
      end
  end.

(** An ordered alternation [a1|a2|...] followed by the rest of the pattern
    [k]: the first alternative after which the rest matches, as the
    backtracking matcher of [re] finds it. *)
Fixpoint first_alt {R : Type} (alts : list (list cls)) (k : string -> option R)
    (s : string) : option (string * R) :=
  match alts with
  | [] => None
  | a :: alts' =>
      match match_classes a s with
      | Some (m, rest) =>
          match k rest with
          | Some r => Some (m, r)
          | None => first_alt alts' k s
          end
      | None => first_alt alts' k s
      end
  end.

(** A literal character of the format; the pattern is compiled with
    [re.IGNORECASE]. *)
Definition lower (c : ascii) : ascii :=
  let n := N_of_ascii c in
  if (65 <=? n)%N && (n <=? 90)%N then ascii_of_N (n + 32) else c.

Definition lit {R : Type} (c : ascii) (k : string -> option R) (s : string) : option R :=
  match s with
  | String x s' => if Ascii.eqb (lower x) (lower c) then k s' else None
  | EmptyString => None
  end.

(** The directives of the format, from [TimeRE.__init__]. *)
Definition re_Y : list (list cls) := [[digit; digit; digit; digit]].
Definition re_m : list (list cls) :=
  [[Exactly "1"; Range "0" "2"]; [Exactly "0"; Range "1" "9"]; [Range "1" "9"]].
Definition re_d : list (list cls) :=
  [[Exactly "3"; Range "0" "1"]; [Range "1" "2"; digit]; [Exactly "0"; Range "1" "9"];
   [Range "1" "9"]; [Exactly " "; Range "1" "9"]].
Definition re_H : list (list cls) :=
  [[Exactly "2"; Range "0" "3"]; [Range "0" "1"; digit]; [digit]].
Definition re_M : list (list cls) := [[Range "0" "5"; digit]; [digit]].
Definition re_S : list (list cls) :=
  [[Exactly "6"; Range "0" "1"]; [Range "0" "5"; digit]; [digit]].

(** The groups found by the compiled format "%Y-%m-%dT%H:%M:%S", and the
    text after the match. *)
Record groups : Type := Groups {
  g_Y : string; g_m : string; g_d : string;
  g_H : string; g_M : string; g_S : string;
  g_rest : string
}.

Definition match_format (s : string) : option groups :=
  match
    first_alt re_Y (lit "-" (
    first_alt re_m (lit "-" (
    first_alt re_d (lit "T" (
    first_alt re_H (lit ":" (
    first_alt re_M (lit ":" (
    first_alt re_S (fun rest => Some rest))))))))))) s
  with
  | Some (gY, (gm, (gd, (gH, (gM, (gS, rest)))))) => Some (Groups gY gm gd gH gM gS rest)
  | None => None
  end.

(** [int] of a matched group: decimal digits, a leading blank skipped. *)
Definition digit_value (c : ascii) : Z := Z.of_N (N_of_ascii c) - 48.

Fixpoint int_digits (acc : Z) (s : string) : Z :=
  match s with
  | EmptyString => acc
  | String c s' => int_digits (10 * acc + digit_value c) s'
  end.

Definition int_group (s : string) : Z :=
  match s with
  | String " " s' => int_digits 0 s'
  | _ => int_digits 0 s
  end.

(** A [datetime] value (no microseconds, no time zone). *)
Record datetime : Type := DateTime {
  year : Z; month : Z; day : Z; hour : Z; minute : Z; second : Z
}.

Definition is_leap (y : Z) : bool :=
  (y mod 4 =? 0) && (negb (y mod 100 =? 0) || (y mod 400 =? 0)).

Definition days_in_month (y m : Z) : Z :=
  if m =? 2 then (if is_leap y then 29 else 28)
  else if (m =? 4) || (m =? 6) || (m =? 9) || (m =? 11) then 30
  else 31.

(** The checks of the [datetime] constructor. *)
Definition valid (t : datetime) : bool :=
  (1 <=? year t) && (year t <=? 9999) &&
  (1 <=? month t) && (month t <=? 12) &&
  (1 <=? day t) && (day t <=? days_in_month (year t) (month t)) &&
  (0 <=? hour t) && (hour t <=? 23) &&
  (0 <=? minute t) && (minute t <=? 59) &&
  (0 <=? second t) && (second t <=? 59).

(** [datetime.strptime (s, "%Y-%m-%dT%H:%M:%S")]; [None] is [ValueError]
    (no match, unconverted data, or a value out of range). *)
Definition strptime (s : string) : option datetime :=
  match match_format s with
  | Some g =>
      if String.eqb (g_rest g) EmptyString then
        let t := DateTime (int_group (g_Y g)) (int_group (g_m g)) (int_group (g_d g))
                          (int_group (g_H g)) (int_group (g_M g)) (int_group (g_S g)) in
        if valid t then Some t else None
      else None
  | None => None
  end.

Definition digit_char (d : Z) : ascii := ascii_of_N (Z.to_N (48 + d)).

Definition pad2 (n : Z) : string :=
  String (digit_char (n / 10)) (String (digit_char (n mod 10)) EmptyString).

Definition pad4 (n : Z) : string :=
  String (digit_char (n / 1000)) (String (digit_char (n / 100 mod 10))
    (String (digit_char (n / 10 mod 10)) (String (digit_char (n mod 10)) EmptyString))).

(** [datetime.strftime (t, "%Y-%m-%d %H:%M:%S")].  The C library writes
    "%Y" as the decimal number of the year, without padding: the year 999
    is written "999". *)
Definition strftime (t : datetime) : string :=
  pretty (year t) +:+ "-" +:+ pad2 (month t) +:+ "-" +:+ pad2 (day t) +:+ " " +:+
  pad2 (hour t) +:+ ":" +:+ pad2 (minute t) +:+ ":" +:+ pad2 (second t).

(** The store's lexical form of the same instant, YYYY-MM-DDTHH:MM:SS. *)
Definition isoformat (t : datetime) : string :=
  pad4 (year t) +:+ "-" +:+ pad2 (month t) +:+ "-" +:+ pad2 (day t) +:+ "T" +:+
  pad2 (hour t) +:+ ":" +:+ pad2 (minute t) +:+ ":" +:+ pad2 (second t).

(** The same instant in the form YYYY-MM-DD HH:MM:SS. *)
Definition display (t : datetime) : string :=
  pad4 (year t) +:+ "-" +:+ pad2 (month t) +:+ "-" +:+ pad2 (day t) +:+ " " +:+
  pad2 (hour t) +:+ ":" +:+ pad2 (minute t) +:+ ":" +:+ pad2 (second t).

End Datetime.

(** The last character of a text, [s[-1]], and the text without it,
    [s[:-1]]. *)
Fixpoint last_char (s : string) : option ascii :=
  match s with
  | EmptyString => None
  | String c EmptyString => Some c
  | String _ s' => last_char s'
  end.

Fixpoint drop_last (s : string) : string :=
  match s with
  | EmptyString => EmptyString
  | String c EmptyString => EmptyString
  | String c s' => String c (drop_last s')
  end.

(** The dateTime arm of [__normalize_binding] (lines 83-88). *)
Definition normalize_dateTime (value : string) : outcome string :=
  match last_char value with
  | None => Raise IndexError
  | Some c =>
      let time_value := if Ascii.eqb c "Z" then drop_last value else value in
      match Datetime.strptime time_value with
      | Some timestamp => Return (Datetime.strftime timestamp)
      | None => Raise ValueError
      end
  end.

(* --------------------------------------------------------------------- *)
(** ** Python values, dictionaries and text helpers                       *)
(* --------------------------------------------------------------------- *)

(** A dictionary in insertion order, as Python keeps it. *)
Definition dict (K V : Type) : Type := list (K * V).

Fixpoint dict_get {K V : Type} `{EqDecision K} (k : K) (d : dict K V) : option V :=
  match d with
  | [] => None
  | (k', v) :: d' => if decide (k = k') then Some v else dict_get k d'
  end.

(** [d[k] = v]: the entry is replaced where it stands, a new key goes last. *)
Fixpoint dict_set {K V : Type} `{EqDecision K} (k : K) (v : V) (d : dict K V) : dict K V :=
  match d with
  | [] => [(k, v)]
  | (k', v') :: d' => if decide (k = k') then (k, v) :: d' else (k', v') :: dict_set k v d'
  end.

(** [{**a, **b}] *)
Definition dict_merge {K V : Type} `{EqDecision K} (a b : dict K V) : dict K V :=
  fold_left (fun acc kv => dict_set (fst kv) (snd kv) acc) b a.

(** One cell of a result row in the JSON wire format of the store:
    its "type", its "datatype" when the key is present, and its "value". *)
Record binding : Type := Binding {
  b_type : string;
  b_datatype : option string;
  b_value : string
}.

#[global] Instance binding_eq_dec : EqDecision binding.
Proof. solve_decision. Defined.

(** The native values of a normalised row.  [VCell] is a cell that
    normalisation left as it came. *)
Inductive value : Type :=
| VNone
| VInt (n : Z)
| VBool (b : bool)
| VStr (s : string)
| VCell (c : binding).

#[global] Instance value_eq_dec : EqDecision value.
Proof. solve_decision. Defined.

(** Truth value of an object in a condition. *)
Definition truthy (v : value) : bool :=
  match v with
  | VNone => false
  | VInt n => negb (n =? 0)
  | VBool b => b
  | VStr s => negb (String.eqb s EmptyString)
  | VCell _ => true
  end.

Definition opt_value (o : option Z) : value :=
  match o with Some n => VInt n | None => VNone end.

(** A row as the endpoint returns it, and after normalisation. *)
Definition raw_row : Type := dict string binding.
Definition record : Type := dict string value.

(** An element of a result list: a normalised record, or the sole text of
    a row that holds a plain literal (the status message of a write). *)
Inductive result_row : Type :=
| Row (r : record)
| Scalar (s : string).

#[global] Instance result_row_eq_dec : EqDecision result_row.
Proof. solve_decision. Defined.

Definition upper_char (c : ascii) : ascii :=
  let n := N_of_ascii c in
  if (97 <=? n)%N && (n <=? 122)%N then ascii_of_N (n - 32) else c.

Fixpoint lower_text (s : string) : string :=
  match s with
  | EmptyString => EmptyString
  | String c s' => String (Datetime.lower c) (lower_text s')
  end.

(** [str.capitalize] *)
Definition capitalize (s : string) : string :=
  match s with
  | EmptyString => EmptyString
  | String c s' => String (upper_char c) (lower_text s')
  end.

(** [str.startswith] *)
Definition startswith (s p : string) : bool := String.prefix p s.

(** [str.replace (old, new)] for a single character [old]. *)
Fixpoint replace_char (old : ascii) (new : string) (s : string) : string :=
  match s with
  | EmptyString => EmptyString
  | String c s' =>
      if Ascii.eqb c old then new +:+ replace_char old new s'
      else String c (replace_char old new s')
  end.

(** The text of an integer in an f-string. *)
Definition fmt (n : Z) : string := pretty n.

(* --------------------------------------------------------------------- *)
(** ** RDF terms, graphs and queries                                      *)
(* --------------------------------------------------------------------- *)

Inductive xsd : Type := XSD_string | XSD_integer | XSD_boolean | XSD_dateTime.

#[global] Instance xsd_eq_dec : EqDecision xsd.
Proof. solve_decision. Defined.

(** Terms: names in the namespaces [rdf.ROW], [rdf.COL] and [rdf.SG],
    [RDF.type], and literals.  The namespaces themselves are constants of
    the [rdf] module; a name is kept with its namespace. *)
Inductive term : Type :=
| ROW (name : string)
| COL (name : string)
| SG (name : string)
| RDF_type
| Lit (v : value) (datatype : option xsd).

#[global] Instance term_eq_dec : EqDecision term.
Proof. solve_decision. Defined.

(** [rdflib.Literal (v, datatype=...)]: without a datatype, the one of the
    native type of [v]. *)
Definition Literal (v : value) (datatype : option xsd) : term :=
  match datatype with
  | Some d => Lit v (Some d)
  | None =>
      match v with
      | VInt _ => Lit v (Some XSD_integer)
      | VBool _ => Lit v (Some XSD_boolean)
      | _ => Lit v None
      end
  end.

Definition triple : Type := term * term * term.
Definition subject (t : triple) : term := fst (fst t).
Definition predicate (t : triple) : term := snd (fst t).
Definition object (t : triple) : term := snd t.

(** [rdflib.Graph]: a set of triples, kept in the order of their arrival. *)
Abbreviation Graph := (list triple) (only parsing).

Definition graph_add (t : triple) (g : Graph) : Graph :=
  if decide (t ∈ g) then g else (g ++ [t])%list.

(** A query for the endpoint: a rendered template, kept as the name of the
    template with its parameters, or the insertion of a graph built by
    [rdf.insert_query]. *)
Inductive query : Type :=
| Template (name : string) (args : dict string value)
| Insert (state_graph : string) (graph : Graph).

#[global] Instance query_eq_dec : EqDecision query.
Proof. solve_decision. Defined.

(* --------------------------------------------------------------------- *)
(** ** Logging                                                            *)
(* --------------------------------------------------------------------- *)

Inductive level : Type := INFO | WARNING | ERROR.

Inductive log_arg : Type :=
| ArgStr (s : string)
| ArgValue (v : value)
| ArgQuery (q : query)
| ArgExn (e : exn).

(** One call of [logging.info], [logging.warning] or [logging.error]: the
    level, the format and its arguments. *)
Record log_record : Type := Log {
  log_level : level;
  log_format : string;
  log_args : list log_arg
}.

(* --------------------------------------------------------------------- *)
(** ** The identifier allocator and the cache                             *)
(* --------------------------------------------------------------------- *)

Module IdGenerator.

(** Modelled from the spec: [djehuty.utils.counters.IdGenerator] is not
    among the sources.  Per-entity-kind counters keyed by the name of the
    kind (§4.5, §9); a counter holds what [set_id] stored, [None] while it
    is unset. *)
Definition t : Type := dict string value.

Definition keys (g : t) : list string := map fst g.

Definition set_id (v : value) (item_type : string) (g : t) : t :=
  dict_set item_type v g.

Definition current_id (item_type : string) (g : t) : outcome value :=
  match dict_get item_type g with
  | Some v => Return v
  | None => Raise KeyError
  end.

(** Increments the counter of the kind and returns it; a kind that is not
    registered, or whose counter is unset, cannot be incremented. *)
Definition next_id (item_type : string) (g : t) : outcome Z * t :=
  match dict_get item_type g with
  | Some (VInt n) => (Return (n + 1), dict_set item_type (VInt (n + 1)) g)
  | Some _ => (Raise TypeError, g)
  | None => (Raise KeyError, g)
  end.

End IdGenerator.

Module CacheLayer.

(** Modelled from the spec: [djehuty.web.cache.CacheLayer] is not among
    the sources.  §4.4: values are stored under a namespace prefix and a
    key derived from the query text; a prefix is invalidated as a whole;
    while the storage is not ready every operation behaves as a miss. *)
Record t : Type := Cache {
  storage : option string;
  entries : list (option string * query * list result_row)
}.

Definition cache_is_ready (c : t) : bool :=
  match storage c with Some _ => true | None => false end.

(** The key is derived from the text of the query alone. *)
Definition make_key (cache_key_string : query) : query := cache_key_string.

Definition cached_value (prefix : option string) (key : query) (c : t)
    : option (list result_row) :=
  if cache_is_ready c then
    match find (fun e => bool_decide (fst e = (prefix, key))) (entries c) with
    | Some e => Some (snd e)
    | None => None
    end
  else None.

Definition cache_value (prefix : option string) (key : query)
    (v : list result_row) (c : t) : t :=
  if cache_is_ready c then
    Cache (storage c)
      ((prefix, key, v)
         :: filter (fun e => fst e <> (prefix, key)) (entries c))
  else c.

Definition invalidate_by_prefix (prefix : string) (c : t) : t :=
  if cache_is_ready c then
    Cache (storage c)
      (filter (fun e => fst (fst e) <> Some prefix) (entries c))
  else c.

End CacheLayer.

(* --------------------------------------------------------------------- *)
(** ** The environment of the module                                      *)
(* --------------------------------------------------------------------- *)

(** What the module reaches outside itself: the SPARQL endpoint behind
    [SPARQLWrapper], whose state is [store] and whose answer to a query is
    the list of bindings of the converted JSON document or an exception of
    the client; the numeric coercions [int (float (s))] and [int (s)] of
    the interpreter; the tokens that successive calls of
    [secrets.token_urlsafe] draw; and three helpers of modules that are not
    among the sources, [conv.to_camel], [conv.value_or_none] and
    [rdf.add]. *)
Class World : Type := {
  store : Type;
  sparql_query : query -> store -> outcome (list raw_row) * store;
  int_of_float : string -> outcome Z;
  int_of_text : string -> outcome Z;
  token_urlsafe : nat -> string;
  to_camel : string -> string;
  value_or_none : record -> string -> value;
  rdf_add : Graph -> term -> term -> value -> option xsd -> Graph
}.

(** The fields of a [SparqlInterface] object that its methods read or
    write, the records handed to the [logging] module, and the number of
    tokens drawn from [secrets] so far. *)
Record SparqlInterface `{W : World} : Type := Interface {
  ids : IdGenerator.t;
  state_graph : string;
  privileges : dict value record;
  cache : CacheLayer.t;
  sparql : store;
  sparql_is_up : bool;
  logging : list log_record;
  drawn : nat
}.
Arguments Interface {_} _ _ _ _ _ _ _ _.

Section Method.
Context `{W : World}.

(** A method: it runs on the object, changes it, and returns or raises. *)
Definition M (A : Type) : Type := SparqlInterface -> outcome A * SparqlInterface.

Definition ret {A : Type} (a : A) : M A := fun st => (Return a, st).

Definition raise {A : Type} (e : exn) : M A := fun st => (Raise e, st).

Definition bind {A B : Type} (m : M A) (k : A -> M B) : M B :=
  fun st =>
    match m st with
    | (Return a, st') => k a st'
    | (Raise e, st') => (Raise e, st')
    end.

Definition lift {A : Type} (o : outcome A) : M A := fun st => (o, st).

Definition gets {A : Type} (f : SparqlInterface -> A) : M A := fun st => (Return (f st), st).

Definition modify (f : SparqlInterface -> SparqlInterface) : M unit :=
  fun st => (Return tt, f st).

(** [try: m  except ...: h]: [h] gives the arm that handles an exception,
    if there is one. *)
Definition try_except {A : Type} (m : M A) (h : exn -> option (M A)) : M A :=
  fun st =>
    match m st with
    | (Return a, st') => (Return a, st')
    | (Raise e, st') =>
        match h e with
        | Some arm => arm st'
        | None => (Raise e, st')
        end
    end.

End Method.

Notation "x <- m ;; k" := (bind m (fun x => k))
  (at level 100, m at next level, right associativity).
Notation "m ;; k" := (bind m (fun _ => k))
  (at level 100, right associativity).

Section Interface.
Context `{W : World}.

Fixpoint for_each {A : Type} (l : list A) (body : A -> M unit) : M unit :=
  match l with
  | [] => ret tt
  | x :: l' => body x ;; for_each l' body
  end.

(** [list (map (f, l))] *)
Fixpoint map_list {A B : Type} (f : A -> M B) (l : list A) : M (list B) :=
  match l with
  | [] => ret []
  | x :: l' => y <- f x ;; ys <- map_list f l' ;; ret (y :: ys)
  end.

Definition set_ids (g : IdGenerator.t) (st : SparqlInterface) : SparqlInterface :=
  Interface g (state_graph st) (privileges st) (cache st) (sparql st)
            (sparql_is_up st) (logging st) (drawn st).

Definition set_cache (c : CacheLayer.t) (st : SparqlInterface) : SparqlInterface :=
  Interface (ids st) (state_graph st) (privileges st) c (sparql st)
            (sparql_is_up st) (logging st) (drawn st).

Definition set_sparql (s : store) (st : SparqlInterface) : SparqlInterface :=
  Interface (ids st) (state_graph st) (privileges st) (cache st) s
            (sparql_is_up st) (logging st) (drawn st).

Definition set_sparql_is_up (b : bool) (st : SparqlInterface) : SparqlInterface :=
  Interface (ids st) (state_graph st) (privileges st) (cache st) (sparql st)
            b (logging st) (drawn st).

Definition set_logging (l : list log_record) (st : SparqlInterface) : SparqlInterface :=
  Interface (ids st) (state_graph st) (privileges st) (cache st) (sparql st)
            (sparql_is_up st) l (drawn st).

Definition set_drawn (n : nat) (st : SparqlInterface) : SparqlInterface :=
  Interface (ids st) (state_graph st) (privileges st) (cache st) (sparql st)
            (sparql_is_up st) (logging st) n.

Definition logging_call (lvl : level) (format : string) (args : list log_arg) : M unit :=
  modify (fun st => set_logging (logging st ++ [Log lvl format args])%list st).

(** [self.ids.next_id (item_type)] *)
Definition ids_next_id (item_type : string) : M Z :=
  fun st =>
    let '(r, g) := IdGenerator.next_id item_type (ids st) in (r, set_ids g st).

Definition cache_invalidate_by_prefix (prefix : string) : M unit :=
  modify (fun st => set_cache (CacheLayer.invalidate_by_prefix prefix (cache st)) st).

(** [self.sparql.query ().convert ()] and the bindings of the answer. *)
Definition sparql_query_convert (q : query) : M (list raw_row) :=
  fun st =>
    let '(r, s) := sparql_query q (sparql st) in (r, set_sparql s st).

(** [l[0]] *)
Definition first {A : Type} (l : list A) : M A :=
  match l with
  | x :: _ => ret x
  | [] => raise IndexError
  end.

(** [row[key]] on an element of a result list. *)
Definition subscript (row : result_row) (key : string) : M value :=
  match row with
  | Row r =>
      match dict_get key r with
      | Some v => ret v
      | None => raise KeyError
      end
  | Scalar _ => raise TypeError
  end.

(* --------------------------------------------------------------------- *)
(** ** Private methods                                                    *)
(* --------------------------------------------------------------------- *)

Definition log_query (q : query) : M unit :=
  logging_call INFO "Query:\n---\n%s\n---" [ArgQuery q].

Definition xsd_integer : string := "http://www.w3.org/2001/XMLSchema#integer".
Definition xsd_decimal : string := "http://www.w3.org/2001/XMLSchema#decimal".
Definition xsd_boolean : string := "http://www.w3.org/2001/XMLSchema#boolean".
Definition xsd_dateTime : string := "http://www.w3.org/2001/XMLSchema#dateTime".
Definition xsd_string : string := "http://www.w3.org/2001/XMLSchema#string".

(** The loop of [__normalize_binding] over the items that remain; [done]
    holds the items already replaced by their native value. *)
Fixpoint normalize_items (items : raw_row) (done : record) : M result_row :=
  match items with
  | [] => ret (Row done)
  | (item, cell) :: items' =>
      let keep (v : value) := normalize_items items' (done ++ [(item, v)])%list in
      if String.eqb (b_type cell) "typed-literal" then
        match b_datatype cell with
        | None => raise KeyError
        | Some datatype =>
            if String.eqb datatype xsd_integer then
              n <- lift (int_of_float (b_value cell)) ;; keep (VInt n)
            else if String.eqb datatype xsd_decimal then
              n <- lift (int_of_float (b_value cell)) ;; keep (VInt n)
            else if String.eqb datatype xsd_boolean then
              n <- lift (int_of_text (b_value cell)) ;; keep (VBool (negb (n =? 0)))
            else if String.eqb datatype xsd_dateTime then
              s <- lift (normalize_dateTime (b_value cell)) ;; keep (VStr s)
            else if String.eqb datatype xsd_string then
              if String.eqb (b_value cell) "NULL" then keep VNone
              else keep (VStr (b_value cell))
            else keep (VCell cell)
        end
      else if String.eqb (b_type cell) "literal" then
        (if startswith (b_value cell) "Modify "
            || startswith (b_value cell) "Insert into "
            || startswith (b_value cell) "Delete from "
         then logging_call INFO "RDF store: %s" [ArgStr (b_value cell)]
         else logging_call INFO "Literal: %s" [ArgStr (b_value cell)]) ;;
        ret (Scalar (b_value cell))
      else if String.eqb (b_type cell) "uri" then
        keep (VStr (b_value cell))
      else
        logging_call INFO "Not a typed-literal: %s" [ArgStr (b_type cell)] ;;
        keep (VCell cell)
  end.

Definition normalize_binding (record : raw_row) : M result_row :=
  normalize_items record [].

Definition query_from_template (name : string) (args : dict string value) : M query :=
  gets (fun st => Template name (dict_merge args [("state_graph", VStr (state_graph st))])).

Definition msg_up : string := "Connection to the SPARQL endpoint seems up again.".
Definition msg_down : string := "Connection to the SPARQL endpoint seems down.".

Definition run_query (q : query) (cache_key_string : option query)
    (prefix : option string) : M (list result_row) :=
  cached <- match cache_key_string with
            | Some s =>
                gets (fun st => CacheLayer.cached_value prefix (CacheLayer.make_key s) (cache st))
            | None => ret None
            end ;;
  match cached with
  | Some c => ret c
  | None =>
      try_except
        (query_results <- sparql_query_convert q ;;
         results <- map_list normalize_binding query_results ;;
         match cache_key_string with
         | Some s =>
             modify (fun st =>
               set_cache (CacheLayer.cache_value prefix (CacheLayer.make_key s) results
                            (cache st)) st)
         | None => ret tt
         end ;;
         up <- gets sparql_is_up ;;
         (if negb up
          then logging_call INFO msg_up [] ;; modify (set_sparql_is_up true)
          else ret tt) ;;
         ret results)
        (fun e => Some
           match e with
           | URLError =>
               up <- gets sparql_is_up ;;
               (if up
                then logging_call ERROR msg_down [] ;; modify (set_sparql_is_up false)
                else ret tt) ;;
               ret []
           | QueryBadFormed =>
               logging_call ERROR "Badly formed SPARQL query:" [] ;;
               log_query q ;;
               ret []
           | error =>
               logging_call ERROR "SPARQL query failed." [] ;;
               logging_call ERROR "Exception: %s" [ArgExn error] ;;
               log_query q ;;
               ret []
           end)
  end.

Definition highest_id (item_type : string) : M value :=
  let prefix := to_camel item_type in
  q <- query_from_template "highest_id" [("item_type", VStr prefix)] ;;
  try_except
    (results <- run_query q None None ;;
     row <- first results ;;
     subscript row "id")
    (fun e =>
       match e with
       | IndexError => Some (ret (VInt 0))
       | KeyError => Some (ret VNone)
       | _ => None
       end).

Definition insert_query_for_graph (graph : Graph) : M query :=
  gets (fun st => Insert (state_graph st) graph).

(** The body of the first loop of [load_state]. *)
Definition load_counter (item : string) : M unit :=
  v <- highest_id item ;;
  modify (fun st => set_ids (IdGenerator.set_id v item (ids st)) st) ;;
  current <- (fun st => (IdGenerator.current_id item (ids st), st)) ;;
  match current with
  | VNone => raise UnknownDatabaseState
  | _ => ret tt
  end.

(** The body of its second loop. *)
Definition log_counter (item : string) : M unit :=
  current <- (fun st => (IdGenerator.current_id item (ids st), st)) ;;
  logging_call INFO "%s enumerator set to %d" [ArgStr item; ArgValue current].

(** [load_state]; [werkzeug_run_main] tells whether the environment
    variable WERKZEUG_RUN_MAIN is set. *)
Definition load_state (werkzeug_run_main : bool) : M unit :=
  try_except
    (items <- gets (fun st => IdGenerator.keys (ids st)) ;;
     for_each items load_counter)
    (fun e =>
       match e with
       | EmptyDatabase =>
           Some (logging_call WARNING "It looks like the database is empty." [])
       | _ => None
       end) ;;
  up <- gets sparql_is_up ;;
  if negb werkzeug_run_main && up then
    items <- gets (fun st => IdGenerator.keys (ids st)) ;;
    for_each items log_counter
  else ret tt.

(** [__init__]: the object as it is created, on the endpoint [s] and with
    the counters [g] of a new [IdGenerator]. *)
Definition init (g : IdGenerator.t) (s : store) : SparqlInterface :=
  Interface g "https://data.4tu.nl/portal/self-test" [] (CacheLayer.Cache None [])
            s true [] O.

End Interface.

(* --------------------------------------------------------------------- *)
(** ** Filter fragments built inside the read operations                  *)
(* --------------------------------------------------------------------- *)

(** The characters that the fragments need and that a literal cannot
    hold as such. *)
Definition dq : string := String (ascii_of_nat 34) EmptyString.
Definition nl : string := String (ascii_of_nat 10) EmptyString.
Definition backslash : string := String (ascii_of_nat 92) EmptyString.

(** [datasets], lines 233-237: what [search_for] adds to [filters]. *)
Definition datasets_search_for (search_for : option string) : string :=
  match search_for with
  | None => EmptyString
  | Some search_for =>
      "FILTER (CONTAINS(STR(?title),          " +:+ dq +:+ search_for +:+ dq +:+ ") OR" +:+ nl +:+
      "        CONTAINS(STR(?resource_title), " +:+ dq +:+ search_for +:+ dq +:+ ") OR" +:+ nl +:+
      "        CONTAINS(STR(?description),    " +:+ dq +:+ search_for +:+ dq +:+ ") OR" +:+ nl +:+
      "        CONTAINS(STR(?citation),       " +:+ dq +:+ search_for +:+ dq +:+ "))"
  end.

(** [authors], lines 395-399. *)
Definition authors_search_for (search_for : option string) : string :=
  match search_for with
  | None => EmptyString
  | Some search_for =>
      "FILTER (CONTAINS(STR(?first_name), " +:+ dq +:+ search_for +:+ dq +:+ ") OR" +:+ nl +:+
      "        CONTAINS(STR(?last_name),  " +:+ dq +:+ search_for +:+ dq +:+ ") OR" +:+ nl +:+
      "        CONTAINS(STR(?full_name),  " +:+ dq +:+ search_for +:+ dq +:+ ") OR" +:+ nl +:+
      "        CONTAINS(STR(?orcid_id),   " +:+ dq +:+ search_for +:+ dq +:+ "))"
  end.

(** [collections], lines 687-691. *)
Definition collections_search_for (search_for : option string) : string :=
  match search_for with
  | None => EmptyString
  | Some search_for =>
      "FILTER (CONTAINS(STR(?title),          " +:+ dq +:+ search_for +:+ dq +:+ ") OR" +:+ nl +:+
      "        CONTAINS(STR(?resource_title), " +:+ dq +:+ search_for +:+ dq +:+ ") OR" +:+ nl +:+
      "        CONTAINS(STR(?description),    " +:+ dq +:+ search_for +:+ dq +:+ ") OR" +:+ nl +:+
      "        CONTAINS(STR(?citation),       " +:+ dq +:+ search_for +:+ dq +:+ "))"
  end.

(** The escaping that [delete_article_reference] applies to its [url]
    (line 493): [url.replace ('"', '\\"')]. *)
Definition escape_quotes (s : string) : string :=
  replace_char (ascii_of_nat 34) (backslash +:+ dq) s.

(** The number of double quotes of a SPARQL text that are not escaped by a
    backslash: the delimiters of its string literals. *)
Fixpoint unescaped_quotes (s : string) : nat :=
  match s with
  | EmptyString => O
  | String c s' =>
      if Ascii.eqb c (ascii_of_nat 92) then
        match s' with
        | EmptyString => O
        | String _ s'' => unescaped_quotes s''
        end
      else if Ascii.eqb c (ascii_of_nat 34) then S (unescaped_quotes s')
      else unescaped_quotes s'
  end.

(* --------------------------------------------------------------------- *)
(** ** Write operations                                                   *)
(* --------------------------------------------------------------------- *)

(** The text of a value in an f-string. *)
Definition fmt_value (v : value) : string :=
  match v with
  | VNone => "None"
  | VInt n => fmt n
  | VBool true => "True"
  | VBool false => "False"
  | VStr s => s
  | VCell c =>
      "{'type': '" +:+ b_type c +:+ "', 'value': '" +:+ b_value c +:+ "'}"
  end.

Definition is_none (v : value) : bool :=
  match v with VNone => true | _ => false end.

(** Truth value of a list, and of an optional list argument. *)
Definition nonempty {A : Type} (l : list A) : bool :=
  match l with [] => false | _ => true end.

Definition given {A : Type} (l : option (list A)) : bool :=
  match l with Some l => nonempty l | None => false end.

(** [[] if l is None else l] *)
Definition or_empty {A : Type} (l : option (list A)) : list A :=
  match l with Some l => l | None => [] end.

Section Repository.
Context `{W : World}.

Definition insert_timeline (revision first_online publisher_publication
    publisher_acceptance posted submission : value) : M value :=
  timeline_id <- ids_next_id "timeline" ;;
  let timeline_uri := ROW ("timeline_" +:+ fmt timeline_id) in
  let graph := graph_add (timeline_uri, RDF_type, SG "Timeline") [] in
  let graph := graph_add (timeline_uri, COL "id", Literal (VInt timeline_id) None) graph in
  let graph := rdf_add graph timeline_uri (COL "revision") revision (Some XSD_string) in
  let graph := rdf_add graph timeline_uri (COL "firstOnline") first_online (Some XSD_string) in
  let graph := rdf_add graph timeline_uri (COL "publisherPublication") publisher_publication (Some XSD_string) in
  let graph := rdf_add graph timeline_uri (COL "publisherAcceptance") publisher_acceptance (Some XSD_string) in
  let graph := rdf_add graph timeline_uri (COL "posted") posted (Some XSD_string) in
  let graph := rdf_add graph timeline_uri (COL "submission") submission (Some XSD_string) in
  q <- insert_query_for_graph graph ;;
  results <- run_query q None None ;;
  if nonempty results then ret (VInt timeline_id) else ret VNone.

Definition insert_author (author_id is_active first_name last_name full_name
    institution_id job_title is_public url_name orcid_id email : value) : M value :=
  author_id <- (if is_none author_id
                then n <- ids_next_id "author" ;; ret (VInt n)
                else ret author_id) ;;
  let author_uri := ROW ("author_" +:+ fmt_value author_id) in
  let graph := graph_add (author_uri, RDF_type, SG "Author") [] in
  let graph := graph_add (author_uri, COL "id", Literal author_id None) graph in
  let graph := rdf_add graph author_uri (COL "institution_id") institution_id None in
  let graph := rdf_add graph author_uri (COL "is_active") is_active None in
  let graph := rdf_add graph author_uri (COL "is_public") is_public None in
  let graph := rdf_add graph author_uri (COL "first_name") first_name (Some XSD_string) in
  let graph := rdf_add graph author_uri (COL "last_name") last_name (Some XSD_string) in
  let graph := rdf_add graph author_uri (COL "full_name") full_name (Some XSD_string) in
  let graph := rdf_add graph author_uri (COL "job_title") job_title (Some XSD_string) in
  let graph := rdf_add graph author_uri (COL "url_name") url_name (Some XSD_string) in
  let graph := rdf_add graph author_uri (COL "orcid_id") orcid_id (Some XSD_string) in
  let graph := rdf_add graph author_uri (COL "email") email (Some XSD_string) in
  q <- insert_query_for_graph graph ;;
  results <- run_query q None None ;;
  if nonempty results then ret author_id else ret VNone.

Definition insert_category (category_id title parent_id source_id taxonomy : value)
    : M value :=
  category_id <- (if is_none category_id
                  then n <- ids_next_id "category" ;; ret (VInt n)
                  else ret category_id) ;;
  let category_uri := ROW ("category_" +:+ fmt_value category_id) in
  let graph := graph_add (category_uri, RDF_type, SG "Category") [] in
  let graph := graph_add (category_uri, COL "id", Literal category_id None) graph in
  let graph := rdf_add graph category_uri (COL "title") title (Some XSD_string) in
  let graph := rdf_add graph category_uri (COL "parent_id") parent_id None in
  let graph := rdf_add graph category_uri (COL "source_id") source_id None in
  let graph := rdf_add graph category_uri (COL "taxonomy") taxonomy None in
  q <- insert_query_for_graph graph ;;
  results <- run_query q None None ;;
  if nonempty results then ret category_id else ret VNone.

Definition insert_item_category (item_id category_id : value) (item_type : string)
    : M value :=
  let prefix := capitalize item_type in
  link_id <- ids_next_id (item_type +:+ "_category") ;;
  let link_uri := ROW (item_type +:+ "_category_link_" +:+ fmt link_id) in
  let graph := graph_add (link_uri, RDF_type, SG (prefix +:+ "Category")) [] in
  let graph := graph_add (link_uri, COL "id", Literal (VInt link_id) (Some XSD_integer)) graph in
  let graph := graph_add (link_uri, COL "category_id", Literal category_id (Some XSD_integer)) graph in
  let graph := graph_add (link_uri, COL (item_type +:+ "_version_id"),
                          Literal item_id (Some XSD_integer)) graph in
  q <- insert_query_for_graph graph ;;
  results <- run_query q None None ;;
  if nonempty results then ret (VInt link_id) else ret VNone.

Definition insert_article_category (article_id category_id : value) : M value :=
  insert_item_category article_id category_id "article".

Definition insert_collection_category (collection_version_id category_id : value)
    : M value :=
  insert_item_category collection_version_id category_id "collection".

Definition insert_author_link (author_id item_id : value) (item_type : string)
    : M value :=
  let prefix := capitalize item_type in
  link_id <- ids_next_id (item_type +:+ "_author") ;;
  let link_uri := ROW (item_type +:+ "_author_link_" +:+ fmt link_id) in
  let graph := graph_add (link_uri, RDF_type, SG (prefix +:+ "Author")) [] in
  let graph := graph_add (link_uri, COL "id", Literal (VInt link_id) None) graph in
  let graph := graph_add (link_uri, COL "author_id", Literal author_id None) graph in
  let graph := graph_add (link_uri, COL (item_type +:+ "_version_id"),
                          Literal item_id None) graph in
  q <- insert_query_for_graph graph ;;
  results <- run_query q None None ;;
  if nonempty results then ret (VInt link_id) else ret VNone.

Definition insert_collection_author (collection_version_id author_id : value)
    : M value :=
  insert_author_link author_id collection_version_id "collection".

Definition insert_article_file (article_version_id file_id : value) : M value :=
  link_id <- ids_next_id "article_file" ;;
  let link_uri := ROW ("article_file_link_" +:+ fmt link_id) in
  let graph := graph_add (link_uri, RDF_type, SG "ArticleFile") [] in
  let graph := graph_add (link_uri, COL "id", Literal (VInt link_id) None) graph in
  let graph := graph_add (link_uri, COL "file_id", Literal file_id (Some XSD_integer)) graph in
  let graph := graph_add (link_uri, COL "article_version_id",
                          Literal article_version_id (Some XSD_integer)) graph in
  q <- insert_query_for_graph graph ;;
  results <- run_query q None None ;;
  if nonempty results then ret (VInt link_id) else ret VNone.

Definition delete_item_categories (item_id account_id category_id : value)
    (item_type : string) : M (list result_row) :=
  let prefix := capitalize item_type in
  q <- query_from_template "delete_item_categories"
         [("item_id", item_id); ("item_type", VStr item_type); ("prefix", VStr prefix);
          ("account_id", account_id); ("category_id", category_id)] ;;
  run_query q None None.

Definition delete_article_categories (article_id account_id category_id : value)
    : M (list result_row) :=
  delete_item_categories article_id account_id category_id "article".

Definition delete_collection_categories (collection_version_id account_id category_id : value)
    : M (list result_row) :=
  delete_item_categories collection_version_id account_id category_id "collection".

Definition delete_collection_articles (collection_version_id account_id : value)
    : M (list result_row) :=
  q <- query_from_template "delete_collection_articles"
         [("collection_version_id", collection_version_id); ("account_id", account_id)] ;;
  run_query q None None.

Definition delete_article_for_collection (collection_version_id account_id
    article_version_id : value) : M (list result_row) :=
  q <- query_from_template "delete_article_for_collection"
         [("collection_version_id", collection_version_id); ("account_id", account_id);
          ("article_version_id", article_version_id)] ;;
  cache_invalidate_by_prefix "article" ;;
  cache_invalidate_by_prefix (fmt_value collection_version_id) ;;
  run_query q None None.

Definition delete_file_for_article (article_version_id account_id file_id : value)
    : M (list result_row) :=
  q <- query_from_template "delete_files_for_article"
         [("article_version_id", article_version_id); ("account_id", account_id);
          ("file_id", file_id)] ;;
  cache_invalidate_by_prefix (fmt_value article_version_id +:+ "_article") ;;
  run_query q None None.

(** [insert_tag]; the argument of [next_id] is the plain string of line
    1327, which is not an f-string. *)
Definition insert_tag (tag item_id : value) (item_type : string) : M value :=
  let prefix := capitalize item_type in
  tag_id <- ids_next_id "{item_type}_tag" ;;
  let tag_uri := ROW (item_type +:+ "_tag_" +:+ fmt tag_id) in
  let graph := graph_add (tag_uri, RDF_type, SG (prefix +:+ "Tag")) [] in
  let graph := graph_add (tag_uri, COL "id", Literal (VInt tag_id) None) graph in
  let graph := graph_add (tag_uri, COL (item_type +:+ "_version_id"), Literal item_id None) graph in
  let graph := rdf_add graph tag_uri (COL "tag") tag (Some XSD_string) in
  q <- insert_query_for_graph graph ;;
  results <- run_query q None None ;;
  if nonempty results then ret (VInt tag_id) else ret VNone.

Definition insert_reference (url item_id : value) (item_type : string) : M value :=
  let prefix := capitalize item_type in
  reference_id <- ids_next_id "reference" ;;
  let reference_uri := ROW ("reference_" +:+ fmt reference_id) in
  let graph := graph_add (reference_uri, RDF_type, SG (prefix +:+ "Reference")) [] in
  let graph := graph_add (reference_uri, COL "id", Literal (VInt reference_id) None) graph in
  let graph := graph_add (reference_uri, COL (item_type +:+ "_version_id"),
                          Literal item_id None) graph in
  let graph := graph_add (reference_uri, COL "url", Literal url (Some XSD_string)) graph in
  q <- insert_query_for_graph graph ;;
  results <- run_query q None None ;;
  if nonempty results then ret (VInt reference_id) else ret VNone.

Definition insert_funding (title grant_code funder_name is_user_defined url
    item_id : value) (item_type : string) (funding_id : value) : M value :=
  let prefix := capitalize item_type in
  funding_id <- (if is_none funding_id
                 then n <- ids_next_id "funding" ;; ret (VInt n)
                 else ret funding_id) ;;
  let funding_uri := ROW ("funding_" +:+ fmt_value funding_id) in
  let graph := graph_add (funding_uri, RDF_type, SG (prefix +:+ "Funding")) [] in
  let graph := graph_add (funding_uri, COL "id", Literal funding_id None) graph in
  let graph := graph_add (funding_uri, COL (item_type +:+ "_version_id"),
                          Literal item_id None) graph in
  let graph := rdf_add graph funding_uri (COL "title") title (Some XSD_string) in
  let graph := rdf_add graph funding_uri (COL "grant_code") grant_code (Some XSD_string) in
  let graph := rdf_add graph funding_uri (COL "funder_name") funder_name (Some XSD_string) in
  let graph := rdf_add graph funding_uri (COL "is_user_defined") is_user_defined None in
  let graph := rdf_add graph funding_uri (COL "url") url (Some XSD_string) in
  q <- insert_query_for_graph graph ;;
  results <- run_query q None None ;;
  if nonempty results then ret funding_id else ret VNone.

Definition insert_private_link (private_link_id read_only id_string is_active
    expires_date item_id : value) (item_type : string) : M value :=
  id_string <- (if is_none id_string
                then (fun st => (Return (VStr (token_urlsafe (drawn st))),
                                 set_drawn (S (drawn st)) st))
                else ret id_string) ;;
  private_link_id <- (if is_none private_link_id
                      then n <- ids_next_id "private_links" ;; ret (VInt n)
                      else ret private_link_id) ;;
  let prefix := capitalize item_type in
  let link_uri := ROW ("private_link_" +:+ fmt_value id_string) in
  let graph := graph_add (link_uri, RDF_type, SG (prefix +:+ "PrivateLink")) [] in
  let graph := graph_add (link_uri, COL "id", Literal private_link_id None) graph in
  let graph := rdf_add graph link_uri (COL "id_string") id_string (Some XSD_string) in
  let graph := rdf_add graph link_uri (COL "read_only") read_only None in
  let graph := rdf_add graph link_uri (COL "is_active") is_active None in
  let graph := rdf_add graph link_uri (COL "expires_date") expires_date (Some XSD_string) in
  let graph := rdf_add graph link_uri (COL (item_type +:+ "_version_id")) item_id None in
  q <- insert_query_for_graph graph ;;
  results <- run_query q None None ;;
  if nonempty results then ret id_string else ret VNone.

Definition insert_custom_field (name value_ default_value max_length min_length
    field_type is_mandatory placeholder is_multiple item_id : value)
    (item_type : string) : M value :=
  let prefix := capitalize item_type in
  custom_field_id <- ids_next_id "custom_field" ;;
  let custom_field_uri := ROW ("custom_field_" +:+ fmt custom_field_id) in
  let graph := graph_add (custom_field_uri, RDF_type, SG (prefix +:+ "CustomField")) [] in
  let graph := graph_add (custom_field_uri, COL "id", Literal (VInt custom_field_id) None) graph in
  let graph := graph_add (custom_field_uri, COL (item_type +:+ "_version_id"),
                          Literal item_id None) graph in
  let graph := rdf_add graph custom_field_uri (COL "name") name (Some XSD_string) in
  let graph := rdf_add graph custom_field_uri (COL "value") value_ None in
  let graph := rdf_add graph custom_field_uri (COL "default_value") default_value None in
  let graph := rdf_add graph custom_field_uri (COL "max_length") max_length None in
  let graph := rdf_add graph custom_field_uri (COL "min_length") min_length None in
  let graph := rdf_add graph custom_field_uri (COL "field_type") field_type None in
  let graph := rdf_add graph custom_field_uri (COL "is_mandatory") is_mandatory None in
  let graph := rdf_add graph custom_field_uri (COL "placeholder") placeholder None in
  let graph := rdf_add graph custom_field_uri (COL "is_multiple") is_multiple None in
  q <- insert_query_for_graph graph ;;
  results <- run_query q None None ;;
  if nonempty results then ret (VInt custom_field_id) else ret VNone.

(** The optional metadata of [update_article], one field per keyword
    argument. *)
Record article_update : Type := ArticleUpdate {
  a_title : value; a_description : value; a_resource_doi : value;
  a_resource_title : value; a_license_id : value; a_group_id : value;
  a_time_coverage : value; a_publisher : value; a_language : value;
  a_mimetype : value; a_contributors : value; a_license_remarks : value;
  a_geolocation : value; a_longitude : value; a_latitude : value;
  a_data_link : value; a_has_linked_file : value; a_derived_from : value;
  a_same_as : value; a_organizations : value; a_defined_type : value;
  a_defined_type_name : value
}.

(** All the keyword arguments at their default. *)
Definition no_article_update : article_update :=
  ArticleUpdate VNone VNone VNone VNone VNone VNone VNone VNone VNone VNone VNone
                VNone VNone VNone VNone VNone VNone VNone VNone VNone VNone VNone.

Definition with_has_linked_file (v : value) (u : article_update) : article_update :=
  ArticleUpdate (a_title u) (a_description u) (a_resource_doi u) (a_resource_title u)
    (a_license_id u) (a_group_id u) (a_time_coverage u) (a_publisher u) (a_language u)
    (a_mimetype u) (a_contributors u) (a_license_remarks u) (a_geolocation u)
    (a_longitude u) (a_latitude u) (a_data_link u) v (a_derived_from u) (a_same_as u)
    (a_organizations u) (a_defined_type u) (a_defined_type_name u).

(** [update_article]; [now] is the text of [datetime.now ()] in the format
    "%Y-%m-%d %H:%M:%S". *)
Definition update_article (article_version_id account_id : value) (u : article_update)
    (categories : option (list value)) (now : string) : M (list result_row) :=
  q <- query_from_template "update_article"
         [("account_id", account_id);
          ("article_version_id", article_version_id);
          ("contributors", a_contributors u);
          ("data_link", a_data_link u);
          ("defined_type", a_defined_type u);
          ("defined_type_name", a_defined_type_name u);
          ("derived_from", a_derived_from u);
          ("description", a_description u);
          ("format", a_mimetype u);
          ("geolocation", a_geolocation u);
          ("has_linked_file", a_has_linked_file u);
          ("language", a_language u);
          ("latitude", a_latitude u);
          ("license_id", a_license_id u);
          ("group_id", a_group_id u);
          ("license_remarks", a_license_remarks u);
          ("longitude", a_longitude u);
          ("modified_date", VStr now);
          ("organizations", a_organizations u);
          ("publisher", a_publisher u);
          ("resource_doi", a_resource_doi u);
          ("resource_title", a_resource_title u);
          ("same_as", a_same_as u);
          ("time_coverage", a_time_coverage u);
          ("title", a_title u)] ;;
  cache_invalidate_by_prefix "article" ;;
  cache_invalidate_by_prefix (fmt_value article_version_id +:+ "_article") ;;
  results <- run_query q (Some q) (Some (fmt_value article_version_id +:+ "_article")) ;;
  (if nonempty results && given categories then
     delete_article_categories article_version_id account_id VNone ;;
     for_each (or_empty categories) (fun category =>
       insert_article_category article_version_id category ;; ret tt)
   else ret tt) ;;
  ret results.

(** [insert_file]; it returns the identifier of the file or [None]. *)
Definition insert_file (file_id name size is_link_only download_url supplied_md5
    computed_md5 viewer_type preview_state status upload_url upload_token
    article_version_id account_id : value) (now : string) : M value :=
  file_id <- (if is_none file_id
              then n <- ids_next_id "file" ;; ret (VInt n)
              else ret file_id) ;;
  let file_uri := ROW ("file_" +:+ fmt_value file_id) in
  let graph := graph_add (file_uri, RDF_type, SG "File") [] in
  let graph := graph_add (file_uri, COL "id", Literal file_id None) graph in
  let graph := rdf_add graph file_uri (COL "name") name (Some XSD_string) in
  let graph := rdf_add graph file_uri (COL "size") size None in
  let graph := rdf_add graph file_uri (COL "is_link_only") is_link_only None in
  let graph := rdf_add graph file_uri (COL "download_url") download_url (Some XSD_string) in
  let graph := rdf_add graph file_uri (COL "supplied_md5") supplied_md5 (Some XSD_string) in
  let graph := rdf_add graph file_uri (COL "computed_md5") computed_md5 (Some XSD_string) in
  let graph := rdf_add graph file_uri (COL "viewer_type") viewer_type (Some XSD_string) in
  let graph := rdf_add graph file_uri (COL "preview_state") preview_state (Some XSD_string) in
  let graph := rdf_add graph file_uri (COL "status") status (Some XSD_string) in
  let graph := rdf_add graph file_uri (COL "upload_url") upload_url (Some XSD_string) in
  let graph := rdf_add graph file_uri (COL "upload_token") upload_token (Some XSD_string) in
  cache_invalidate_by_prefix "article" ;;
  q <- insert_query_for_graph graph ;;
  results <- run_query q None None ;;
  if nonempty results then
    if negb (is_none article_version_id) then
      (if truthy is_link_only
       then update_article article_version_id account_id
              (with_has_linked_file (VBool true) no_article_update) None now ;; ret tt
       else ret tt) ;;
      link_id <- insert_article_file article_version_id file_id ;;
      if negb (is_none link_id) then ret file_id else ret VNone
    else ret file_id
  else ret VNone.

Definition delete_article (article_id account_id : value) : M (list result_row) :=
  q <- query_from_template "delete_article"
         [("account_id", account_id); ("article_id", article_id)] ;;
  result <- run_query q None None ;;
  cache_invalidate_by_prefix (fmt_value article_id +:+ "_article") ;;
  cache_invalidate_by_prefix "article" ;;
  ret result.

Definition delete_article_version (article_version_id account_id : value)
    : M (list result_row) :=
  q <- query_from_template "delete_article_version"
         [("account_id", account_id); ("article_version_id", article_version_id)] ;;
  result <- run_query q None None ;;
  cache_invalidate_by_prefix (fmt_value article_version_id +:+ "_article") ;;
  cache_invalidate_by_prefix "article" ;;
  ret result.

(** [insert_collection_article]; it returns [False] when an identifier is
    missing, the identifier of the link, or [None]. *)
Definition insert_collection_article (collection_version_id article_version_id : value)
    : M value :=
  if is_none collection_version_id || is_none article_version_id then ret (VBool false)
  else
    link_id <- ids_next_id "collection_article" ;;
    let link_uri := ROW ("collection_article_" +:+ fmt link_id) in
    let graph := graph_add (link_uri, RDF_type, SG "CollectionArticle") [] in
    let graph := graph_add (link_uri, COL "id", Literal (VInt link_id) None) graph in
    let graph := graph_add (link_uri, COL "collection_version_id",
                            Literal collection_version_id None) graph in
    let graph := graph_add (link_uri, COL "article_version_id",
                            Literal article_version_id None) graph in
    q <- insert_query_for_graph graph ;;
    results <- run_query q None None ;;
    if nonempty results then
      cache_invalidate_by_prefix "article" ;;
      ret (VInt link_id)
    else ret VNone.

Definition delete_collection (collection_version_id account_id : value)
    : M (list result_row) :=
  q <- query_from_template "delete_collection"
         [("account_id", account_id); ("collection_version_id", collection_version_id)] ;;
  run_query q None None.

(** The optional metadata of [update_collection]. *)
Record collection_update : Type := CollectionUpdate {
  c_title : value; c_description : value; c_resource_doi : value;
  c_resource_title : value; c_group_id : value; c_time_coverage : value;
  c_publisher : value; c_language : value; c_contributors : value;
  c_geolocation : value; c_longitude : value; c_latitude : value;
  c_organizations : value
}.

Definition no_collection_update : collection_update :=
  CollectionUpdate VNone VNone VNone VNone VNone VNone VNone VNone VNone VNone VNone
                   VNone VNone.

Definition update_collection (collection_version_id account_id : value)
    (u : collection_update) (articles categories : option (list value))
    (now : string) : M (list result_row) :=
  q <- query_from_template "update_collection"
         [("account_id", account_id);
          ("collection_version_id", collection_version_id);
          ("contributors", c_contributors u);
          ("description", c_description u);
          ("geolocation", c_geolocation u);
          ("language", c_language u);
          ("latitude", c_latitude u);
          ("group_id", c_group_id u);
          ("longitude", c_longitude u);
          ("modified_date", VStr now);
          ("organizations", c_organizations u);
          ("publisher", c_publisher u);
          ("resource_doi", c_resource_doi u);
          ("resource_title", c_resource_title u);
          ("time_coverage", c_time_coverage u);
          ("title", c_title u)] ;;
  cache_invalidate_by_prefix "collection" ;;
  cache_invalidate_by_prefix (fmt_value collection_version_id +:+ "_collection") ;;
  results <- run_query q (Some q)
               (Some (fmt_value collection_version_id +:+ "_collection")) ;;
  (if nonempty results && given categories then
     delete_collection_categories collection_version_id account_id VNone ;;
     for_each (or_empty categories) (fun category =>
       insert_collection_category collection_version_id category ;; ret tt)
   else ret tt) ;;
  (if nonempty results && given articles then
     delete_collection_articles collection_version_id account_id ;;
     for_each (or_empty articles) (fun article_id =>
       insert_collection_article collection_version_id article_id ;; ret tt)
   else ret tt) ;;
  ret results.

(** The keyword arguments of [insert_collection] that the method reads
    (it ignores the others). *)
Record new_collection : Type := NewCollection {
  n_title : value; n_account_id : value;
  n_collection_id : value; n_collection_version_id : value;
  n_funding : value; n_funding_list : option (list record);
  n_description : value;
  n_articles : option (list value); n_authors : option (list record);
  n_categories : option (list record);
  n_tags : option (list value); n_references : option (list value);
  n_custom_fields : option (list record);
  n_doi : value; n_handle : value; n_url : value;
  n_resource_doi : value; n_resource_title : value; n_group_id : value;
  n_first_online : value; n_publisher_publication : value;
  n_publisher_acceptance : value; n_submission : value; n_posted : value;
  n_revision : value;
  n_private_links : option (list record)
}.

Definition insert_collection (c : new_collection) (now : string) : M value :=
  let funding_list := or_empty (n_funding_list c) in
  let tags := or_empty (n_tags c) in
  let references := or_empty (n_references c) in
  let categories := or_empty (n_categories c) in
  let authors := or_empty (n_authors c) in
  let custom_fields := or_empty (n_custom_fields c) in
  let private_links := or_empty (n_private_links c) in
  let articles := or_empty (n_articles c) in
  collection_version_id <- (if is_none (n_collection_version_id c)
                            then n <- ids_next_id "article" ;; ret (VInt n)
                            else ret (n_collection_version_id c)) ;;
  let collection_id := if is_none (n_collection_id c) then collection_version_id
                       else n_collection_id c in
  let collection_uri := ROW ("collection_" +:+ fmt_value collection_version_id) in
  timeline_id <- insert_timeline (n_revision c) (n_first_online c)
                   (n_publisher_publication c) (n_publisher_acceptance c)
                   (n_posted c) (n_submission c) ;;
  let graph := rdf_add [] collection_uri (COL "timeline_id") timeline_id None in
  for_each references (fun reference =>
    insert_reference reference collection_version_id "collection" ;; ret tt) ;;
  for_each tags (fun tag =>
    insert_tag tag collection_version_id "collection" ;; ret tt) ;;
  for_each funding_list (fun fund =>
    insert_funding (value_or_none fund "title") (value_or_none fund "grant_code")
      (value_or_none fund "funder_name") (value_or_none fund "is_user_defined")
      (value_or_none fund "url") collection_version_id "collection"
      (value_or_none fund "id") ;; ret tt) ;;
  for_each categories (fun category =>
    category_id <- insert_category (value_or_none category "id")
                     (value_or_none category "title") (value_or_none category "parent_id")
                     (value_or_none category "source_id") (value_or_none category "taxonomy") ;;
    insert_collection_category collection_version_id category_id ;; ret tt) ;;
  for_each articles (fun article_id =>
    insert_collection_article collection_version_id article_id ;; ret tt) ;;
  for_each authors (fun author =>
    author_id <- insert_author (value_or_none author "id")
                   (value_or_none author "is_active") (value_or_none author "first_name")
                   (value_or_none author "last_name") (value_or_none author "full_name")
                   (value_or_none author "institution_id") (value_or_none author "job_title")
                   (value_or_none author "is_public") (value_or_none author "url_name")
                   (value_or_none author "orcid_id") VNone ;;
    insert_collection_author collection_version_id author_id ;; ret tt) ;;
  for_each custom_fields (fun field =>
    insert_custom_field (value_or_none field "name") (value_or_none field "value")
      (value_or_none field "default_value") (value_or_none field "max_length")
      (value_or_none field "min_length") (value_or_none field "field_type")
      (value_or_none field "is_mandatory") (value_or_none field "placeholder")
      (value_or_none field "is_multiple") collection_version_id "collection" ;; ret tt) ;;
  for_each private_links (fun link =>
    insert_private_link (value_or_none link "id") (VBool true) VNone
      (value_or_none link "is_active") (value_or_none link "expires_date")
      collection_version_id "collection" ;; ret tt) ;;
  let graph := graph_add (collection_uri, RDF_type, SG "Collection") graph in
  let graph := graph_add (collection_uri, COL "collection_id", Literal collection_id None) graph in
  let graph := graph_add (collection_uri, COL "collection_version_id",
                          Literal collection_version_id None) graph in
  let graph := graph_add (collection_uri, COL "title",
                          Literal (n_title c) (Some XSD_string)) graph in
  let graph := rdf_add graph collection_uri (COL "account_id") (n_account_id c) None in
  let graph := rdf_add graph collection_uri (COL "description") (n_description c) (Some XSD_string) in
  let graph := rdf_add graph collection_uri (COL "funding") (n_funding c) (Some XSD_string) in
  let graph := rdf_add graph collection_uri (COL "doi") (n_doi c) (Some XSD_string) in
  let graph := rdf_add graph collection_uri (COL "handle") (n_handle c) (Some XSD_string) in
  let graph := rdf_add graph collection_uri (COL "url") (n_url c) (Some XSD_string) in
  let graph := rdf_add graph collection_uri (COL "resource_doi") (n_resource_doi c) (Some XSD_string) in
  let graph := rdf_add graph collection_uri (COL "resource_title") (n_resource_title c) (Some XSD_string) in
  let graph := rdf_add graph collection_uri (COL "group_id") (n_group_id c) None in
  let current_time := now in
  let graph := rdf_add graph collection_uri (COL "created_date") (VStr current_time) (Some XSD_string) in
  let graph := rdf_add graph collection_uri (COL "modified_date") (VStr current_time) (Some XSD_string) in
  let graph := rdf_add graph collection_uri (COL "published_date") (VStr "NULL") (Some XSD_string) in
  let graph := rdf_add graph collection_uri (COL "is_public") (VInt 0) None in
  q <- insert_query_for_graph graph ;;
  results <- run_query q None None ;;
  if nonempty results then
    logging_call INFO "Inserted collection %d" [ArgValue collection_id] ;;
    ret collection_id
  else ret VNone.

(* --------------------------------------------------------------------- *)
(** ** Accounts and privileges                                            *)
(* --------------------------------------------------------------------- *)

(** [int (v)] on a native value. *)
Definition py_int (v : value) : outcome Z :=
  match v with
  | VInt n => Return n
  | VBool b => Return (if b then 1 else 0)
  | VStr s => int_of_text s
  | VNone => Raise TypeError
  | VCell _ => Raise TypeError
  end.

(** [account_by_session_token]: [None], or the first row of the answer.
    The inner handler is the arm [except KeyError: return account], which
    can only be reached once [account] is bound. *)
Definition account_by_session_token (session_token : value) : M (option result_row) :=
  q <- query_from_template "account_by_session_token" [("token", session_token)] ;;
  try_except
    (results <- run_query q None None ;;
     account <- first results ;;
     try_except
       (account_id <- subscript account "account_id" ;;
        n <- lift (py_int account_id) ;;
        privileges <- (fun st =>
                         (match dict_get (VInt n) (privileges st) with
                          | Some p => Return p
                          | None => Raise KeyError
                          end, st)) ;;
        match account with
        | Row r => ret (Some (Row (dict_merge r privileges)))
        | Scalar _ => raise TypeError
        end)
       (fun e => match e with KeyError => Some (ret (Some account)) | _ => None end))
    (fun e => match e with IndexError => Some (ret None) | _ => None end).

(** [__may_execute_role] *)
Definition may_execute_role (session_token : value) (task : string) : M value :=
  account <- account_by_session_token session_token ;;
  try_except
    (match account with
     | Some row => subscript row ("may_" +:+ task)
     | None => raise TypeError
     end)
    (fun e =>
       match e with
       | KeyError => Some (ret (VBool false))
       | TypeError => Some (ret (VBool false))
       | _ => None
       end).

Definition may_administer (session_token : value) : M value :=
  may_execute_role session_token "administer".

Definition may_impersonate (session_token : value) : M value :=
  may_execute_role session_token "impersonate".

End Repository.

(* --------------------------------------------------------------------- *)
(** ** Two environments to run the methods in                             *)
(* --------------------------------------------------------------------- *)

Module Env.

(** Decimal numerals: [int (s)] for an optional sign and digits, and
    [int (float (s))] for such a numeral with an optional fraction, which
    truncation drops. *)
Definition all_digits (s : string) : bool :=
  negb (String.eqb s EmptyString)
  && forallb (Datetime.cls_match Datetime.digit) (list_ascii_of_string s).

Definition decimal_int (s : string) : outcome Z :=
  match s with
  | String "-" s' =>
      if all_digits s' then Return (- Datetime.int_digits 0 s') else Raise ValueError
  | _ => if all_digits s then Return (Datetime.int_digits 0 s) else Raise ValueError
  end.

Fixpoint before_dot (s : string) : string * option string :=
  match s with
  | EmptyString => (EmptyString, None)
  | String "." s' => (EmptyString, Some s')
  | String c s' => let '(a, b) := before_dot s' in (String c a, b)
  end.

Definition decimal_trunc (s : string) : outcome Z :=
  match before_dot s with
  | (whole, None) => decimal_int whole
  | (whole, Some fraction) =>
      if all_digits fraction then decimal_int whole else Raise ValueError
  end.

(** Modelled from the spec: the helpers [conv.to_camel],
    [conv.value_or_none] and [rdf.add] are not among the sources; they
    behave here as their uses in database.py need.  [conv.to_camel]:
    "article_category" becomes "ArticleCategory". *)
Fixpoint camel (up : bool) (s : string) : string :=
  match s with
  | EmptyString => EmptyString
  | String "_" s' => camel true s'
  | String c s' => String (if up then upper_char c else c) (camel false s')
  end.

Definition camel_case (s : string) : string := camel true s.

(** [conv.value_or_none] *)
Definition get_or_none (r : record) (key : string) : value :=
  match dict_get key r with Some v => v | None => VNone end.

(** [rdf.add]: the triple is added when the value is set. *)
Definition add_if_set (g : Graph) (s p : term) (v : value) (datatype : option xsd) : Graph :=
  if is_none v then g else graph_add (s, p, Literal v datatype) g.

Definition nth_token (n : nat) : string := "token-" +:+ pretty n.

(** An endpoint that plays a script: each query takes the next answer;
    once the script is over the endpoint cannot be reached.  The endpoint
    keeps the queries that it has received. *)
Record script : Type := Script {
  answers : list (outcome (list raw_row));
  received : list query
}.

Definition play (q : query) (s : script) : outcome (list raw_row) * script :=
  match answers s with
  | answer :: rest => (answer, Script rest (received s ++ [q])%list)
  | [] => (Raise URLError, Script [] (received s ++ [q])%list)
  end.

Definition Scripted : World := {|
  store := script;
  sparql_query := play;
  int_of_float := decimal_trunc;
  int_of_text := decimal_int;
  token_urlsafe := nth_token;
  to_camel := camel_case;
  value_or_none := get_or_none;
  rdf_add := add_if_set
|}.

End Env.

Module TripleStore.

(** Modelled from the spec: the endpoint and the SPARQL templates under
    resources/sparql_templates are not among the sources.  The store holds
    the triples of the state graph.  An insertion adds the triples of the
    graph (§4.7).  The update templates patch the named fields of the
    version that the account owns (§3, lifecycle), "delete item category"
    removes the category links of the version and the deletion of the
    articles of a collection removes its article links (§3: child records
    reference the version's identifier).  Every write answers with one
    row that holds a plain literal, the status message of the store
    (§4.3).  [outage] is the number of coming requests that do not reach
    the store (§4.6, §7). *)
Record t : Type := Store {
  graph : Graph;
  outage : nat
}.

Definition status (text : string) : list raw_row :=
  [[("callret-0", Binding "literal" None text)]].

Definition arg (key : string) (args : dict string value) : value :=
  match dict_get key args with Some v => v | None => VNone end.

(** The term that a parameter denotes once rendered into a template. *)
Definition param_term (v : value) : term := Literal v None.

(** [s] is the version [item_id] of an item of class [prefix], owned by
    [account_id]. *)
Definition is_item (g : Graph) (prefix item_type : string) (item_id account_id : value)
    (s : term) : Prop :=
  (s, RDF_type, SG prefix) ∈ g
  ∧ (s, COL (item_type +:+ "_version_id"), param_term item_id) ∈ g
  ∧ (s, COL "account_id", param_term account_id) ∈ g.

#[global] Instance is_item_dec g prefix item_type item_id account_id s :
  Decision (is_item g prefix item_type item_id account_id s).
Proof. unfold is_item. apply _. Defined.

Definition owned (g : Graph) (prefix item_type : string) (item_id account_id : value)
    : Prop :=
  Exists (fun t => is_item g prefix item_type item_id account_id (subject t)) g.

#[global] Instance owned_dec g prefix item_type item_id account_id :
  Decision (owned g prefix item_type item_id account_id).
Proof. unfold owned. apply _. Defined.

(** [s] is a category link of version [item_id] (to [category_id], when
    one is given). *)
Definition is_category_link (g : Graph) (prefix item_type : string)
    (item_id category_id : value) (s : term) : Prop :=
  (s, RDF_type, SG (prefix +:+ "Category")) ∈ g
  ∧ (s, COL (item_type +:+ "_version_id"), param_term item_id) ∈ g
  ∧ (category_id = VNone ∨ (s, COL "category_id", param_term category_id) ∈ g).

#[global] Instance is_category_link_dec g prefix item_type item_id category_id s :
  Decision (is_category_link g prefix item_type item_id category_id s).
Proof. unfold is_category_link. apply _. Defined.

(** What a read of the categories of a version finds: the categories of
    its links, in the order of their arrival. *)
Definition category_links (g : Graph) (prefix item_type : string) (item_id : value)
    : list term :=
  object <$>
    filter (fun t => predicate t = COL "category_id"
                     ∧ is_category_link g prefix item_type item_id VNone (subject t)) g.

Definition remove_category_links (g : Graph) (prefix item_type : string)
    (item_id account_id category_id : value) : Graph :=
  if decide (owned g prefix item_type item_id account_id) then
    filter (fun t => ¬ is_category_link g prefix item_type item_id category_id (subject t)) g
  else g.

(** [s] links an article to the collection version. *)
Definition is_collection_article (g : Graph) (collection_version_id : value) (s : term)
    : Prop :=
  (s, RDF_type, SG "CollectionArticle") ∈ g
  ∧ (s, COL "collection_version_id", param_term collection_version_id) ∈ g.

#[global] Instance is_collection_article_dec g collection_version_id s :
  Decision (is_collection_article g collection_version_id s).
Proof. unfold is_collection_article. apply _. Defined.

(** What a read of the articles of a collection version finds. *)
Definition collection_articles (g : Graph) (collection_version_id : value) : list term :=
  object <$>
    filter (fun t => predicate t = COL "article_version_id"
                     ∧ is_collection_article g collection_version_id (subject t)) g.

Definition remove_article_links (g : Graph) (collection_version_id account_id : value)
    : Graph :=
  if decide (owned g "Collection" "collection" collection_version_id account_id) then
    filter (fun t => ¬ is_collection_article g collection_version_id (subject t)) g
  else g.

(** The fields that an update template patches: its parameters that are
    set, apart from those that select the version. *)
Definition patched (item_type : string) (args : dict string value) : dict string value :=
  filter (fun kv => (fst kv ∉ ["account_id"; item_type +:+ "_version_id"; "state_graph"])
                    ∧ (snd kv ≠ VNone)) args.

Definition set_field (s : term) (kv : string * value) (g : Graph) : Graph :=
  (filter (fun t => ¬ (subject t = s ∧ predicate t = COL (fst kv))) g
     ++ [(s, COL (fst kv), param_term (snd kv))])%list.

Definition patch (prefix item_type : string) (args : dict string value) (g : Graph)
    : Graph :=
  let item_id := arg (item_type +:+ "_version_id") args in
  let account_id := arg "account_id" args in
  let targets :=
    subject <$> filter (fun t => predicate t = RDF_type ∧ object t = SG prefix
                                 ∧ is_item g prefix item_type item_id account_id (subject t)) g in
  foldr (fun s g => foldr (set_field s) g (patched item_type args)) g targets.

Definition insert (new : Graph) (g : Graph) : Graph :=
  foldl (fun g t => graph_add t g) g new.

Definition execute (q : query) (s : t) : outcome (list raw_row) * t :=
  match outage s with
  | S n => (Raise URLError, Store (graph s) n)
  | O =>
      match q with
      | Insert sg new =>
          (Return (status ("Insert into <" +:+ sg +:+ ">, " +:+ pretty (length new)
                           +:+ " (or less) triples -- done")),
           Store (insert new (graph s)) O)
      | Template name args =>
          let sg := fmt_value (arg "state_graph" args) in
          if decide (name = "update_article") then
            (Return (status ("Modify <" +:+ sg +:+ "> -- done")),
             Store (patch "Article" "article" args (graph s)) O)
          else if decide (name = "update_collection") then
            (Return (status ("Modify <" +:+ sg +:+ "> -- done")),
             Store (patch "Collection" "collection" args (graph s)) O)
          else if decide (name = "delete_item_categories") then
            (Return (status ("Delete from <" +:+ sg +:+ "> -- done")),
             Store (remove_category_links (graph s) (fmt_value (arg "prefix" args))
                      (fmt_value (arg "item_type" args)) (arg "item_id" args)
                      (arg "account_id" args) (arg "category_id" args)) O)
          else if decide (name = "delete_collection_articles") then
            (Return (status ("Delete from <" +:+ sg +:+ "> -- done")),
             Store (remove_article_links (graph s)
                      (arg "collection_version_id" args) (arg "account_id" args)) O)
          else (Raise (Exception "template outside the model"), s)
      end
  end.

Definition world : World := {|
  store := t;
  sparql_query := execute;
  int_of_float := Env.decimal_trunc;
  int_of_text := Env.decimal_int;
  token_urlsafe := Env.nth_token;
  to_camel := Env.camel_case;
  value_or_none := Env.get_or_none;
  rdf_add := Env.add_if_set
|}.

(** No triple of the store has for subject a category link whose number
    is above [n]: the counter of the links is not behind the store. *)
Definition links_below (g : Graph) (item_type : string) (n : Z) : Prop :=
  forall k t, n < k -> t ∈ g ->
    subject t <> ROW (item_type +:+ "_category_link_" +:+ fmt k).

End TripleStore.

(* --------------------------------------------------------------------- *)
(** ** Vocabulary of the properties                                       *)
(* --------------------------------------------------------------------- *)

(** The first alternative that matches [s] on its classes matches the
    whole of [s]. *)
Fixpoint first_full (alts : list (list Datetime.cls)) (s : string) : bool :=
  match alts with
  | [] => false
  | a :: alts' =>
      match Datetime.match_classes a s with
      | Some (m, r) => String.eqb r EmptyString
      | None => first_full alts' s
      end
  end.


(** [g] is matched as a whole by one alternative of a directive. *)
Definition full_match (alts : list (list Datetime.cls)) (g : string) : Prop :=
  Exists (fun a => Datetime.match_classes a g = Some (g, EmptyString)) alts.

(** The pattern that [strptime] accepts for "%Y-%m-%dT%H:%M:%S": the
    groups of year, month, day, hour, minute and second, each in one of
    the forms of its directive (a month, day, hour, minute or second of
    one digit, a day padded with a blank), with "-", "-", "T" (in either
    case), ":" and ":" between them; [t] holds the numbers of the
    groups. *)
Definition timestamp_pattern (body : string) (t : Datetime.datetime) : Prop :=
  exists gY gm gd sep gH gM gS,
    body = gY +:+ "-" +:+ gm +:+ "-" +:+ gd +:+ String sep EmptyString +:+
           gH +:+ ":" +:+ gM +:+ ":" +:+ gS
    /\ (sep = "T"%char \/ sep = "t"%char)
    /\ full_match Datetime.re_Y gY /\ full_match Datetime.re_m gm
    /\ full_match Datetime.re_d gd /\ full_match Datetime.re_H gH
    /\ full_match Datetime.re_M gM /\ full_match Datetime.re_S gS
    /\ t = Datetime.DateTime (Datetime.int_group gY) (Datetime.int_group gm)
                             (Datetime.int_group gd) (Datetime.int_group gH)
                             (Datetime.int_group gM) (Datetime.int_group gS).

(** The pattern YYYY-MM-DDTHH:MM:SS: nineteen characters, a digit where
    the pattern has a letter. *)
Definition strict_classes : list Datetime.cls :=
  let d := Datetime.digit in
  [d; d; d; d; Datetime.Exactly "-"; d; d; Datetime.Exactly "-"; d; d;
   Datetime.Exactly "T"; d; d; Datetime.Exactly ":"; d; d; Datetime.Exactly ":"; d; d].

Definition strict_pattern (body : string) : bool :=
  match Datetime.match_classes strict_classes body with
  | Some (_, rest) => String.eqb rest EmptyString
  | None => false
  end.

(** The claim about the cells of datatype dateTime, for the text [v] of
    one cell: with one trailing "Z" taken off, a text of the pattern
    YYYY-MM-DDTHH:MM:SS that is accepted is written again with a blank
    for the "T", and a text of another pattern fails. *)
Definition dateTime_claim (v : string) : Prop :=
  let body := match last_char v with
              | Some c => if Ascii.eqb c "Z" then drop_last v else v
              | None => v
              end in
  if strict_pattern body
  then forall out, normalize_dateTime v = Return out -> out = replace_char "T"%char " " body
  else exists e, normalize_dateTime v = Raise e.

(** What normalisation makes of one cell of a row: the key stays, and the
    value of a cell of datatype dateTime is the text that
    [normalize_dateTime] returns for it. *)
Definition dateTime_normalised (kc : string * binding) (kv : string * value) : Prop :=
  fst kv = fst kc
  /\ (b_type (snd kc) = "typed-literal" ->
      b_datatype (snd kc) = Some xsd_dateTime ->
      exists s, normalize_dateTime (b_value (snd kc)) = Return s /\ snd kv = VStr s).

(** The records of a log whose format is [format]. *)
Definition count_logged (format : string) (l : list log_record) : nat :=
  length (filter (fun r => log_format r = format) l).

(** A record of the log carries the text of the query. *)
Definition query_logged (q : query) (l : list log_record) : Prop :=
  Exists (fun r => ArgQuery q ∈ log_args r) l.

(** The changes of a flag along a run: from up to down, and back. *)
Fixpoint falls (l : list bool) : nat :=
  match l with
  | true :: (false :: _) as l' => S (falls l')
  | _ :: l' => falls l'
  | [] => O
  end.

Fixpoint rises (l : list bool) : nat :=
  match l with
  | false :: (true :: _) as l' => S (rises l')
  | _ :: l' => rises l'
  | [] => O
  end.

(** One call of [__run_query] with its arguments. *)
Record call : Type := Call {
  call_query : query;
  call_cache_key_string : option query;
  call_prefix : option string
}.

(** The states of the object along a sequence of calls of [__run_query],
    the first state included. *)
Fixpoint states `{W : World} (calls : list call) (st : SparqlInterface)
    : list SparqlInterface :=
  match calls with
  | [] => [st]
  | c :: calls' =>
      st :: states calls'
              (snd (run_query (call_query c) (call_cache_key_string c) (call_prefix c) st))
  end.

(** The state after the run. *)
Fixpoint final_state `{W : World} (calls : list call) (st : SparqlInterface)
    : SparqlInterface :=
  match calls with
  | [] => st
  | c :: calls' =>
      final_state calls'
        (snd (run_query (call_query c) (call_cache_key_string c) (call_prefix c) st))
  end.

(** [st'] is [st] with the records [extra] added to the log. *)
Definition logs_more `{W : World} (st st' : SparqlInterface) (extra : list log_record) : Prop :=
  st' = set_logging (logging st ++ extra)%list st.

(** The records that normalisation writes. *)
Definition normalizer_record (r : log_record) : Prop :=
  log_format r = "RDF store: %s" \/ log_format r = "Literal: %s"
  \/ log_format r = "Not a typed-literal: %s".


(** The object after the arm of the handler of [__run_query] for the
    exception [e] of the query [q] has run. *)
Definition handled `{W : World} (q : query) (e : exn) (st : SparqlInterface)
    : SparqlInterface :=
  match e with
  | URLError =>
      if sparql_is_up st
      then set_sparql_is_up false (set_logging (logging st ++ [Log ERROR msg_down []])%list st)
      else st
  | QueryBadFormed =>
      set_logging (logging st ++ [Log ERROR "Badly formed SPARQL query:" [];
                                  Log INFO "Query:\n---\n%s\n---" [ArgQuery q]])%list st
  | _ =>
      set_logging (logging st ++ [Log ERROR "SPARQL query failed." [];
                                  Log ERROR "Exception: %s" [ArgExn e];
                                  Log INFO "Query:\n---\n%s\n---" [ArgQuery q]])%list st
  end.

(** The object after a query has been answered and its rows normalised:
    the result is cached when a key was given, and a connection that was
    down is reported up. *)
Definition answered `{W : World} (cache_key_string : option query) (prefix : option string)
    (results : list result_row) (st : SparqlInterface) : SparqlInterface :=
  let st1 := match cache_key_string with
             | Some s =>
                 set_cache (CacheLayer.cache_value prefix (CacheLayer.make_key s) results
                              (cache st)) st
             | None => st
             end in
  if sparql_is_up st1 then st1
  else set_sparql_is_up true (set_logging (logging st1 ++ [Log INFO msg_up []])%list st1).

(** The cache holds nothing for the call. *)
Definition cache_miss `{W : World} (cache_key_string : option query) (prefix : option string)
    (st : SparqlInterface) : Prop :=
  match cache_key_string with
  | Some s => CacheLayer.cached_value prefix (CacheLayer.make_key s) (cache st)
  | None => None
  end = None.

(** The claim that every failed query is answered by the empty list and
    has its text logged. *)
Definition failure_logs_query `{W : World} (q : query) (cache_key_string : option query)
    (prefix : option string) (st : SparqlInterface) : Prop :=
  forall e s',
    cache_miss cache_key_string prefix st ->
    sparql_query q (sparql st) = (Raise e, s') ->
    fst (run_query q cache_key_string prefix st) = Return []
    /\ exists extra,
         logging (snd (run_query q cache_key_string prefix st)) = (logging st ++ extra)%list
         /\ query_logged q extra.

(** The query that [__highest_id] sends for a kind. *)
Definition highest_id_query `{W : World} (item_type : string) (st : SparqlInterface)
    : query :=
  Template "highest_id"
    [("item_type", VStr (to_camel item_type)); ("state_graph", VStr (state_graph st))].

(** The endpoint cannot be reached, now and for the queries to come. *)
Definition unreachable `{W : World} (s : store) : Prop :=
  exists P : store -> Prop,
    P s /\ forall q s0, P s0 ->
             fst (sparql_query q s0) = Raise URLError /\ P (snd (sparql_query q s0)).

(** The endpoint has no row for any query, now and for the queries to
    come: it answers without a row, or it fails. *)
Definition barren `{W : World} (s : store) : Prop :=
  exists P : store -> Prop,
    P s /\ forall q s0, P s0 ->
             (fst (sparql_query q s0) = Return [] \/ exists e, fst (sparql_query q s0) = Raise e)
             /\ P (snd (sparql_query q s0)).

(** The claim about start-up, on an endpoint that plays a script.  When
    the endpoint cannot be reached (its script is empty): no exception,
    and the unknown state of the database raised only once every kind has
    been asked for.  When the store has no row for any kind (it cannot be
    reached, or it answers every kind without a row): a warning and unset
    counters. *)
Definition startup_claim (werkzeug_run_main : bool)
    (st : SparqlInterface (W := Env.Scripted)) : Prop :=
  let r := load_state (W := Env.Scripted) werkzeug_run_main st in
  let kinds := IdGenerator.keys (ids st) in
  (Env.answers (sparql st) = [] ->
     fst r = Return tt
     /\ (fst r = Raise UnknownDatabaseState ->
         forall item, item ∈ kinds ->
           highest_id_query (W := Env.Scripted) item st ∈ Env.received (sparql (snd r))))
  /\ (Env.answers (sparql st) = []
      \/ Env.answers (sparql st) = repeat (Return []) (length kinds) ->
      fst r = Return tt
      /\ Exists (fun rec => log_level rec = WARNING) (logging (snd r))
      /\ forall item, item ∈ kinds -> dict_get item (ids (snd r)) = Some VNone).

(** The privileges hold no entry for the identifier of the account of the
    row, neither under the value of its "account_id" nor under the integer
    that the value reads as. *)
Definition no_entry `{W : World} (account : record) (st : SparqlInterface) : Prop :=
  forall v, dict_get "account_id" account = Some v ->
    dict_get v (privileges st) = None
    /\ forall n, py_int v = Return n -> dict_get (VInt n) (privileges st) = None.

(** The claim about accounts without privileges, for one session token on
    the object [st]: [None] when the store has no row; the row as it is,
    and nothing raised, when the privileges hold no entry for its account;
    and [False] from [may_administer] and [may_impersonate] in both
    cases. *)
Definition no_privileges_claim `{W : World} (session_token : value)
    (st : SparqlInterface) : Prop :=
  let q := Template "account_by_session_token"
             [("token", session_token); ("state_graph", VStr (state_graph st))] in
  let r := run_query q None None st in
  (fst r = Return [] ->
     fst (account_by_session_token session_token st) = Return None
     /\ fst (may_administer session_token st) = Return (VBool false)
     /\ fst (may_impersonate session_token st) = Return (VBool false))
  /\ (forall account rest,
        fst r = Return (Row account :: rest) ->
        no_entry account st ->
        fst (account_by_session_token session_token st) = Return (Some (Row account))
        /\ fst (may_administer session_token st) = Return (VBool false)
        /\ fst (may_impersonate session_token st) = Return (VBool false)).

(** The triples that say what a subject is and what it is linked to: no
    update template patches their predicates. *)
Definition protected (t : triple) : Prop :=
  predicate t ∈ [RDF_type; COL "category_id"; COL "article_version_id";
                 COL "collection_version_id"; COL "account_id"].

(** A field whose predicate is not one of those. *)
Definition plain_field (f : string) : Prop :=
  COL f ∉ [RDF_type; COL "category_id"; COL "article_version_id";
           COL "collection_version_id"; COL "account_id"].

(** The two types of item that carry categories. *)
Definition item_type_ok (item_type : string) : Prop :=
  item_type = "article" \/ item_type = "collection".

#[global] Instance protected_dec t : Decision (protected t).
Proof. unfold protected. apply _. Defined.

(** Two graphs with the same protected triples. *)
Definition same_protected (g g' : Graph) : Prop :=
  filter protected g' = filter protected g.

(** The graph that [insert_item_category] builds for an article: the link
    [link_id] of the version [item_id] to [category_id]. *)
Definition article_category_link (link_id : Z) (item_id category_id : value)
    : list triple :=
  let link_uri := ROW ("article_category_link_" +:+ fmt link_id) in
  [(link_uri, RDF_type, SG "ArticleCategory");
   (link_uri, COL "id", Lit (VInt link_id) (Some XSD_integer));
   (link_uri, COL "category_id", Lit category_id (Some XSD_integer));
   (link_uri, COL "article_version_id", Lit item_id (Some XSD_integer))].

(** A subject that the store does not know yet. *)
Definition unknown_subject (s : term) (g : list triple) : Prop :=
  forall t, t ∈ g -> subject t <> s.

(** The parameters that [update_article] renders its template with, the
    state graph included. *)
Definition update_article_args (article_version_id account_id : value)
    (u : article_update) (now : string) (sg : string) : dict string value :=
  [("account_id", account_id);
   ("article_version_id", article_version_id);
   ("contributors", a_contributors u);
   ("data_link", a_data_link u);
   ("defined_type", a_defined_type u);
   ("defined_type_name", a_defined_type_name u);
   ("derived_from", a_derived_from u);
   ("description", a_description u);
   ("format", a_mimetype u);
   ("geolocation", a_geolocation u);
   ("has_linked_file", a_has_linked_file u);
   ("language", a_language u);
   ("latitude", a_latitude u);
   ("license_id", a_license_id u);
   ("group_id", a_group_id u);
   ("license_remarks", a_license_remarks u);
   ("longitude", a_longitude u);
   ("modified_date", VStr now);
   ("organizations", a_organizations u);
   ("publisher", a_publisher u);
   ("resource_doi", a_resource_doi u);
   ("resource_title", a_resource_title u);
   ("same_as", a_same_as u);
   ("time_coverage", a_time_coverage u);
   ("title", a_title u);
   ("state_graph", VStr sg)].

(** The parameters that [update_collection] renders its template with. *)
Definition update_collection_args (collection_version_id account_id : value)
    (u : collection_update) (now : string) (sg : string) : dict string value :=
  [("account_id", account_id);
   ("collection_version_id", collection_version_id);
   ("contributors", c_contributors u);
   ("description", c_description u);
   ("geolocation", c_geolocation u);
   ("language", c_language u);
   ("latitude", c_latitude u);
   ("group_id", c_group_id u);
   ("longitude", c_longitude u);
   ("modified_date", VStr now);
   ("organizations", c_organizations u);
   ("publisher", c_publisher u);
   ("resource_doi", c_resource_doi u);
   ("resource_title", c_resource_title u);
   ("time_coverage", c_time_coverage u);
   ("title", c_title u);
   ("state_graph", VStr sg)].

(** The object once the two prefixes of an update have been invalidated. *)
Definition invalidated `{W : World} (broad narrow : string) (st : SparqlInterface)
    : SparqlInterface :=
  set_cache (CacheLayer.invalidate_by_prefix narrow
               (CacheLayer.invalidate_by_prefix broad (cache st))) st.

(** Two stores in which every version has the same categories and every
    collection version the same articles. *)
Definition same_links (s s' : TripleStore.t) : Prop :=
  (forall prefix item_type version, item_type_ok item_type ->
     TripleStore.category_links (TripleStore.graph s') prefix item_type version
     = TripleStore.category_links (TripleStore.graph s) prefix item_type version)
  /\ (forall version,
        TripleStore.collection_articles (TripleStore.graph s') version
        = TripleStore.collection_articles (TripleStore.graph s) version).

(** A store of the scenario of §8: version 7 of an article of account 2,
    in the categories 1 and 2. *)
Definition article_in_two_categories : TripleStore.t :=
  TripleStore.Store
    ([(ROW "article_7", RDF_type, SG "Article");
      (ROW "article_7", COL "article_version_id", Lit (VInt 7) (Some XSD_integer));
      (ROW "article_7", COL "account_id", Lit (VInt 2) (Some XSD_integer));
      (ROW "article_7", COL "title", Lit (VStr "Measurements") (Some XSD_string))]
     ++ article_category_link 1 (VInt 7) (VInt 1)
     ++ article_category_link 2 (VInt 7) (VInt 2))%list
    O.

(** The claim about the categories of an article, on the triple store:
    when [update_article] is given a list of categories that is not empty
    and succeeds, that is, returns an answer that is not empty, a read of
    the categories of the version finds the listed categories and no
    other. *)
Definition replaces_categories_claim (article_version_id : Z) (account_id : value)
    (u : article_update) (categories : list value) (now : string)
    (st : SparqlInterface (W := TripleStore.world)) : Prop :=
  let r := update_article (W := TripleStore.world) (VInt article_version_id) account_id u
             (Some categories) now st in
  categories <> [] ->
  (exists results, fst r = Return results /\ results <> []) ->
  forall c,
    c ∈ TripleStore.category_links (TripleStore.graph (sparql (snd r))) "Article" "article"
          (VInt article_version_id)
    <-> c ∈ (fun c => Lit c (Some XSD_integer)) <$> categories.

(** Every subject of the graph is of one class. *)
Definition one_class (g : list triple) : Prop :=
  forall s o1 o2, (s, RDF_type, o1) ∈ g -> (s, RDF_type, o2) ∈ g -> o1 = o2.

(** The same, as a test on the triples. *)
Definition one_class_test (g : list triple) : Prop :=
  Forall (fun t => Forall (fun t' =>
            predicate t = RDF_type -> predicate t' = RDF_type ->
            subject t = subject t' -> object t = object t') g) g.

#[global] Instance one_class_test_dec g : Decision (one_class_test g).
Proof. unfold one_class_test. apply _. Defined.

(** No triple of the store has for subject a link of a collection to an
    article whose number is above [n]. *)
Definition articles_below (g : list triple) (n : Z) : Prop :=
  forall k t, n < k -> t ∈ g -> subject t <> ROW ("collection_article_" +:+ fmt k).

(** The graph that [insert_item_category] builds for a collection. *)
Definition collection_category_link (link_id : Z) (item_id category_id : value)
    : list triple :=
  let link_uri := ROW ("collection_category_link_" +:+ fmt link_id) in
  [(link_uri, RDF_type, SG "CollectionCategory");
   (link_uri, COL "id", Lit (VInt link_id) (Some XSD_integer));
   (link_uri, COL "category_id", Lit category_id (Some XSD_integer));
   (link_uri, COL "collection_version_id", Lit item_id (Some XSD_integer))].

(** The graph that [insert_collection_article] builds. *)
Definition collection_article_link (link_id : Z)
    (collection_version_id article_version_id : value) : list triple :=
  let link_uri := ROW ("collection_article_" +:+ fmt link_id) in
  [(link_uri, RDF_type, SG "CollectionArticle");
   (link_uri, COL "id", Lit (VInt link_id) (Some XSD_integer));
   (link_uri, COL "collection_version_id", Literal collection_version_id None);
   (link_uri, COL "article_version_id", Literal article_version_id None)].

(** A store with the version 9 of a collection of account 2, in the
    category 4 and holding the article 7. *)
Definition collection_with_links : TripleStore.t :=
  TripleStore.Store
    ([(ROW "collection_9", RDF_type, SG "Collection");
      (ROW "collection_9", COL "collection_version_id", Lit (VInt 9) (Some XSD_integer));
      (ROW "collection_9", COL "account_id", Lit (VInt 2) (Some XSD_integer))]
     ++ collection_category_link 1 (VInt 9) (VInt 4)
     ++ collection_article_link 1 (VInt 9) (VInt 7))%list
    O.

(* --------------------------------------------------------------------- *)
(** ** Vocabulary of the further properties                               *)
(* --------------------------------------------------------------------- *)

(** The endpoint answers the queries of [__highest_id] for the kinds
    [items], asked in this order, each by one row whose "id" is an integer
    cell that reads as [latest item]. *)
Fixpoint reports `{W : World} (latest : string -> Z) (sg : string) (items : list string)
    (s : store) : Prop :=
  match items with
  | [] => True
  | item :: rest =>
      exists text s1,
        sparql_query (Template "highest_id"
                        [("item_type", VStr (to_camel item)); ("state_graph", VStr sg)]) s
        = (Return [[("id", Binding "typed-literal" (Some xsd_integer) text)]], s1)
        /\ int_of_float text = Return (latest item)
        /\ reports latest sg rest s1
  end.

(** The end of the methods that insert one record: the graph is sent, and
    the identifier is returned when the answer holds a row. *)
Definition stored `{W : World} (graph : list triple) (v : value) : M value :=
  q <- insert_query_for_graph graph ;;
  results <- run_query q None None ;;
  if nonempty results then ret v else ret VNone.

(** The call [op] draws the identifier after [n] from the counter [k] and
    from no other, whether the record is stored or not; it returns the
    identifier or [None], and [None] when the endpoint fails. *)
Definition draws_one `{W : World} (k : string) (n : Z) (op : M value)
    (st : SparqlInterface) : Prop :=
  ids (snd (op st)) = dict_set k (VInt (n + 1)) (ids st)
  /\ (fst (op st) = Return (VInt (n + 1)) \/ fst (op st) = Return VNone)
  /\ ((forall q, exists e, fst (sparql_query q (sparql st)) = Raise e) ->
      fst (op st) = Return VNone).

(* --------------------------------------------------------------------- *)
(** ** Read operations that look one value up                             *)
(* --------------------------------------------------------------------- *)

Section Lookups.
Context `{W : World}.

(** [dataset_storage_used] *)
Definition dataset_storage_used (container_uri : value) : M value :=
  q <- query_from_template "dataset_storage_used" [("container_uri", container_uri)] ;;
  results <- run_query q (Some q) (Some (fmt_value container_uri +:+ "_dataset")) ;;
  try_except
    (row <- first results ;;
     subscript row "bytes")
    (fun e =>
       match e with
       | IndexError => Some (ret (VInt 0))
       | KeyError => Some (ret (VInt 0))
       | _ => None
       end).

(** [collections_article_count] *)
Definition collections_article_count (collection_version_id : value) : M value :=
  if is_none collection_version_id then ret (VInt 0)
  else
    q <- query_from_template "collection_articles_count"
           [("collection_version_id", collection_version_id)] ;;
    results <- run_query q None None ;;
    try_except
      (row <- first results ;;
       subscript row "articles")
      (fun e => match e with KeyError => Some (ret (VInt 0)) | _ => None end).

(** [category_by_id] *)
Definition category_by_id (category_id : value) : M (option result_row) :=
  q <- query_from_template "category_by_id" [("category_id", category_id)] ;;
  try_except
    (results <- run_query q (Some q) (Some "category") ;;
     row <- first results ;;
     ret (Some row))
    (fun e => match e with IndexError => Some (ret None) | _ => None end).

(** [account_id_by_orcid] *)
Definition account_id_by_orcid (orcid : value) : M value :=
  q <- query_from_template "account_id_by_orcid" [("orcid", orcid)] ;;
  try_except
    (results <- run_query q None None ;;
     row <- first results ;;
     subscript row "account_id")
    (fun e =>
       match e with
       | IndexError => Some (ret VNone)
       | KeyError => Some (ret VNone)
       | _ => None
       end).

(** [int (float (v))] on a native value.  An integer goes through the
    nearest float, as its decimal text does. *)
Definition py_int_float (v : value) : outcome Z :=
  match v with
  | VInt n => int_of_float (fmt n)
  | VBool b => Return (if b then 1 else 0)
  | VStr s => int_of_float s
  | VNone => Raise TypeError
  | VCell _ => Raise TypeError
  end.

(** The loop of [account_storage_used] over the rows that remain. *)
Fixpoint sum_bytes (files : list result_row) (number_of_bytes : Z) : M Z :=
  match files with
  | [] => ret number_of_bytes
  | entry :: files' =>
      v <- subscript entry "bytes" ;;
      n <- lift (py_int_float v) ;;
      sum_bytes files' (number_of_bytes + n)
  end.

(** [account_storage_used] *)
Definition account_storage_used (account_id : value) : M value :=
  q <- query_from_template "account_storage_used" [("account_id", account_id)] ;;
  files <- run_query q (Some q) (Some "storage") ;;
  try_except
    (n <- sum_bytes files 0 ;;
     ret (VInt n))
    (fun e =>
       match e with
       | IndexError => Some (ret (VInt 0))
       | KeyError => Some (ret (VInt 0))
       | _ => None
       end).

(** [accounts] *)
Definition accounts (account_id : value) : M (list result_row) :=
  q <- query_from_template "accounts" [("account_id", account_id)] ;;
  run_query q (Some q) (Some "accounts").

(** [is_depositor] and [is_logged_in] *)
Definition is_depositor (session_token : value) : M value :=
  account <- account_by_session_token session_token ;;
  ret (VBool (match account with Some _ => true | None => false end)).

Definition is_logged_in (session_token : value) : M value :=
  account <- account_by_session_token session_token ;;
  ret (VBool (match account with Some _ => true | None => false end)).

End Lookups.

(** The endpoint has no row for any query: it fails, or it answers
    without a row. *)
Definition silent `{W : World} (s : store) : Prop :=
  forall q, (exists e, fst (sparql_query q s) = Raise e)
            \/ fst (sparql_query q s) = Return [].

(** The cache holds no value at all. *)
Definition nothing_cached `{W : World} (st : SparqlInterface) : Prop :=
  forall prefix key, CacheLayer.cached_value prefix key (cache st) = None.

(** The row holds the integer [n] under "bytes", and [n] is read back
    from its float. *)
Definition holds_bytes `{W : World} (row : result_row) (n : Z) : Prop :=
  exists r, row = Row r /\ dict_get "bytes" r = Some (VInt n)
            /\ int_of_float (fmt n) = Return n.

(** The text holds no backslash. *)
Definition backslash_free (s : string) : bool :=
  forallb (fun c => negb (Ascii.eqb c (ascii_of_nat 92))) (list_ascii_of_string s).

(* --------------------------------------------------------------------- *)
(** ** Accounts                                                           *)
(* --------------------------------------------------------------------- *)

Section AccountWrites.
Context `{W : World}.

(** [delete_account_categories] *)
Definition delete_account_categories (account_id category_id : value)
    : M (list result_row) :=
  q <- query_from_template "delete_account_categories"
         [("account_id", account_id); ("category_id", category_id)] ;;
  run_query q None None.

(** [insert_account_category] *)
Definition insert_account_category (account_id category_id : value) : M value :=
  link_id <- ids_next_id "account_category" ;;
  let link_uri := ROW ("account_category_link_" +:+ fmt link_id) in
  let graph := graph_add (link_uri, RDF_type, SG "AccountCategory") [] in
  let graph := graph_add (link_uri, COL "id", Literal (VInt link_id) (Some XSD_integer)) graph in
  let graph := graph_add (link_uri, COL "category_id", Literal category_id (Some XSD_integer)) graph in
  let graph := graph_add (link_uri, COL "account_id", Literal account_id (Some XSD_integer)) graph in
  q <- insert_query_for_graph graph ;;
  results <- run_query q None None ;;
  if nonempty results then ret (VInt link_id) else ret VNone.

(** The optional settings of [update_account], one field per keyword
    argument. *)
Record account_update : Type := AccountUpdate {
  u_active : value; u_email : value; u_job_title : value; u_first_name : value;
  u_last_name : value; u_institution_user_id : value; u_institution_id : value;
  u_pending_quota_request : value; u_used_quota_public : value;
  u_used_quota_private : value; u_used_quota : value; u_maximum_file_size : value;
  u_quota : value; u_modified_date : value; u_created_date : value;
  u_group_id : value; u_location : value; u_biography : value
}.

(** All the keyword arguments at their default. *)
Definition no_account_update : account_update :=
  AccountUpdate VNone VNone VNone VNone VNone VNone VNone VNone VNone VNone VNone
                VNone VNone VNone VNone VNone VNone VNone.

(** [update_account]; [now] is the text of [datetime.now ()] in the format
    "%Y-%m-%d %H:%M:%S". *)
Definition update_account (account_id : value) (u : account_update)
    (categories : option (list value)) (now : string) : M (list result_row) :=
  let modified_date :=
    if is_none (u_modified_date u) then VStr now else u_modified_date u in
  q <- query_from_template "update_account"
         [("account_id", account_id);
          ("is_active", u_active u);
          ("job_title", u_job_title u);
          ("email", u_email u);
          ("first_name", u_first_name u);
          ("last_name", u_last_name u);
          ("location", u_location u);
          ("biography", u_biography u);
          ("institution_user_id", u_institution_user_id u);
          ("institution_id", u_institution_id u);
          ("pending_quota_request", u_pending_quota_request u);
          ("used_quota_public", u_used_quota_public u);
          ("used_quota_private", u_used_quota_private u);
          ("used_quota", u_used_quota u);
          ("maximum_file_size", u_maximum_file_size u);
          ("quota", u_quota u);
          ("modified_date", modified_date);
          ("created_date", u_created_date u);
          ("group_id", u_group_id u)] ;;
  results <- run_query q None None ;;
  (if nonempty results && given categories then
     cache_invalidate_by_prefix "accounts" ;;
     delete_account_categories account_id VNone ;;
     for_each (or_empty categories) (fun category =>
       insert_account_category account_id category ;; ret tt)
   else ret tt) ;;
  ret results.

End AccountWrites.

(* --------------------------------------------------------------------- *)
(** ** The privileges of the configuration file (djehuty/web/ui.py)       *)
(* --------------------------------------------------------------------- *)

(** An element of the parsed configuration: its tag, its attributes, its
    text when it has one, and its children in the order of the file. *)
#[local] Unset Elimination Schemes.
Inductive element : Type :=
| Element (tag : string) (attrib : dict string string) (text : option string)
          (children : list element).
#[local] Set Elimination Schemes.

Definition e_tag (e : element) : string :=
  match e with Element tag _ _ _ => tag end.
Definition e_attrib (e : element) : dict string string :=
  match e with Element _ attrib _ _ => attrib end.
Definition e_text (e : element) : option string :=
  match e with Element _ _ text _ => text end.
Definition e_children (e : element) : list element :=
  match e with Element _ _ _ children => children end.

(** [e.find (path)] for a path that is a plain tag: the first child with
    this tag. *)
Definition e_find (e : element) (path : string) : option element :=
  List.find (fun c => String.eqb (e_tag c) path) (e_children e).

(** The truth value of [e] in a condition: an element is true when it has
    a child, [None] is false. *)
Definition e_truth (e : option element) : bool :=
  match e with
  | Some e => nonempty (e_children e)
  | None => false
  end.

(** [config_value] *)
Definition config_value (xml_root : option element) (path : string)
    (command_line fallback : value) : value :=
  if truthy command_line then command_line
  else
    match (if e_truth xml_root
           then match xml_root with Some root => e_find root path | None => None end
           else None) with
    | Some item => match e_text item with Some text => VStr text | None => VNone end
    | None => fallback
    end.

Section Configuration.
Context `{W : World}.

Definition set_privileges (p : dict value record) (st : SparqlInterface)
    : SparqlInterface :=
  Interface (ids st) (state_graph st) p (cache st) (sparql st)
            (sparql_is_up st) (logging st) (drawn st).

(** [bool (int (config_value (account, path, None, False)))] *)
Definition privilege_flag (account : element) (path : string) : M value :=
  n <- lift (py_int (config_value (Some account) path VNone (VBool false))) ;;
  ret (VBool (negb (n =? 0))).

(** The body of the loop of [read_privilege_configuration]. *)
Definition read_account_privileges (account : element) : M unit :=
  try_except
    (email <- match dict_get "email" (e_attrib account) with
              | Some email => ret email
              | None => raise KeyError
              end ;;
     let orcid := match dict_get "orcid" (e_attrib account) with
                  | Some orcid => VStr orcid
                  | None => VNone
                  end in
     may_administer <- privilege_flag account "may-administer" ;;
     may_impersonate <- privilege_flag account "may-impersonate" ;;
     may_review <- privilege_flag account "may-review" ;;
     may_review_quotas <- privilege_flag account "may-review-quotas" ;;
     modify (fun st =>
       set_privileges
         (dict_set (VStr email)
            [("may_administer", may_administer);
             ("may_impersonate", may_impersonate);
             ("may_review", may_review);
             ("may_review_quotas", may_review_quotas);
             ("orcid", orcid)]
            (privileges st)) st))
    (fun e =>
       match e with
       | KeyError =>
           Some (logging_call ERROR "Missing %s attribute for a privilege configuration."
                   [ArgExn KeyError])
       | ValueError =>
           Some (logging_call ERROR "Privilege configuration error: %s" [ArgExn ValueError])
       | _ => None
       end).

(** [read_privilege_configuration] on the object [server.db]. *)
Definition read_privilege_configuration (xml_root : element) : M unit :=
  let privileges := e_find xml_root "privileges" in
  if negb (e_truth privileges) then ret tt
  else for_each (match privileges with Some p => e_children p | None => [] end)
                read_account_privileges.

End Configuration.

(** Every key of the privileges is a text. *)
Definition keyed_by_text (p : dict value record) : Prop :=
  Forall (fun kv => exists s, fst kv = VStr s) p.

(** A configuration whose element "privileges" holds the [accounts]. *)
Definition privileges_root (accounts : list element) : element :=
  Element "djehuty" [] None [Element "privileges" [] None accounts].

(* --------------------------------------------------------------------- *)
(** ** Endpoints that stop answering                                      *)
(* --------------------------------------------------------------------- *)

(** The endpoint fails on every query. *)
Definition failing `{W : World} (s : store) : Prop :=
  forall q, exists e, fst (sparql_query q s) = Raise e.

(** The endpoint answers the next query, whatever it is, by rows that are
    normalised to a list that is not empty, and cannot be reached from
    then on. *)
Definition stores_once `{W : World} (s : store) : Prop :=
  forall q, exists rows s1,
    sparql_query q s = (Return rows, s1)
    /\ (forall st, exists results,
          fst (map_list normalize_binding rows st) = Return results
          /\ nonempty results = true)
    /\ unreachable s1.

(* --------------------------------------------------------------------- *)
(** ** The filters of [opendap_to_doi]                                    *)
(* --------------------------------------------------------------------- *)

(** The argument [startswith] of [opendap_to_doi]: [None], a list of
    texts, a text, or a value of another type, of which only the name of
    the type is used. *)
Inductive startswith_arg : Type :=
| StartsNone
| StartsList (items : list string)
| StartsText (text : string)
| StartsOther (type_name : string).

(** The loop over [startswith[1:]]. *)
Definition starts_alternatives (filters : string) (items : list string) : string :=
  fold_left (fun filters filter_item =>
               filters +:+ " OR (STRSTARTS(STR(?download_url), " +:+ dq +:+ filter_item
                       +:+ dq +:+ "))")
            items filters.

(** [opendap_to_doi] *)
Definition opendap_to_doi `{W : World} (startswith : startswith_arg)
    (endswith : option string) : M (list result_row) :=
  let filters := "" in
  filters <- match startswith with
             | StartsNone => ret filters
             | StartsList items =>
                 item <- first items ;;
                 let filters := filters +:+ "FILTER ((STRSTARTS(STR(?download_url), "
                                        +:+ dq +:+ item +:+ dq +:+ "))" in
                 let filters := starts_alternatives filters (tail items) in
                 ret (filters +:+ ")" +:+ nl)
             | StartsText text =>
                 ret (filters +:+ "FILTER (STRSTARTS(STR(?download_url), "
                              +:+ dq +:+ text +:+ dq +:+ "))" +:+ nl)
             | StartsOther type_name =>
                 logging_call ERROR "startswith of type %s is not supported"
                   [ArgStr type_name] ;;
                 ret filters
             end ;;
  let filters := match endswith with
                 | Some endswith =>
                     filters +:+ "FILTER (STRENDS(STR(?download_url), "
                             +:+ dq +:+ endswith +:+ dq +:+ "))" +:+ nl
                 | None => filters
                 end in
  q <- query_from_template "opendap_to_doi" [("filters", VStr filters)] ;;
  run_query q None None.

(** The text holds no backslash and no double quote. *)
Definition plain (s : string) : bool :=
  forallb (fun c => negb (Ascii.eqb c (ascii_of_nat 92)) && negb (Ascii.eqb c (ascii_of_nat 34)))
          (list_ascii_of_string s).

(** The query that [opendap_to_doi] sends for the text [filters]. *)
Definition opendap_query `{W : World} (filters : string) (st : SparqlInterface) : query :=
  Template "opendap_to_doi" [("filters", VStr filters); ("state_graph", VStr (state_graph st))].

(* ===================================================================== *)
(** * Part II.  Properties                                               *)
(* ===================================================================== *)

(* --------------------------------------------------------------------- *)
(** ** Timestamps                                                         *)
(* --------------------------------------------------------------------- *)

Section DatetimeFacts.
Import Datetime.

Lemma range_forallb (f : Z -> bool) (lo : Z) (n : nat) :
  forallb f (map (fun i => lo + Z.of_nat i) (seq 0 n)) = true ->
  forall z, lo <= z < lo + Z.of_nat n -> f z = true.
Proof.
  intros Hall z Hz.
  rewrite forallb_forall in Hall. apply Hall.
  apply in_map_iff. exists (Z.to_nat (z - lo)). split; [lia|].
  apply in_seq. lia.
Qed.

Lemma match_classes_prefix ks s1 rest :
  (length ks <= String.length s1)%nat ->
  match_classes ks (s1 +:+ rest) =
    match match_classes ks s1 with
    | Some (m, r1) => Some (m, r1 +:+ rest)
    | None => None
    end.
Proof.
  revert s1. induction ks as [|k ks IH]; intros s1 Hlen; simpl.
  - reflexivity.
  - destruct s1 as [|c s1]; simpl in *; [lia|].
    destruct (cls_match k c); [|reflexivity].
    rewrite IH by lia.
    destruct (match_classes ks s1) as [[m r1]|]; reflexivity.
Qed.

Lemma match_classes_split ks s m r :
  match_classes ks s = Some (m, r) -> s = m +:+ r.
Proof.
  revert s m r. induction ks as [|k ks IH]; intros s m r; simpl.
  - intros [= <- <-]. reflexivity.
  - destruct s as [|c s]; [discriminate|].
    destruct (cls_match k c); [|discriminate].
    destruct (match_classes ks s) as [[m' r']|] eqn:E; [|discriminate].
    intros [= <- <-]. change (String c s = String c (m' +:+ r')).
    f_equal. apply (IH _ _ _ E).
Qed.

Lemma string_app_nil_r (s : string) : s +:+ "" = s.
Proof.
  induction s as [|c s IH]; [reflexivity|].
  change (String c (s +:+ "") = String c s). congruence.
Qed.

Lemma first_full_hit {R} alts (k : string -> option R) s rest r :
  first_full alts s = true ->
  Forall (fun a => (length a <= String.length s)%nat) alts ->
  k rest = Some r ->
  first_alt alts k (s +:+ rest) = Some (s, r).
Proof.
  intros Hfull Hlen Hk.
  induction alts as [|a alts IH]; simpl in *; [discriminate|].
  inversion Hlen as [|? ? Ha Hl]; subst.
  rewrite match_classes_prefix by exact Ha.
  destruct (match_classes a s) as [[m r1]|] eqn:E.
  - apply String.eqb_eq in Hfull. subst r1.
    apply match_classes_split in E. rewrite string_app_nil_r in E. subst m.
    change ("" +:+ rest) with rest. rewrite Hk. reflexivity.
  - apply IH; assumption.
Qed.

Lemma digit_char_ok d : 0 <= d <= 9 ->
  cls_match digit (digit_char d) = true /\ digit_value (digit_char d) = d
  /\ Ascii.eqb (digit_char d) " " = false.
Proof.
  intros Hd.
  pose proof (range_forallb
    (fun d => cls_match digit (digit_char d) && (digit_value (digit_char d) =? d)
              && negb (Ascii.eqb (digit_char d) " ")) 0 10
    ltac:(vm_compute; reflexivity) d ltac:(lia)) as H.
  apply andb_true_iff in H as [H H3]. apply andb_true_iff in H as [H1 H2].
  apply Z.eqb_eq in H2. apply negb_true_iff in H3. auto.
Qed.

Lemma int_group_nonblank c s :
  Ascii.eqb c " " = false -> int_group (String c s) = int_digits 0 (String c s).
Proof.
  intros H. unfold int_group.
  destruct c as [[] [] [] [] [] [] [] []]; try reflexivity. discriminate H.
Qed.

Lemma canonical_Y n : 0 <= n < 10000 ->
  first_full re_Y (pad4 n) = true /\ int_group (pad4 n) = n.
Proof.
  intros Hn. unfold pad4.
  destruct (digit_char_ok (n / 1000) ltac:(Z.div_mod_to_equations; lia)) as (M0 & V0 & B0).
  destruct (digit_char_ok (n / 100 mod 10) ltac:(Z.div_mod_to_equations; lia)) as (M1 & V1 & _).
  destruct (digit_char_ok (n / 10 mod 10) ltac:(Z.div_mod_to_equations; lia)) as (M2 & V2 & _).
  destruct (digit_char_ok (n mod 10) ltac:(Z.div_mod_to_equations; lia)) as (M3 & V3 & _).
  split.
  - cbn [first_full re_Y match_classes]. rewrite M0, M1, M2, M3. reflexivity.
  - rewrite int_group_nonblank by exact B0.
    cbn [int_digits]. rewrite V0, V1, V2, V3. Z.div_mod_to_equations; lia.
Qed.

Lemma canonical_2 (alts : list (list cls)) (lo : Z) (len : nat) :
  forallb (fun n => first_full alts (pad2 n) && (int_group (pad2 n) =? n))
          (map (fun i => lo + Z.of_nat i) (seq 0 len)) = true ->
  forall n, lo <= n < lo + Z.of_nat len ->
  first_full alts (pad2 n) = true /\ int_group (pad2 n) = n.
Proof.
  intros Hall n Hn.
  pose proof (range_forallb _ lo len Hall n Hn) as H.
  apply andb_true_iff in H as [H1 H2]. apply Z.eqb_eq in H2. auto.
Qed.

Lemma canonical_m n : 1 <= n <= 12 ->
  first_full re_m (pad2 n) = true /\ int_group (pad2 n) = n.
Proof. intros. apply (canonical_2 re_m 1 12); [vm_compute; reflexivity | lia]. Qed.

Lemma canonical_d n : 1 <= n <= 31 ->
  first_full re_d (pad2 n) = true /\ int_group (pad2 n) = n.
Proof. intros. apply (canonical_2 re_d 1 31); [vm_compute; reflexivity | lia]. Qed.

Lemma canonical_H n : 0 <= n <= 23 ->
  first_full re_H (pad2 n) = true /\ int_group (pad2 n) = n.
Proof. intros. apply (canonical_2 re_H 0 24); [vm_compute; reflexivity | lia]. Qed.

Lemma canonical_M n : 0 <= n <= 59 ->
  first_full re_M (pad2 n) = true /\ int_group (pad2 n) = n.
Proof. intros. apply (canonical_2 re_M 0 60); [vm_compute; reflexivity | lia]. Qed.

Lemma canonical_S n : 0 <= n <= 59 ->
  first_full re_S (pad2 n) = true /\ int_group (pad2 n) = n.
Proof. intros. apply (canonical_2 re_S 0 60); [vm_compute; reflexivity | lia]. Qed.

Lemma days_in_month_le y m : days_in_month y m <= 31.
Proof.
  unfold days_in_month.
  destruct (m =? 2); [destruct (is_leap y); lia|].
  destruct ((m =? 4) || (m =? 6) || (m =? 9) || (m =? 11)); lia.
Qed.

Lemma valid_bounds t :
  valid t = true ->
  1 <= year t <= 9999 /\ 1 <= month t <= 12 /\ 1 <= day t <= 31 /\
  0 <= hour t <= 23 /\ 0 <= minute t <= 59 /\ 0 <= second t <= 59.
Proof.
  unfold valid. intros H.
  repeat (apply andb_true_iff in H as [H ?]).
  repeat match goal with H : (_ <=? _) = true |- _ => apply Z.leb_le in H end.
  pose proof (days_in_month_le (year t) (month t)). lia.
Qed.

Lemma two_classes (alts : list (list cls)) (n : Z) :
  forallb (fun a => (length a <=? 2)%nat) alts = true ->
  Forall (fun a => (length a <= String.length (pad2 n))%nat) alts.
Proof.
  intros H. apply Forall_forall. intros a Ha.
  rewrite forallb_forall in H. specialize (H a).
  assert (In a alts) as Hin by (apply list_elem_of_In; exact Ha).
  specialize (H Hin). apply Nat.leb_le in H. exact H.
Qed.

(** The format parses what [isoformat] writes. *)
Lemma strptime_isoformat t :
  valid t = true -> strptime (isoformat t) = Some t.
Proof.
  intros Hvalid.
  destruct (valid_bounds t Hvalid) as (Hy & Hm & Hd & HH & HM & HS).
  destruct t as [y m d H M S]; simpl in *.
  destruct (canonical_Y y ltac:(lia)) as [FY IY].
  destruct (canonical_m m Hm) as [Fm Im].
  destruct (canonical_d d Hd) as [Fd Id].
  destruct (canonical_H H HH) as [FH IH].
  destruct (canonical_M M HM) as [FM IM].
  destruct (canonical_S S HS) as [FS IS].
  assert (match_format (isoformat (DateTime y m d H M S))
          = Some (Groups (pad4 y) (pad2 m) (pad2 d) (pad2 H) (pad2 M) (pad2 S) "")) as Hmatch.
  { unfold match_format, isoformat. cbn [year month day hour minute second].
    assert (first_alt re_S (fun rest => Some rest) (pad2 S +:+ "") = Some (pad2 S, "")) as E6.
    { apply first_full_hit; [exact FS | apply two_classes; reflexivity | reflexivity]. }
    rewrite string_app_nil_r in E6.
    assert (forall {R} (k : string -> option R) c rest, lit c k (String c rest) = k rest) as Hlit.
    { intros R k c rest. unfold lit. rewrite Ascii.eqb_refl. reflexivity. }
    assert (forall {R} (k : string -> option R) c rest r,
              k rest = Some r -> lit c k (String c EmptyString +:+ rest) = Some r) as Hsep.
    { intros R k c rest r Hk. change (String c "" +:+ rest) with (String c rest).
      rewrite Hlit. exact Hk. }
    change "-" with (String "-" EmptyString). change "T" with (String "T" EmptyString).
    change ":" with (String ":" EmptyString).
    rewrite (first_full_hit re_Y _ (pad4 y) _
               (pad2 m, (pad2 d, (pad2 H, (pad2 M, (pad2 S, ""))))));
      [reflexivity | exact FY | repeat constructor | ].
    apply Hsep.
    apply first_full_hit; [exact Fm | apply two_classes; reflexivity | ].
    apply Hsep.
    apply first_full_hit; [exact Fd | apply two_classes; reflexivity | ].
    apply Hsep.
    apply first_full_hit; [exact FH | apply two_classes; reflexivity | ].
    apply Hsep.
    apply first_full_hit; [exact FM | apply two_classes; reflexivity | ].
    apply Hsep.
    exact E6. }
  unfold strptime. rewrite Hmatch.
  cbn [g_rest g_Y g_m g_d g_H g_M g_S String.eqb].
  rewrite IY, Im, Id, IH, IM, IS. rewrite Hvalid. reflexivity.
Qed.

Lemma match_classes_full ks s m r :
  match_classes ks s = Some (m, r) -> match_classes ks m = Some (m, "").
Proof.
  revert s m r. induction ks as [|k ks IH]; intros s m r; simpl.
  - intros [= <- <-]. reflexivity.
  - destruct s as [|c s]; [discriminate|].
    destruct (cls_match k c) eqn:Ec; [|discriminate].
    destruct (match_classes ks s) as [[m' r']|] eqn:E; [|discriminate].
    intros [= <- <-]. simpl. rewrite Ec, (IH _ _ _ E). reflexivity.
Qed.

Lemma first_alt_inv {R} alts (k : string -> option R) s m r :
  first_alt alts k s = Some (m, r) ->
  exists rest, s = m +:+ rest /\ full_match alts m /\ k rest = Some r.
Proof.
  induction alts as [|a alts IH]; simpl; [discriminate|].
  destruct (match_classes a s) as [[m' rest]|] eqn:E.
  - destruct (k rest) as [r'|] eqn:Ek.
    + intros [= <- <-]. exists rest. split; [eauto using match_classes_split|].
      split; [|exact Ek]. constructor. eauto using match_classes_full.
    + intros H. destruct (IH H) as (rest' & ? & ? & ?).
      exists rest'. repeat split; auto. constructor 2. assumption.
  - intros H. destruct (IH H) as (rest' & ? & ? & ?).
    exists rest'. repeat split; auto. constructor 2. assumption.
Qed.

Lemma lower_T x : lower x = lower "T" -> x = "T"%char \/ x = "t"%char.
Proof.
  destruct x as [[] [] [] [] [] [] [] []]; vm_compute; intros H;
    try discriminate H; auto.
Qed.

Lemma lower_punct x c :
  c = "-"%char \/ c = ":"%char -> lower x = lower c -> x = c.
Proof.
  intros [-> | ->]; destruct x as [[] [] [] [] [] [] [] []]; vm_compute; intros H;
    try discriminate H; auto.
Qed.

Lemma lit_inv {R} c (k : string -> option R) s r :
  lit c k s = Some r ->
  exists x rest, s = String x rest /\ lower x = lower c /\ k rest = Some r.
Proof.
  unfold lit. destruct s as [|x rest]; [discriminate|].
  destruct (Ascii.eqb (lower x) (lower c)) eqn:E; [|discriminate].
  apply Ascii.eqb_eq in E. eauto.
Qed.

(** What the format accepts has the one pattern. *)
Lemma strptime_pattern body t :
  strptime body = Some t -> timestamp_pattern body t /\ valid t = true.
Proof.
  unfold strptime, match_format.
  destruct (first_alt re_Y _ body) as [[gY [gm [gd [gH [gM [gS rest]]]]]]|] eqn:E;
    [|discriminate].
  cbn [g_rest g_Y g_m g_d g_H g_M g_S].
  destruct (String.eqb rest "") eqn:Erest; [|discriminate].
  apply String.eqb_eq in Erest. subst rest.
  destruct (valid _) eqn:Ev; [|discriminate].
  intros [= <-]. split; [|exact Ev].
  apply first_alt_inv in E as (r1 & -> & FY & E).
  apply lit_inv in E as (x1 & r1' & -> & Hx1 & E).
  apply (lower_punct _ "-") in Hx1 as ->; [|auto].
  apply first_alt_inv in E as (r2 & -> & Fm & E).
  apply lit_inv in E as (x2 & r2' & -> & Hx2 & E).
  apply (lower_punct _ "-") in Hx2 as ->; [|auto].
  apply first_alt_inv in E as (r3 & -> & Fd & E).
  apply lit_inv in E as (x3 & r3' & -> & Hx3 & E).
  apply lower_T in Hx3.
  apply first_alt_inv in E as (r4 & -> & FH & E).
  apply lit_inv in E as (x4 & r4' & -> & Hx4 & E).
  apply (lower_punct _ ":") in Hx4 as ->; [|auto].
  apply first_alt_inv in E as (r5 & -> & FM & E).
  apply lit_inv in E as (x5 & r5' & -> & Hx5 & E).
  apply (lower_punct _ ":") in Hx5 as ->; [|auto].
  apply first_alt_inv in E as (r6 & -> & FS & E).
  injection E as ->.
  exists gY, gm, gd, x3, gH, gM, gS.
  rewrite string_app_nil_r. repeat split; auto.
Qed.

Lemma match_classes_length ks s m r :
  match_classes ks s = Some (m, r) -> String.length m = length ks.
Proof.
  revert s m r. induction ks as [|k ks IH]; intros s m r; simpl.
  - intros [= <- <-]. reflexivity.
  - destruct s as [|c s]; [discriminate|].
    destruct (cls_match k c); [|discriminate].
    destruct (match_classes ks s) as [[m' r']|] eqn:E; [|discriminate].
    intros [= <- <-]. simpl. f_equal. apply (IH _ _ _ E).
Qed.

(** Every character of a matched text is accepted by a class of the
    alternative. *)
Lemma match_classes_chars ks s m r y :
  match_classes ks s = Some (m, r) ->
  In y (list_ascii_of_string m) ->
  exists k, In k ks /\ cls_match k y = true.
Proof.
  revert s m r. induction ks as [|k ks IH]; intros s m r; simpl.
  - intros [= <- <-] [].
  - destruct s as [|c s]; [discriminate|].
    destruct (cls_match k c) eqn:Ec; [|discriminate].
    destruct (match_classes ks s) as [[m' r']|] eqn:E; [|discriminate].
    intros [= <- <-]. cbn [list_ascii_of_string In]. intros [<- | Hy].
    + exists k. auto.
    + destruct (IH _ _ _ E Hy) as (k0 & Hin & Hk0). exists k0. auto.
Qed.

(** An alternative whose classes all refuse [x] matches within the text
    before [x]. *)
Lemma match_classes_within ks : forall g x rest m r,
  match_classes ks (g +:+ String x rest) = Some (m, r) ->
  Forall (fun k => cls_match k x = false) ks ->
  exists g2, g = m +:+ g2 /\ r = g2 +:+ String x rest.
Proof.
  induction ks as [|k ks IH]; intros g x rest m r.
  - cbn [match_classes]. intros [= <- <-] _. exists g. split; reflexivity.
  - intros H Hall. apply Forall_cons in Hall as [Hk Hall].
    destruct g as [|y g].
    + change ("" +:+ String x rest) with (String x rest) in H.
      cbn [match_classes] in H. rewrite Hk in H. discriminate H.
    + change (String y g +:+ String x rest) with (String y (g +:+ String x rest)) in H.
      cbn [match_classes] in H.
      destruct (cls_match k y); [|discriminate].
      destruct (match_classes ks (g +:+ String x rest)) as [[m' r']|] eqn:E; [|discriminate].
      injection H as <- <-.
      destruct (IH _ _ _ _ _ E Hall) as (g2 & -> & ->).
      exists g2. split; reflexivity.
Qed.

(** A group in one of the forms of its directive, followed by the
    separator, is the group that the matcher finds. *)
Lemma first_alt_sep {R} alts c (k : string -> option R) g x rest r :
  full_match alts g ->
  lower x = lower c ->
  Forall (Forall (fun k0 => forall z, lower z = lower c -> cls_match k0 z = false)) alts ->
  k rest = Some r ->
  first_alt alts (lit c k) (g +:+ String x rest) = Some (g, r).
Proof.
  intros Hfull Hx Hsep Hk.
  assert (forall y, In y (list_ascii_of_string g) -> lower y <> lower c) as Hchars.
  { intros y Hy Hl. unfold full_match in Hfull. apply Exists_exists in Hfull as (w & Hw & Hm).
    destruct (match_classes_chars _ _ _ _ y Hm Hy) as (k0 & Hk0 & Hacc).
    rewrite Forall_forall in Hsep. specialize (Hsep w Hw).
    rewrite Forall_forall in Hsep. apply list_elem_of_In in Hk0.
    rewrite (Hsep k0 Hk0 y Hl) in Hacc. discriminate Hacc. }
  assert (lit c k (String x rest) = Some r) as Hlit
    by (unfold lit; rewrite Hx, Ascii.eqb_refl; exact Hk).
  clear Hk.
  induction alts as [|a alts IH]; [inversion Hfull|].
  apply Forall_cons in Hsep as [Ha Hsep].
  assert (Forall (fun k0 => cls_match k0 x = false) a) as Hax.
  { rewrite Forall_forall in Ha |- *. intros k0 Hk0. apply Ha; assumption. }
  cbn [first_alt].
  destruct (match_classes a (g +:+ String x rest)) as [[m r']|] eqn:E.
  - destruct (match_classes_within a g x rest m r' E Hax) as (g2 & Hg & ->).
    destruct g2 as [|y g2].
    + rewrite string_app_nil_r in Hg. subst m.
      change ("" +:+ String x rest) with (String x rest). rewrite Hlit. reflexivity.
    + assert (lit c k (String y g2 +:+ String x rest) = None) as ->.
      { change (String y g2 +:+ String x rest) with (String y (g2 +:+ String x rest)).
        unfold lit. destruct (Ascii.eqb (lower y) (lower c)) eqn:Ey; [|reflexivity].
        apply Ascii.eqb_eq in Ey. exfalso. apply (Hchars y); [|exact Ey].
        rewrite Hg. clear. induction m as [|z m IHm]; [left; reflexivity|].
        right. exact IHm. }
      apply IH; [|exact Hsep].
      apply Exists_cons in Hfull as [Hfull | Hfull]; [|exact Hfull].
      exfalso. apply match_classes_length in Hfull.
      apply match_classes_full, match_classes_length in E.
      rewrite Hg in Hfull. rewrite <- E in Hfull.
      clear - Hfull. induction m as [|z m IHm]; [discriminate Hfull|].
      apply IHm. injection Hfull as Hfull. exact Hfull.
  - apply IH; [|exact Hsep].
    apply Exists_cons in Hfull as [Hfull | Hfull]; [|exact Hfull].
    exfalso.
    assert (length a <= String.length g)%nat as Hlen
      by (apply match_classes_length in Hfull; lia).
    rewrite (match_classes_prefix a g (String x rest) Hlen), Hfull in E. discriminate E.
Qed.

(** The last group: with the alternatives from the longest to the
    shortest, the first that matches the start of the group matches the
    whole of it. *)
Lemma first_alt_end alts g :
  full_match alts g ->
  ForallOrdPairs (fun a b : list cls => (length b <= length a)%nat) alts ->
  first_alt alts (fun rest => Some rest) g = Some (g, "").
Proof.
  intros Hfull Hsorted.
  induction alts as [|a alts IH]; [inversion Hfull|].
  inversion Hsorted as [|? ? Ha Hsorted']; subst. clear Hsorted.
  rename Hsorted' into Hsorted.
  cbn [first_alt].
  destruct (match_classes a g) as [[m r]|] eqn:E.
  - assert (String.length g <= length a)%nat as Hlen.
    { apply Exists_cons in Hfull as [Hfull | Hfull].
      - apply match_classes_length in Hfull. lia.
      - apply Exists_exists in Hfull as (w & Hw & Hm).
        apply match_classes_length in Hm. rewrite Forall_forall in Ha.
        specialize (Ha w Hw). lia. }
    pose proof (match_classes_split _ _ _ _ E) as Hsplit.
    apply match_classes_length in E.
    assert (r = "") as ->.
    { destruct r as [|z r]; [reflexivity|]. exfalso.
      assert (String.length g = String.length m + S (String.length r))%nat as Hl.
      { rewrite Hsplit. clear. induction m as [|y m IHm]; [reflexivity|].
        change (String y m +:+ String z r) with (String y (m +:+ String z r)).
        cbn [String.length]. rewrite IHm. reflexivity. }
      lia. }
    rewrite string_app_nil_r in Hsplit. subst m. reflexivity.
  - apply IH; [|exact Hsorted].
    apply Exists_cons in Hfull as [Hfull | Hfull]; [|exact Hfull].
    rewrite Hfull in E. discriminate E.
Qed.

Lemma classes_refuse_separators c :
  c = "-"%char \/ c = "T"%char \/ c = ":"%char ->
  Forall (Forall (fun k0 => forall z, lower z = lower c -> cls_match k0 z = false))
    (re_Y ++ re_m ++ re_d ++ re_H ++ re_M ++ re_S)%list.
Proof.
  intros Hc.
  assert (forall z, lower z = lower c ->
            z = "-"%char \/ z = "T"%char \/ z = "t"%char \/ z = ":"%char) as Hz.
  { intros z H. destruct Hc as [-> | [-> | ->]].
    - left. apply (lower_punct z "-"); auto.
    - apply lower_T in H. tauto.
    - right. right. right. apply (lower_punct z ":"); auto. }
  repeat constructor; intros z H;
    destruct (Hz z H) as [-> | [-> | [-> | ->]]]; reflexivity.
Qed.

(** The format accepts every text of its pattern that names a valid
    instant. *)
Lemma strptime_accepts body t :
  timestamp_pattern body t -> valid t = true -> strptime body = Some t.
Proof.
  intros (gY & gm & gd & sep & gH & gM & gS & -> & Hsep & FY & Fm & Fd & FH & FM & FS & ->)
         Hvalid.
  assert (forall c alts,
            c = "-"%char \/ c = "T"%char \/ c = ":"%char ->
            (exists pre post, (re_Y ++ re_m ++ re_d ++ re_H ++ re_M ++ re_S)%list
                              = (pre ++ alts ++ post)%list) ->
            Forall (Forall (fun k0 => forall z, lower z = lower c -> cls_match k0 z = false))
              alts) as Hrefuse.
  { intros c alts Hc (pre & post & E).
    pose proof (classes_refuse_separators c Hc) as H. rewrite E in H.
    apply Forall_app in H as [_ H]. apply Forall_app in H as [H _]. exact H. }
  assert (match_format
            (gY +:+ "-" +:+ gm +:+ "-" +:+ gd +:+ String sep "" +:+ gH +:+ ":" +:+ gM
                +:+ ":" +:+ gS)
          = Some (Groups gY gm gd gH gM gS "")) as Hmatch.
  { unfold match_format.
    change "-" with (String "-" EmptyString). change ":" with (String ":" EmptyString).
    change (String ?c "" +:+ ?s) with (String c s).
    rewrite (first_alt_sep re_Y "-" _ gY "-" _ (gm, (gd, (gH, (gM, (gS, ""))))));
      [reflexivity | exact FY | reflexivity | |].
    { apply Hrefuse; [auto|]. exists [], (re_m ++ re_d ++ re_H ++ re_M ++ re_S)%list.
      reflexivity. }
    apply (first_alt_sep re_m "-"); [exact Fm | reflexivity | |].
    { apply Hrefuse; [auto|]. exists re_Y, (re_d ++ re_H ++ re_M ++ re_S)%list.
      reflexivity. }
    apply (first_alt_sep re_d "T");
      [exact Fd | destruct Hsep as [-> | ->]; reflexivity | |].
    { apply Hrefuse; [auto|]. exists (re_Y ++ re_m)%list, (re_H ++ re_M ++ re_S)%list.
      reflexivity. }
    apply (first_alt_sep re_H ":"); [exact FH | reflexivity | |].
    { apply Hrefuse; [auto|]. exists (re_Y ++ re_m ++ re_d)%list, (re_M ++ re_S)%list.
      reflexivity. }
    apply (first_alt_sep re_M ":"); [exact FM | reflexivity | |].
    { apply Hrefuse; [auto|]. exists (re_Y ++ re_m ++ re_d ++ re_H)%list, re_S.
      reflexivity. }
    apply first_alt_end; [exact FS|].
    repeat constructor. }
  unfold strptime. rewrite Hmatch.
  cbn [g_rest g_Y g_m g_d g_H g_M g_S String.eqb]. rewrite Hvalid. reflexivity.
Qed.

Lemma string_app_assoc (a b c : string) : a +:+ (b +:+ c) = (a +:+ b) +:+ c.
Proof.
  induction a as [|x a IH]; [reflexivity|].
  change (String x (a +:+ (b +:+ c)) = String x ((a +:+ b) +:+ c)). congruence.
Qed.

Lemma last_char_app a c b : last_char (a +:+ String c b) = last_char (String c b).
Proof.
  induction a as [|x a IH]; [reflexivity|].
  change (String x a +:+ String c b) with (String x (a +:+ String c b)).
  cbn [last_char]. rewrite IH.
  destruct (a +:+ String c b) eqn:E; [|reflexivity].
  destruct a; discriminate E.
Qed.

Lemma drop_last_app a c : drop_last (a +:+ String c "") = a.
Proof.
  induction a as [|x a IH]; [reflexivity|].
  change (String x a +:+ String c "") with (String x (a +:+ String c "")).
  cbn [drop_last]. rewrite IH.
  destruct (a +:+ String c "") eqn:E; [|reflexivity].
  destruct a; discriminate E.
Qed.

Lemma last_char_drop_last v c :
  last_char v = Some c -> v = drop_last v +:+ String c "".
Proof.
  induction v as [|x v IH]; [discriminate|].
  destruct v as [|y v]; [intros [= ->]; reflexivity|].
  intros H. change (String x (String y v) = String x (drop_last (String y v) +:+ String c "")).
  f_equal. apply IH. exact H.
Qed.

Lemma match_classes_last ks k s m r :
  match_classes (ks ++ [k]) s = Some (m, r) ->
  exists c, last_char m = Some c /\ cls_match k c = true.
Proof.
  revert s m r. induction ks as [|k0 ks IH]; intros s m r; cbn [app match_classes].
  - destruct s as [|c s]; [discriminate|].
    destruct (cls_match k c) eqn:Ec; [|discriminate].
    intros [= <- <-]. exists c. auto.
  - destruct s as [|c s]; [discriminate|].
    destruct (cls_match k0 c); [|discriminate].
    destruct (match_classes (ks ++ [k]) s) as [[m' r']|] eqn:E; [|discriminate].
    intros [= <- <-]. destruct (IH _ _ _ E) as (c' & Hl & Hc).
    exists c'. split; [|exact Hc].
    cbn [last_char]. destruct m'; [discriminate Hl | exact Hl].
Qed.

Lemma binary_is_digit c :
  cls_match (Range "0" "1") c = true -> cls_match digit c = true.
Proof.
  destruct c as [[] [] [] [] [] [] [] []]; vm_compute; intros H;
    first [discriminate H | reflexivity].
Qed.

(** A matched group of seconds ends with a digit. *)
Lemma full_match_S_last g :
  full_match re_S g ->
  exists c, last_char g = Some c /\ cls_match digit c = true.
Proof.
  unfold full_match, re_S. intros H.
  apply Exists_cons in H as [H | H].
  { apply (match_classes_last [Exactly "6"]) in H as (c & ? & ?).
    exists c. auto using binary_is_digit. }
  apply Exists_cons in H as [H | H].
  { apply (match_classes_last [Range "0" "5"]) in H as (c & ? & ?). eauto. }
  apply Exists_cons in H as [H | H].
  { apply (match_classes_last []) in H as (c & ? & ?). eauto. }
  inversion H.
Qed.

Lemma pattern_last_digit body t :
  timestamp_pattern body t ->
  exists c, last_char body = Some c /\ cls_match digit c = true.
Proof.
  intros (gY & gm & gd & sep & gH & gM & gS & -> & _ & _ & _ & _ & _ & _ & FS & _).
  destruct (full_match_S_last gS FS) as (c & Hl & Hc).
  exists c. split; [|exact Hc].
  destruct gS as [|x gS]; [discriminate Hl|].
  rewrite !string_app_assoc.
  rewrite last_char_app. exact Hl.
Qed.

(** The two forms of a timestamp: with and without the trailing "Z". *)
Lemma normalize_dateTime_isoformat t :
  valid t = true ->
  normalize_dateTime (isoformat t) = Return (strftime t)
  /\ normalize_dateTime (isoformat t +:+ "Z") = Return (strftime t).
Proof.
  intros Hvalid.
  pose proof (strptime_isoformat t Hvalid) as Hparse.
  destruct (strptime_pattern _ _ Hparse) as [Hpat _].
  destruct (pattern_last_digit _ _ Hpat) as (c & Hl & Hc).
  split.
  - unfold normalize_dateTime. rewrite Hl.
    assert (Ascii.eqb c "Z" = false) as ->.
    { destruct (Ascii.eqb c "Z") eqn:E; [|reflexivity].
      apply Ascii.eqb_eq in E. subst c. discriminate Hc. }
    rewrite Hparse. reflexivity.
  - unfold normalize_dateTime.
    change "Z" with (String "Z" "") at 1 2.
    rewrite last_char_app. cbn [last_char]. rewrite Ascii.eqb_refl.
    rewrite drop_last_app, Hparse. reflexivity.
Qed.

(** Every text of the pattern that names a valid instant is accepted, with
    and without the trailing "Z". *)
Lemma normalize_dateTime_accepts body t :
  timestamp_pattern body t -> valid t = true ->
  normalize_dateTime body = Return (strftime t)
  /\ normalize_dateTime (body +:+ "Z") = Return (strftime t).
Proof.
  intros Hpat Hvalid.
  pose proof (strptime_accepts body t Hpat Hvalid) as Hparse.
  destruct (pattern_last_digit _ _ Hpat) as (c & Hl & Hc).
  split.
  - unfold normalize_dateTime. rewrite Hl.
    assert (Ascii.eqb c "Z" = false) as ->.
    { destruct (Ascii.eqb c "Z") eqn:E; [|reflexivity].
      apply Ascii.eqb_eq in E. subst c. discriminate Hc. }
    rewrite Hparse. reflexivity.
  - unfold normalize_dateTime.
    change "Z" with (String "Z" "") at 1 2.
    rewrite last_char_app. cbn [last_char]. rewrite Ascii.eqb_refl.
    rewrite drop_last_app, Hparse. reflexivity.
Qed.

(** What normalisation accepts has the pattern, a final "Z" apart. *)
Lemma normalize_dateTime_pattern v out :
  normalize_dateTime v = Return out ->
  exists body t,
    (v = body \/ v = body +:+ "Z")
    /\ timestamp_pattern body t /\ valid t = true /\ out = strftime t.
Proof.
  unfold normalize_dateTime.
  destruct (last_char v) as [c|] eqn:Hl; [|discriminate].
  destruct (Ascii.eqb c "Z") eqn:Ec.
  - apply Ascii.eqb_eq in Ec. subst c.
    destruct (strptime (drop_last v)) as [t|] eqn:Hp; [|discriminate].
    intros [= <-]. exists (drop_last v), t.
    destruct (strptime_pattern _ _ Hp). repeat split; auto.
    right. apply (last_char_drop_last _ _ Hl).
  - destruct (strptime v) as [t|] eqn:Hp; [|discriminate].
    intros [= <-]. exists v, t.
    destruct (strptime_pattern _ _ Hp). repeat split; auto.
Qed.

(** Only one trailing "Z" is taken off. *)
Lemma normalize_dateTime_ZZ v :
  normalize_dateTime (v +:+ "ZZ") = Raise ValueError.
Proof.
  unfold normalize_dateTime.
  replace (v +:+ "ZZ") with ((v +:+ "Z") +:+ String "Z" "")
    by (rewrite <- string_app_assoc; reflexivity).
  rewrite last_char_app. cbn [last_char]. rewrite Ascii.eqb_refl, drop_last_app.
  destruct (strptime (v +:+ "Z")) as [t|] eqn:Hp; [|reflexivity].
  exfalso.
  destruct (strptime_pattern _ _ Hp) as [Hpat _].
  destruct (pattern_last_digit _ _ Hpat) as (c & Hl & Hc).
  change "Z" with (String "Z" "") in Hl. rewrite last_char_app in Hl.
  injection Hl as <-. discriminate Hc.
Qed.

(** The characters that [pretty] writes are those of the padded forms. *)
Lemma pretty_char_digit (m : N) (d : Z) :
  Z.of_N m = d -> 0 <= d <= 9 -> pretty_N_char m = digit_char d.
Proof.
  intros Hm Hd. assert (m = Z.to_N d) as -> by lia.
  assert (d = 0 \/ d = 1 \/ d = 2 \/ d = 3 \/ d = 4 \/ d = 5 \/ d = 6 \/ d = 7 \/ d = 8
          \/ d = 9) as Hcases by lia.
  repeat (destruct Hcases as [-> | Hcases]; [reflexivity|]). subst d. reflexivity.
Qed.

(** From the year 1000 on the year has four digits, and [strftime] writes
    the form YYYY-MM-DD HH:MM:SS. *)
Lemma pretty_pad4 y : 1000 <= y <= 9999 -> pretty y = pad4 y.
Proof.
  intros Hy. destruct y as [|p|p]; try lia.
  change (pretty (Z.pos p)) with (pretty (N.pos p)). unfold pretty, pretty_N.
  destruct (decide (N.pos p = 0)%N) as [H0|_]; [discriminate H0|].
  assert (Z.of_N (N.pos p) = Z.pos p) as Hx by reflexivity.
  remember (N.pos p) as x eqn:Ex. remember (Z.pos p) as n eqn:En. clear Ex En p.
  assert (Z.of_N (x / 10) = n / 10) as H1 by (rewrite N2Z.inj_div, Hx; reflexivity).
  assert (Z.of_N (x / 10 / 10) = n / 100) as H2
    by (rewrite N2Z.inj_div, H1, Z.div_div by lia; reflexivity).
  assert (Z.of_N (x / 10 / 10 / 10) = n / 1000) as H3
    by (rewrite N2Z.inj_div, H2, Z.div_div by lia; reflexivity).
  assert (Z.of_N (x / 10 / 10 / 10 / 10) = n / 10000) as H4
    by (rewrite N2Z.inj_div, H3, Z.div_div by lia; reflexivity).
  assert (100 <= n / 10 /\ 10 <= n / 100 /\ 1 <= n / 1000 <= 9 /\ n / 10000 = 0)
    as (B1 & B2 & B3 & B4).
  { repeat split.
    - apply Z.div_le_lower_bound; lia.
    - apply Z.div_le_lower_bound; lia.
    - apply Z.div_le_lower_bound; lia.
    - assert (n / 1000 < 10) by (apply Z.div_lt_upper_bound; lia). lia.
    - apply Z.div_small. lia. }
  rewrite (pretty_N_go_step x) by lia.
  rewrite (pretty_N_go_step (x / 10)) by lia.
  rewrite (pretty_N_go_step (x / 10 / 10)) by lia.
  rewrite (pretty_N_go_step (x / 10 / 10 / 10)) by lia.
  assert (x / 10 / 10 / 10 / 10 = 0)%N as -> by lia.
  rewrite pretty_N_go_0. unfold pad4.
  assert (forall m k, Z.of_N m = k -> Z.of_N (m mod 10) = k mod 10) as Hmod
    by (intros m k <-; rewrite N2Z.inj_mod; reflexivity).
  rewrite (pretty_char_digit (x / 10 / 10 / 10 mod 10) (n / 1000)).
  2:{ rewrite (Hmod _ _ H3). apply Z.mod_small. lia. }
  2:{ lia. }
  rewrite (pretty_char_digit (x / 10 / 10 mod 10) (n / 100 mod 10)) by
    (first [apply Hmod; exact H2 | pose proof (Z.mod_pos_bound (n / 100) 10); lia]).
  rewrite (pretty_char_digit (x / 10 mod 10) (n / 10 mod 10)) by
    (first [apply Hmod; exact H1 | pose proof (Z.mod_pos_bound (n / 10) 10); lia]).
  rewrite (pretty_char_digit (x mod 10) (n mod 10)) by
    (first [apply Hmod; exact Hx | pose proof (Z.mod_pos_bound n 10); lia]).
  reflexivity.
Qed.

Lemma strftime_display t :
  valid t = true -> 1000 <= year t -> strftime t = display t.
Proof.
  unfold valid. intros Hv Hy.
  repeat (apply andb_prop in Hv as [Hv ?]).
  unfold strftime, display. rewrite pretty_pad4; [reflexivity | lia].
Qed.

End DatetimeFacts.

Section DateTimeCells.
Context `{W : World}.

(** Every cell of datatype dateTime of a row that is answered by a record
    has been replaced by what [normalize_dateTime] makes of its text. *)
Lemma normalize_items_dateTime items : forall done st r,
  fst (normalize_items items done st) = Return (Row r) ->
  exists tail, r = (done ++ tail)%list /\ Forall2 dateTime_normalised items tail.
Proof.
  induction items as [|[item cell] items IH]; intros done st r.
  - cbn. intros [= <-]. exists []. rewrite app_nil_r. split; [reflexivity | constructor].
  - cbn [normalize_items].
    assert (forall v st0,
              (b_type cell = "typed-literal" -> b_datatype cell = Some xsd_dateTime ->
               exists s, normalize_dateTime (b_value cell) = Return s /\ v = VStr s) ->
              fst (normalize_items items (done ++ [(item, v)])%list st0) = Return (Row r) ->
              exists tail, r = (done ++ tail)%list
                           /\ Forall2 dateTime_normalised ((item, cell) :: items) tail)
      as Hkeep.
    { intros v st0 Hv H. destruct (IH _ _ _ H) as (tail & -> & Hall).
      exists ((item, v) :: tail). rewrite <- app_assoc. split; [reflexivity|].
      constructor; [|exact Hall]. split; [reflexivity | exact Hv]. }
    assert (forall datatype (o : outcome Z) (f : Z -> value),
              b_datatype cell = Some datatype -> datatype <> xsd_dateTime ->
              fst (bind (lift o)
                     (fun n => normalize_items items (done ++ [(item, f n)])%list) st)
              = Return (Row r) ->
              exists tail, r = (done ++ tail)%list
                           /\ Forall2 dateTime_normalised ((item, cell) :: items) tail)
      as Hnum.
    { intros datatype [n|e] f Hd Hne; unfold bind, lift; cbn [fst]; [|discriminate].
      apply Hkeep. intros _ Hdt. congruence. }
    destruct (String.eqb (b_type cell) "typed-literal") eqn:Etyped.
    { destruct (b_datatype cell) as [datatype|] eqn:Ed; [|discriminate].
      destruct (String.eqb datatype xsd_integer) eqn:E1.
      { apply String.eqb_eq in E1. apply (Hnum datatype); [reflexivity|].
        subst datatype. discriminate. }
      destruct (String.eqb datatype xsd_decimal) eqn:E2.
      { apply String.eqb_eq in E2. apply (Hnum datatype); [reflexivity|].
        subst datatype. discriminate. }
      destruct (String.eqb datatype xsd_boolean) eqn:E3.
      { apply String.eqb_eq in E3.
        apply (Hnum datatype _ (fun n => VBool (negb (n =? 0)))); [reflexivity|].
        subst datatype. discriminate. }
      destruct (String.eqb datatype xsd_dateTime) eqn:E4.
      { unfold bind, lift. destruct (normalize_dateTime (b_value cell)) as [s|e] eqn:En;
          cbn [fst]; [|discriminate].
        apply Hkeep. intros _ _. exists s. auto. }
      assert (datatype <> xsd_dateTime) as Hne
        by (intros ->; rewrite String.eqb_refl in E4; discriminate E4).
      destruct (String.eqb datatype xsd_string).
      { destruct (String.eqb (b_value cell) "NULL"); apply Hkeep; intros _ Hdt; congruence. }
      apply Hkeep. intros _ Hdt. congruence. }
    assert (b_type cell <> "typed-literal") as Hnt
      by (intros H; rewrite H in Etyped; discriminate Etyped).
    destruct (String.eqb (b_type cell) "literal").
    { destruct (startswith (b_value cell) "Modify " || startswith (b_value cell) "Insert into "
                || startswith (b_value cell) "Delete from "); discriminate. }
    destruct (String.eqb (b_type cell) "uri"); [apply Hkeep; intros H; contradiction|].
    unfold bind, logging_call, modify. cbv beta iota.
    apply Hkeep. intros H. contradiction.
Qed.

(** A cell of datatype dateTime whose text is refused ends the
    normalisation of its row with the exception. *)
Lemma normalize_items_dateTime_fails pre item v post e : forall done st,
  Forall (fun kc => b_type (snd kc) = "uri") pre ->
  normalize_dateTime v = Raise e ->
  normalize_items
    (pre ++ (item, Binding "typed-literal" (Some xsd_dateTime) v) :: post)%list done st
  = (Raise e, st).
Proof.
  induction pre as [|[k c] pre IH]; intros done st Hpre Hv.
  - cbn [app normalize_items b_type b_datatype b_value].
    change (String.eqb "typed-literal" "typed-literal") with true. cbv iota.
    change (String.eqb xsd_dateTime xsd_integer) with false.
    change (String.eqb xsd_dateTime xsd_decimal) with false.
    change (String.eqb xsd_dateTime xsd_boolean) with false.
    change (String.eqb xsd_dateTime xsd_dateTime) with true. cbv iota.
    unfold bind, lift. rewrite Hv. reflexivity.
  - apply Forall_cons in Hpre as [Hc Hpre]. cbn [snd] in Hc.
    cbn [app normalize_items]. rewrite Hc.
    change (String.eqb "uri" "typed-literal") with false.
    change (String.eqb "uri" "literal") with false.
    change (String.eqb "uri" "uri") with true. cbv iota.
    apply IH; assumption.
Qed.

End DateTimeCells.




(* --------------------------------------------------------------------- *)
(** ** The store interface                                                *)
(* --------------------------------------------------------------------- *)

Section RunQueryFacts.
Context `{W : World}.

Lemma logs_more_refl st : logs_more st st [].
Proof. unfold logs_more. destruct st; simpl. rewrite app_nil_r. reflexivity. Qed.

Lemma logs_more_trans st1 st2 st3 e1 e2 :
  logs_more st1 st2 e1 -> logs_more st2 st3 e2 -> logs_more st1 st3 (e1 ++ e2)%list.
Proof.
  unfold logs_more. intros -> ->. destruct st1; simpl. rewrite app_assoc. reflexivity.
Qed.

Lemma logging_call_more lvl format args st :
  logging_call lvl format args st
  = (Return tt, set_logging (logging st ++ [Log lvl format args])%list st).
Proof. reflexivity. Qed.

Lemma normalize_items_logs items : forall done st,
  exists extra,
    logs_more st (snd (normalize_items items done st)) extra
    /\ Forall normalizer_record extra.
Proof.
  induction items as [|[item cell] items IH]; intros done st.
  - exists []. split; [apply logs_more_refl | constructor].
  - cbn [normalize_items].
    assert (forall v, exists extra,
              logs_more st (snd (normalize_items items (done ++ [(item, v)])%list st)) extra
              /\ Forall normalizer_record extra) as Hkeep by (intros; apply IH).
    assert (forall (o : outcome Z) (f : Z -> value), exists extra,
              logs_more st
                (snd (bind (lift o)
                        (fun n => normalize_items items (done ++ [(item, f n)])%list) st)) extra
              /\ Forall normalizer_record extra) as Hnum.
    { intros [n|e] f; unfold bind, lift; cbn.
      - apply IH.
      - exists []. split; [apply logs_more_refl | constructor]. }
    destruct (String.eqb (b_type cell) "typed-literal").
    { destruct (b_datatype cell) as [datatype|].
      2:{ exists []. split; [apply logs_more_refl | constructor]. }
      destruct (String.eqb datatype xsd_integer); [apply Hnum|].
      destruct (String.eqb datatype xsd_decimal); [apply Hnum|].
      destruct (String.eqb datatype xsd_boolean);
        [apply (Hnum _ (fun n => VBool (negb (n =? 0))))|].
      destruct (String.eqb datatype xsd_dateTime).
      { unfold bind, lift. destruct (normalize_dateTime (b_value cell)); cbn.
        - apply IH.
        - exists []. split; [apply logs_more_refl | constructor]. }
      destruct (String.eqb datatype xsd_string); [|apply Hkeep].
      destruct (String.eqb (b_value cell) "NULL"); apply Hkeep. }
    destruct (String.eqb (b_type cell) "literal").
    { destruct (startswith (b_value cell) "Modify " || startswith (b_value cell) "Insert into "
                || startswith (b_value cell) "Delete from ");
        unfold bind, ret; rewrite logging_call_more; cbn [snd];
        eexists; (split; [reflexivity|]);
        (constructor; [unfold normalizer_record; cbn; auto | constructor]). }
    destruct (String.eqb (b_type cell) "uri"); [apply Hkeep|].
    unfold bind. rewrite logging_call_more.
    destruct (IH (done ++ [(item, VCell cell)])%list
                 (set_logging (logging st ++ [Log INFO "Not a typed-literal: %s" [ArgStr (b_type cell)]])%list st))
      as (extra & Hmore & Hall).
    eexists. split.
    + eapply logs_more_trans; [reflexivity | exact Hmore].
    + constructor; [unfold normalizer_record; cbn; auto | exact Hall].
Qed.

Lemma map_list_normalize_logs rows : forall st,
  exists extra,
    logs_more st (snd (map_list normalize_binding rows st)) extra
    /\ Forall normalizer_record extra.
Proof.
  induction rows as [|row rows IH]; intros st.
  - exists []. split; [apply logs_more_refl | constructor].
  - cbn [map_list]. unfold bind at 1. unfold normalize_binding at 1.
    destruct (normalize_items_logs row [] st) as (e1 & H1 & A1).
    destruct (normalize_items row [] st) as [[r|e] st1]; cbn [snd] in *.
    + unfold bind at 1.
      destruct (IH st1) as (e2 & H2 & A2).
      destruct (map_list normalize_binding rows st1) as [[rs|e] st2]; cbn [snd] in *;
        exists (e1 ++ e2)%list; (split; [eapply logs_more_trans; eauto | apply Forall_app; auto]).
    + exists e1. auto.
Qed.

Lemma set_logging_set_logging l1 l2 st :
  set_logging l2 (set_logging l1 st) = set_logging l2 st.
Proof. reflexivity. Qed.

(** [__run_query], case by case. *)
Lemma run_query_cases q cache_key_string prefix st :
  run_query q cache_key_string prefix st =
  match match cache_key_string with
        | Some s => CacheLayer.cached_value prefix (CacheLayer.make_key s) (cache st)
        | None => None
        end with
  | Some c => (Return c, st)
  | None =>
      let '(answer, s) := sparql_query q (sparql st) in
      match answer with
      | Return rows =>
          match map_list normalize_binding rows (set_sparql s st) with
          | (Return results, st2) =>
              (Return results, answered cache_key_string prefix results st2)
          | (Raise e, st2) => (Return [], handled q e st2)
          end
      | Raise e => (Return [], handled q e (set_sparql s st))
      end
  end.
Proof.
  assert (forall e st0, (match e with
           | URLError =>
               up <- gets sparql_is_up ;;
               (if up
                then logging_call ERROR msg_down [] ;; modify (set_sparql_is_up false)
                else ret tt) ;;
               ret []
           | QueryBadFormed =>
               logging_call ERROR "Badly formed SPARQL query:" [] ;;
               log_query q ;;
               ret []
           | error =>
               logging_call ERROR "SPARQL query failed." [] ;;
               logging_call ERROR "Exception: %s" [ArgExn error] ;;
               log_query q ;;
               ret []
           end) st0 = (Return ([] : list result_row), handled q e st0)) as Hh.
  { intros e st0. destruct st0 as [i g p c s u l d].
    destruct e; try reflexivity;
      try (cbn; rewrite <- !app_assoc; reflexivity).
    destruct u; reflexivity. }
  unfold run_query.
  destruct cache_key_string as [k|].
  - unfold bind at 1. unfold gets at 1.
    destruct (CacheLayer.cached_value prefix (CacheLayer.make_key k) (cache st)) as [c|];
      [reflexivity|].
    unfold try_except. unfold bind at 1. unfold sparql_query_convert.
    destruct (sparql_query q (sparql st)) as [[rows|e] s]; [|apply Hh].
    unfold bind at 1.
    destruct (map_list normalize_binding rows (set_sparql s st)) as [[results|e] st2];
      [|apply Hh].
    destruct st2 as [i g p c s2 u l d]. destruct u; reflexivity.
  - unfold bind at 1. unfold ret at 1.
    unfold try_except. unfold bind at 1. unfold sparql_query_convert.
    destruct (sparql_query q (sparql st)) as [[rows|e] s]; [|apply Hh].
    unfold bind at 1.
    destruct (map_list normalize_binding rows (set_sparql s st)) as [[results|e] st2];
      [|apply Hh].
    destruct st2 as [i g p c s2 u l d]. destruct u; reflexivity.
Qed.

Lemma count_logged_app format l1 l2 :
  count_logged format (l1 ++ l2) = (count_logged format l1 + count_logged format l2)%nat.
Proof. unfold count_logged. rewrite filter_app, length_app. reflexivity. Qed.

Lemma count_logged_normalizer format extra :
  format = msg_down \/ format = msg_up ->
  Forall normalizer_record extra -> count_logged format extra = O.
Proof.
  intros Hf Hall. unfold count_logged.
  induction Hall as [|r l Hr Hl IH]; [reflexivity|].
  rewrite filter_cons. destruct (decide (log_format r = format)) as [E|]; [|exact IH].
  exfalso. unfold normalizer_record in Hr. rewrite E in Hr.
  destruct Hf as [-> | ->]; destruct Hr as [Hr | [Hr | Hr]]; discriminate Hr.
Qed.

Lemma handled_effect q e st :
  exists extra,
    logging (handled q e st) = (logging st ++ extra)%list
    /\ count_logged msg_down extra
       = (if sparql_is_up st && negb (sparql_is_up (handled q e st)) then 1 else 0)%nat
    /\ count_logged msg_up extra
       = (if negb (sparql_is_up st) && sparql_is_up (handled q e st) then 1 else 0)%nat.
Proof.
  destruct st as [i g p c s u l d].
  destruct e; cbn;
    try (eexists; split; [reflexivity|]; destruct u; split; reflexivity).
  destruct u; cbn.
  - eexists; split; [reflexivity|]; split; reflexivity.
  - exists []. rewrite app_nil_r. split; [reflexivity|]. split; reflexivity.
Qed.

Lemma answered_effect cache_key_string prefix results st :
  exists extra,
    logging (answered cache_key_string prefix results st) = (logging st ++ extra)%list
    /\ count_logged msg_down extra
       = (if sparql_is_up st
             && negb (sparql_is_up (answered cache_key_string prefix results st))
          then 1 else 0)%nat
    /\ count_logged msg_up extra
       = (if negb (sparql_is_up st)
             && sparql_is_up (answered cache_key_string prefix results st)
          then 1 else 0)%nat.
Proof.
  destruct st as [i g p c s u l d].
  unfold answered. destruct cache_key_string; destruct u; cbn;
    first [ exists []; rewrite app_nil_r; split; [reflexivity|]; split; reflexivity
          | eexists; split; [reflexivity|]; split; reflexivity ].
Qed.

(** One call of [__run_query]: the message that the connection is down is
    written exactly when the flag goes from up to down, and the message
    that it is up again exactly when the flag goes from down to up. *)
Lemma run_query_flag q cache_key_string prefix st :
  let st' := snd (run_query q cache_key_string prefix st) in
  exists extra,
    logging st' = (logging st ++ extra)%list
    /\ count_logged msg_down extra
       = (if sparql_is_up st && negb (sparql_is_up st') then 1 else 0)%nat
    /\ count_logged msg_up extra
       = (if negb (sparql_is_up st) && sparql_is_up st' then 1 else 0)%nat.
Proof.
  cbv zeta. rewrite run_query_cases.
  destruct (match cache_key_string with
            | Some s => CacheLayer.cached_value prefix (CacheLayer.make_key s) (cache st)
            | None => None
            end) as [c|].
  { exists []. cbn [snd]. rewrite app_nil_r. split; [reflexivity|].
    destruct (sparql_is_up st); split; reflexivity. }
  destruct (sparql_query q (sparql st)) as [[rows|e] s].
  2:{ cbn [snd]. apply (handled_effect q e (set_sparql s st)). }
  destruct (map_list_normalize_logs rows (set_sparql s st)) as (e1 & Hmore & Hall).
  destruct (map_list normalize_binding rows (set_sparql s st)) as [[results|e] st2];
    cbn [snd] in *.
  - destruct (answered_effect cache_key_string prefix results st2) as (e2 & Hl & Hd & Hu).
    exists (e1 ++ e2)%list. rewrite Hl. unfold logs_more in Hmore. subst st2.
    cbn [logging set_logging set_sparql sparql_is_up] in *.
    rewrite app_assoc. split; [reflexivity|].
    rewrite !count_logged_app, Hd, Hu.
    rewrite (count_logged_normalizer msg_down e1), (count_logged_normalizer msg_up e1); auto.
  - destruct (handled_effect q e st2) as (e2 & Hl & Hd & Hu).
    exists (e1 ++ e2)%list. rewrite Hl. unfold logs_more in Hmore. subst st2.
    cbn [logging set_logging set_sparql sparql_is_up] in *.
    rewrite app_assoc. split; [reflexivity|].
    rewrite !count_logged_app, Hd, Hu.
    rewrite (count_logged_normalizer msg_down e1), (count_logged_normalizer msg_up e1); auto.
Qed.

Lemma states_head calls st : exists l, states calls st = st :: l.
Proof. destruct calls; cbn; eauto. Qed.

Lemma falls_cons a b l :
  falls (a :: b :: l) = ((if a && negb b then 1 else 0) + falls (b :: l))%nat.
Proof. destruct a, b; reflexivity. Qed.

Lemma rises_cons a b l :
  rises (a :: b :: l) = ((if negb a && b then 1 else 0) + rises (b :: l))%nat.
Proof. destruct a, b; reflexivity. Qed.

Lemma run_flag_counts calls : forall st,
  count_logged msg_down (logging (final_state calls st))
    = (count_logged msg_down (logging st) + falls (sparql_is_up <$> states calls st))%nat
  /\ count_logged msg_up (logging (final_state calls st))
    = (count_logged msg_up (logging st) + rises (sparql_is_up <$> states calls st))%nat.
Proof.
  induction calls as [|c calls IH]; intros st.
  - cbn. destruct (sparql_is_up st); cbn; split; lia.
  - cbn [final_state states].
    set (st' := snd (run_query (call_query c) (call_cache_key_string c) (call_prefix c) st)).
    destruct (IH st') as [IHd IHu]. rewrite IHd, IHu.
    destruct (run_query_flag (call_query c) (call_cache_key_string c) (call_prefix c) st)
      as (extra & Hl & Hd & Hu).
    fold st' in Hl, Hd, Hu.
    destruct (states_head calls st') as [l ->].
    rewrite !fmap_cons, falls_cons, rises_cons.
    rewrite Hl, !count_logged_app, Hd, Hu. split; lia.
Qed.

End RunQueryFacts.

(** C6.  Along any sequence of queries the message that the connection
    is down is logged once for each change of the flag from up to down,
    and the message that it is up again once for each change from down to
    up; a failed call during an outage logs nothing more, and the next
    query that is answered ends the outage with one message. *)
Theorem connection_messages `{W : World} (calls : list call) (st : SparqlInterface) :
  count_logged msg_down (logging (final_state calls st))
    = (count_logged msg_down (logging st) + falls (sparql_is_up <$> states calls st))%nat
  /\ count_logged msg_up (logging (final_state calls st))
    = (count_logged msg_up (logging st) + rises (sparql_is_up <$> states calls st))%nat
  /\ (forall q cache_key_string prefix s',
        cache_miss cache_key_string prefix st ->
        sparql_query q (sparql st) = (Raise URLError, s') ->
        let st' := snd (run_query q cache_key_string prefix st) in
        sparql_is_up st' = false
        /\ logging st' = (logging st ++ if sparql_is_up st
                                        then [Log ERROR msg_down []] else [])%list)
  /\ (forall q cache_key_string prefix rows s' results st2,
        cache_miss cache_key_string prefix st ->
        sparql_query q (sparql st) = (Return rows, s') ->
        map_list normalize_binding rows (set_sparql s' st) = (Return results, st2) ->
        let st' := snd (run_query q cache_key_string prefix st) in
        sparql_is_up st' = true
        /\ logging st' = (logging st2 ++ if sparql_is_up st
                                         then [] else [Log INFO msg_up []])%list).
Proof.
  destruct (run_flag_counts calls st) as [Hd Hu].
  split; [exact Hd|]. split; [exact Hu|]. split.
  - intros q k prefix s' Hmiss Hq. cbv zeta. rewrite run_query_cases.
    unfold cache_miss in Hmiss. rewrite Hmiss, Hq. cbn [snd].
    destruct st as [i g p c s u l d]. cbn. destruct u; cbn.
    + split; reflexivity.
    + rewrite app_nil_r. split; reflexivity.
  - intros q k prefix rows s' results st2 Hmiss Hq Hn. cbv zeta. rewrite run_query_cases.
    unfold cache_miss in Hmiss. rewrite Hmiss, Hq, Hn. cbn [snd].
    destruct (map_list_normalize_logs rows (set_sparql s' st)) as (e1 & Hmore & _).
    rewrite Hn in Hmore. cbn [snd] in Hmore. unfold logs_more in Hmore. subst st2.
    destruct st as [i g p c s u l d]. unfold answered.
    destruct k; destruct u; cbn; rewrite ?app_nil_r; split; reflexivity.
Qed.

Lemma connection_messages_witness :
  let st := init (W := Env.Scripted) []
              (Env.Script [Raise URLError; Raise URLError; Return []] []) in
  let q := Template "licenses" [] in
  sparql_is_up (snd (run_query q None None st)) = false
  /\ logging (snd (run_query q None None st)) = [Log ERROR msg_down []].
Proof.
  intros st q.
  exact (proj1 (proj2 (proj2 (connection_messages (W := Env.Scripted) [] st)))
           q None None (Env.Script [Raise URLError; Return []] [q]) eq_refl eq_refl).
Defined.

(** C5 as amended.  When the endpoint fails, the call returns the empty
    list and raises nothing.  For a malformed query and for any other
    error of the backend the text of the query is logged.  For a failure
    of the connection the text of the query is not logged: the only record
    is the message that the connection is down, and only when the flag
    was up. *)
Theorem query_failure `{W : World} (q : query) (cache_key_string : option query)
    (prefix : option string) (st : SparqlInterface) (e : exn) (s' : store) :
  cache_miss cache_key_string prefix st ->
  sparql_query q (sparql st) = (Raise e, s') ->
  fst (run_query q cache_key_string prefix st) = Return []
  /\ exists extra,
       logging (snd (run_query q cache_key_string prefix st)) = (logging st ++ extra)%list
       /\ (e = URLError ->
           extra = (if sparql_is_up st then [Log ERROR msg_down []] else [])
           /\ ~ query_logged q extra)
       /\ (e <> URLError -> query_logged q extra).
Proof.
  intros Hmiss Hq. rewrite run_query_cases.
  unfold cache_miss in Hmiss. rewrite Hmiss, Hq. cbn [fst snd].
  split; [reflexivity|].
  destruct st as [i g p c s u l d].
  destruct e; cbn;
    try (eexists; split; [reflexivity|]; split; [intros [=] | intros _];
         unfold query_logged;
         first [ solve [apply Exists_cons; right; apply Exists_cons; left;
                        cbn; apply list_elem_of_here]
               | solve [apply Exists_cons; right; apply Exists_cons; right;
                        apply Exists_cons; left; cbn; apply list_elem_of_here] ]).
  destruct u; cbn.
  - eexists. split; [reflexivity|]. split; [|intros H; contradiction].
    intros _. split; [reflexivity|]. unfold query_logged.
    intros H. apply Exists_cons in H as [H | H]; [cbn in H; inversion H | inversion H].
  - exists []. rewrite app_nil_r. split; [reflexivity|]. split; [|intros H; contradiction].
    intros _. split; [reflexivity|]. intros H. inversion H.
Qed.

Lemma query_failure_witness :
  let st := init (W := Env.Scripted) [] (Env.Script [Raise QueryBadFormed] []) in
  let q := Template "licenses" [] in
  fst (run_query q None None st) = Return []
  /\ query_logged q (logging (snd (run_query q None None st))).
Proof.
  intros st q.
  destruct (query_failure (W := Env.Scripted) q None None st QueryBadFormed
              (Env.Script [] [q]) eq_refl eq_refl) as (Hr & extra & Hl & _ & Hq).
  split; [exact Hr|]. rewrite Hl. apply Hq. discriminate.
Defined.

(** C5 as stated fails: a query that cannot reach the endpoint is answered
    by the empty list, but its text is not logged. *)
Lemma query_failure_counterexample :
  ~ failure_logs_query (W := Env.Scripted) (Template "licenses" []) None None
      (init (W := Env.Scripted) [] (Env.Script [] [])).
Proof.
  intros H.
  destruct (H URLError (Env.Script [] [Template "licenses" []]) eq_refl eq_refl)
    as (_ & extra & Hl & Hq).
  cbn in Hl. subst extra.
  unfold query_logged in Hq.
  apply Exists_cons in Hq as [Hq | Hq]; [cbn in Hq; inversion Hq | inversion Hq].
Qed.

(* --------------------------------------------------------------------- *)
(** ** What a query leaves alone                                          *)
(* --------------------------------------------------------------------- *)

Section Frames.
Context `{W : World}.

Lemma run_query_returns q cache_key_string prefix st :
  exists results, fst (run_query q cache_key_string prefix st) = Return results.
Proof.
  rewrite run_query_cases.
  destruct (match cache_key_string with Some _ => _ | None => _ end); [eauto|].
  destruct (sparql_query q (sparql st)) as [[rows|e] s]; [|eauto].
  destruct (map_list normalize_binding rows (set_sparql s st)) as [[results|e] st2]; eauto.
Qed.

Lemma run_query_frame q cache_key_string prefix st :
  let st' := snd (run_query q cache_key_string prefix st) in
  ids st' = ids st /\ state_graph st' = state_graph st
  /\ privileges st' = privileges st /\ drawn st' = drawn st
  /\ (cache_key_string = None -> cache st' = cache st).
Proof.
  cbv zeta. rewrite run_query_cases.
  destruct (match cache_key_string with Some _ => _ | None => _ end);
    [cbn; auto 6|].
  destruct (sparql_query q (sparql st)) as [[rows|e] s].
  - destruct (map_list_normalize_logs rows (set_sparql s st)) as (e1 & Hmore & _).
    destruct (map_list normalize_binding rows (set_sparql s st)) as [[results|e] st2];
      cbn [snd] in *; unfold logs_more in Hmore; subst st2;
      destruct st as [i g p c s0 u l d].
    + unfold answered. destruct cache_key_string; destruct u; cbn;
        repeat split; auto; discriminate.
    + destruct e; cbn; try (repeat split; reflexivity).
      destruct u; cbn; repeat split; reflexivity.
  - destruct st as [i g p c s0 u l d].
    destruct e; cbn; try (repeat split; reflexivity).
    destruct u; cbn; repeat split; reflexivity.
Qed.

(** Without a hit of the cache the endpoint is asked once. *)
Lemma run_query_store q cache_key_string prefix st :
  cache_miss cache_key_string prefix st ->
  sparql (snd (run_query q cache_key_string prefix st))
  = snd (sparql_query q (sparql st)).
Proof.
  intros Hmiss. rewrite run_query_cases. unfold cache_miss in Hmiss. rewrite Hmiss.
  destruct (sparql_query q (sparql st)) as [[rows|e] s]; cbn [snd].
  - destruct (map_list_normalize_logs rows (set_sparql s st)) as (e1 & Hmore & _).
    destruct (map_list normalize_binding rows (set_sparql s st)) as [[results|e] st2];
      cbn [snd] in *; unfold logs_more in Hmore; subst st2;
      destruct st as [i g p c s0 u l d].
    + unfold answered. destruct cache_key_string; destruct u; reflexivity.
    + destruct e; try reflexivity. destruct u; reflexivity.
  - destruct st as [i g p c s0 u l d].
    destruct e; try reflexivity. destruct u; reflexivity.
Qed.

End Frames.

(* --------------------------------------------------------------------- *)
(** ** Start-up                                                           *)
(* --------------------------------------------------------------------- *)

Section Startup.
Context `{W : World}.

(** [__highest_id] from the answer to its query. *)
Lemma highest_id_cases item st :
  highest_id item st =
  (match fst (run_query (highest_id_query item st) None None st) with
   | Return [] => Return (VInt 0)
   | Return (Row r :: _) =>
       match dict_get "id" r with Some v => Return v | None => Return VNone end
   | Return (Scalar _ :: _) => Raise TypeError
   | Raise e => Raise e
   end, snd (run_query (highest_id_query item st) None None st)).
Proof.
  unfold highest_id. unfold bind at 1. unfold query_from_template, gets.
  change (Template "highest_id"
            (dict_merge [("item_type", VStr (to_camel item))]
                        [("state_graph", VStr (state_graph st))]))
    with (highest_id_query item st).
  unfold try_except, bind.
  destruct (run_query_returns (highest_id_query item st) None None st) as [results Hr].
  destruct (run_query (highest_id_query item st) None None st) as [r st1].
  cbn [fst snd] in *. subst r.
  destruct results as [|[r|s] rest]; cbn; [reflexivity| |reflexivity].
  destruct (dict_get "id" r); reflexivity.
Qed.

Lemma dict_get_set_eq {V} (k : string) (v : V) (d : dict string V) :
  dict_get k (dict_set k v d) = Some v.
Proof.
  induction d as [|[k' v'] d IH]; cbn.
  - destruct (decide (k = k)); [reflexivity | contradiction].
  - destruct (decide (k = k')) as [->|Hne]; cbn.
    + destruct (decide (k' = k')); [reflexivity | contradiction].
    + destruct (decide (k = k')); [contradiction | exact IH].
Qed.

Lemma dict_get_set_ne {V} (k k0 : string) (v : V) (d : dict string V) :
  k0 <> k -> dict_get k0 (dict_set k v d) = dict_get k0 d.
Proof.
  intros Hne. induction d as [|[k' v'] d IH]; cbn.
  - destruct (decide (k0 = k)); [contradiction | reflexivity].
  - destruct (decide (k = k')) as [->|Hk]; cbn.
    + destruct (decide (k0 = k')); [contradiction | reflexivity].
    + destruct (decide (k0 = k')); [reflexivity | exact IH].
Qed.

(** One turn of the first loop of [load_state]. *)
Lemma load_counter_cases item st :
  load_counter item st =
  let st1 := snd (highest_id item st) in
  match fst (highest_id item st) with
  | Return v =>
      (match v with VNone => Raise UnknownDatabaseState | _ => Return tt end,
       set_ids (dict_set item v (ids st1)) st1)
  | Raise e => (Raise e, st1)
  end.
Proof.
  unfold load_counter. unfold bind at 1.
  destruct (highest_id item st) as [[v|e] st1]; cbn [fst snd]; [|reflexivity].
  unfold bind at 1. unfold modify at 1. unfold bind at 1.
  unfold IdGenerator.current_id, IdGenerator.set_id. cbn [ids set_ids].
  rewrite dict_get_set_eq. destruct v; reflexivity.
Qed.

(** The loop of [load_state] while the endpoint cannot be reached: every
    kind of the loop gets the counter 0. *)
Lemma load_loop_unreachable (P : store -> Prop) items :
  (forall q s0, P s0 ->
     fst (sparql_query q s0) = Raise URLError /\ P (snd (sparql_query q s0))) ->
  forall st,
  P (sparql st) ->
  let r := for_each items load_counter st in
  fst r = Return tt
  /\ P (sparql (snd r))
  /\ (forall item, item ∈ items -> dict_get item (ids (snd r)) = Some (VInt 0))
  /\ (forall item, item ∉ items -> dict_get item (ids (snd r)) = dict_get item (ids st))
  /\ (items <> [] -> sparql_is_up (snd r) = false).
Proof.
  intros HP. induction items as [|item items IH]; intros st Hst.
  - cbn. repeat split; auto. intros item H. inversion H. intros H; contradiction.
  - cbv zeta.
    set (q := highest_id_query item st).
    destruct (HP q (sparql st) Hst) as [Hfail HP'].
    set (s' := snd (sparql_query q (sparql st))) in *.
    set (st2 := set_ids (dict_set item (VInt 0) (ids (handled q URLError (set_sparql s' st))))
                  (handled q URLError (set_sparql s' st))).
    assert (for_each (item :: items) load_counter st = for_each items load_counter st2) as ->.
    { cbn [for_each]. unfold bind.
      rewrite load_counter_cases, highest_id_cases. cbv zeta. fold q.
      pose proof (run_query_cases q None None st) as Hc. cbn beta iota in Hc.
      destruct (sparql_query q (sparql st)) as [answer s0] eqn:Eq. cbn [fst snd] in *.
      subst answer. rewrite Hc. reflexivity. }
    assert (sparql st2 = s' /\ sparql_is_up st2 = false
            /\ ids st2 = dict_set item (VInt 0) (ids st)) as (Hs2 & Hu2 & Hi2).
    { unfold st2. destruct st as [i g p c s u l d]. cbn. destruct u; cbn; auto. }
    destruct (IH st2) as (R1 & R2 & R4 & R5 & R6).
    { rewrite Hs2. exact HP'. }
    split; [exact R1|]. split; [exact R2|]. split; [|split].
    + intros k Hk. destruct (decide (k ∈ items)) as [Hki|Hki]; [apply R4; exact Hki|].
      rewrite (R5 k Hki). inversion Hk; subst; [|contradiction].
      rewrite Hi2. apply dict_get_set_eq.
    + intros k Hk. rewrite R5.
      * rewrite Hi2, dict_get_set_ne; [reflexivity|].
        intros ->. apply Hk. left.
      * intros Hki. apply Hk. right. exact Hki.
    + intros _. destruct items as [|item' items'].
      * cbn. exact Hu2.
      * apply R6. discriminate.
Qed.

Lemma load_state_returned werkzeug_run_main st st1 :
  for_each (IdGenerator.keys (ids st)) load_counter st = (Return tt, st1) ->
  load_state werkzeug_run_main st =
  if negb werkzeug_run_main && sparql_is_up st1
  then for_each (IdGenerator.keys (ids st1)) log_counter st1
  else (Return tt, st1).
Proof.
  intros E. unfold load_state. unfold bind at 1. unfold try_except.
  unfold bind at 1. unfold gets at 1. rewrite E.
  unfold bind at 1. unfold gets at 1.
  destruct (negb werkzeug_run_main && sparql_is_up st1); reflexivity.
Qed.

Lemma load_state_raised werkzeug_run_main st st1 e :
  for_each (IdGenerator.keys (ids st)) load_counter st = (Raise e, st1) ->
  e <> EmptyDatabase ->
  load_state werkzeug_run_main st = (Raise e, st1).
Proof.
  intros E He. unfold load_state. unfold bind at 1. unfold try_except.
  unfold bind at 1. unfold gets at 1. rewrite E.
  destruct e; try reflexivity. contradiction.
Qed.

Lemma dict_get_keys {V} (k : string) (d : dict string V) :
  k ∈ map fst d -> exists v, dict_get k d = Some v.
Proof.
  induction d as [|[k' v'] d IH]; cbn; intros H.
  - inversion H.
  - destruct (decide (k = k')); [eauto|].
    apply IH. apply elem_of_cons in H as [H | H]; [contradiction | exact H].
Qed.

(** The second loop of [load_state] writes one record for each kind and
    changes nothing else. *)
Lemma log_loop items : forall st,
  (forall item, item ∈ items -> exists v, dict_get item (ids st) = Some v) ->
  let r := for_each items log_counter st in
  fst r = Return tt /\ ids (snd r) = ids st /\ sparql (snd r) = sparql st
  /\ exists extra,
       logging (snd r) = (logging st ++ extra)%list /\ length extra = length items.
Proof.
  induction items as [|item items IH]; intros st Hall.
  - cbn. repeat split. exists []. rewrite app_nil_r. auto.
  - cbv zeta. destruct (Hall item ltac:(left)) as [v Hv].
    set (st1 := set_logging (logging st ++ [Log INFO "%s enumerator set to %d"
                                              [ArgStr item; ArgValue v]])%list st).
    assert (for_each (item :: items) log_counter st = for_each items log_counter st1) as ->.
    { cbn [for_each]. unfold bind at 1. unfold log_counter at 1. unfold bind at 1.
      unfold IdGenerator.current_id. rewrite Hv. reflexivity. }
    destruct (IH st1) as (R1 & R2 & R3 & extra & R4 & R5).
    { intros item0 Hin. unfold st1. destruct st; cbn. apply Hall. right. exact Hin. }
    split; [exact R1|]. split; [rewrite R2; destruct st; reflexivity|].
    split; [rewrite R3; destruct st; reflexivity|].
    eexists. split.
    + rewrite R4. unfold st1. destruct st; cbn. rewrite <- app_assoc. reflexivity.
    + cbn. rewrite R5. reflexivity.
Qed.

Lemma for_each_app {A} (a b : list A) (body : A -> M unit) st :
  for_each (a ++ b)%list body st
  = match for_each a body st with
    | (Return _, st') => for_each b body st'
    | (Raise e, st') => (Raise e, st')
    end.
Proof.
  revert st. induction a as [|x a IH]; intros st; [reflexivity|].
  cbn [app for_each]. unfold bind.
  destruct (body x st) as [[[]|e] st1]; [apply IH | reflexivity].
Qed.

(** [__highest_id] changes no counter and sends its one query. *)
Lemma highest_id_frame item st :
  ids (snd (highest_id item st)) = ids st
  /\ sparql (snd (highest_id item st))
     = snd (sparql_query (highest_id_query item st) (sparql st)).
Proof.
  rewrite highest_id_cases. cbn [snd].
  destruct (run_query_frame (highest_id_query item st) None None st) as (Hi & _).
  split; [exact Hi|]. apply run_query_store. reflexivity.
Qed.

(** The first loop of [load_state] leaves the counters of the other kinds
    alone. *)
Lemma load_loop_frame items : forall st k,
  k ∉ items ->
  dict_get k (ids (snd (for_each items load_counter st))) = dict_get k (ids st).
Proof.
  induction items as [|item items IH]; intros st k Hk; [reflexivity|].
  assert (k <> item) as Hne by (intros ->; apply Hk; left).
  assert (k ∉ items) as Hni by (intros H; apply Hk; right; exact H).
  cbn [for_each]. unfold bind. rewrite load_counter_cases. cbv zeta.
  destruct (highest_id_frame item st) as [Hi _].
  destruct (highest_id item st) as [[v|e] st1]; cbn [fst snd] in *; [|congruence].
  assert (dict_get k (ids (set_ids (dict_set item v (ids st1)) st1)) = dict_get k (ids st))
    as Hstep.
  { destruct st1; cbn [ids set_ids] in *. rewrite dict_get_set_ne by exact Hne.
    congruence. }
  destruct v; try (rewrite IH by exact Hni; exact Hstep). exact Hstep.
Qed.

(** The first loop of [load_state] on a store without rows: every kind of
    the loop gets the counter 0. *)
Lemma load_loop_barren (P : store -> Prop) items :
  (forall q s0, P s0 ->
     (fst (sparql_query q s0) = Return [] \/ exists e, fst (sparql_query q s0) = Raise e)
     /\ P (snd (sparql_query q s0))) ->
  forall st,
  P (sparql st) ->
  let r := for_each items load_counter st in
  fst r = Return tt
  /\ (forall item, item ∈ items -> dict_get item (ids (snd r)) = Some (VInt 0)).
Proof.
  intros HP. induction items as [|item items IH]; intros st Hst.
  - cbn. split; [reflexivity|]. intros item H; inversion H.
  - cbv zeta.
    set (q := highest_id_query item st).
    destruct (HP q (sparql st) Hst) as [Hrows HP'].
    assert (fst (run_query q None None st) = Return []) as Hrun.
    { rewrite run_query_cases. cbn beta iota.
      destruct (sparql_query q (sparql st)) as [[rows|e] s]; cbn [fst] in Hrows.
      - destruct Hrows as [[= ->] | [e He]]; [reflexivity | discriminate He].
      - reflexivity. }
    destruct (run_query_frame q None None st) as (Hi & _).
    pose proof (run_query_store q None None st eq_refl) as Hs.
    set (st1 := snd (run_query q None None st)) in *.
    set (st2 := set_ids (dict_set item (VInt 0) (ids st1)) st1).
    assert (for_each (item :: items) load_counter st = for_each items load_counter st2) as ->.
    { cbn [for_each]. unfold bind.
      rewrite load_counter_cases, highest_id_cases. cbv zeta. fold q.
      rewrite Hrun. reflexivity. }
    assert (sparql st2 = sparql st1 /\ ids st2 = dict_set item (VInt 0) (ids st))
      as (Hs2 & Hi2).
    { unfold st2. rewrite <- Hi. destruct st1; split; reflexivity. }
    destruct (IH st2) as (R1 & R2).
    { rewrite Hs2, Hs. exact HP'. }
    split; [exact R1|].
    intros k Hk. destruct (decide (k ∈ items)) as [Hki|Hki]; [apply R2; exact Hki|].
    rewrite load_loop_frame by exact Hki.
    apply elem_of_cons in Hk as [-> | Hk]; [|contradiction].
    rewrite Hi2. apply dict_get_set_eq.
Qed.

End Startup.

(** C4 as amended.  When the endpoint cannot be reached, [load_state]
    raises nothing and leaves every counter at 0, and so it does, more
    generally, on a store that has no row for any kind.  The unknown state
    of the database is raised out of [load_state] as soon as the first row
    of the answer for one kind holds no identifier, whatever the place of
    the kind among the kinds: no query is sent after the one of this kind,
    and the counters of the kinds after it are left as they were. *)
Theorem load_state_startup `{W : World} (werkzeug_run_main : bool)
    (st : SparqlInterface) :
  (unreachable (sparql st) ->
     fst (load_state werkzeug_run_main st) = Return tt
     /\ forall item, item ∈ IdGenerator.keys (ids st) ->
          dict_get item (ids (snd (load_state werkzeug_run_main st))) = Some (VInt 0))
  /\ (barren (sparql st) ->
      fst (load_state werkzeug_run_main st) = Return tt
      /\ forall item, item ∈ IdGenerator.keys (ids st) ->
           dict_get item (ids (snd (load_state werkzeug_run_main st))) = Some (VInt 0))
  /\ (forall before item rest r more,
        IdGenerator.keys (ids st) = (before ++ item :: rest)%list ->
        let st0 := snd (for_each before load_counter st) in
        fst (for_each before load_counter st) = Return tt ->
        fst (run_query (highest_id_query item st0) None None st0) = Return (Row r :: more) ->
        dict_get "id" r = None \/ dict_get "id" r = Some VNone ->
        fst (load_state werkzeug_run_main st) = Raise UnknownDatabaseState
        /\ sparql (snd (load_state werkzeug_run_main st))
           = snd (sparql_query (highest_id_query item st0) (sparql st0))
        /\ forall k, k ∈ rest -> k ∉ before -> k <> item ->
             dict_get k (ids (snd (load_state werkzeug_run_main st))) = dict_get k (ids st)).
Proof.
  assert (barren (sparql st) ->
          fst (load_state werkzeug_run_main st) = Return tt
          /\ forall item, item ∈ IdGenerator.keys (ids st) ->
               dict_get item (ids (snd (load_state werkzeug_run_main st))) = Some (VInt 0))
    as Hbarren.
  { intros (P & HPs & HP).
    destruct (load_loop_barren P (IdGenerator.keys (ids st)) HP st HPs) as (R1 & R2).
    destruct (for_each (IdGenerator.keys (ids st)) load_counter st) as [x st1] eqn:E.
    cbn [fst snd] in *. subst x.
    rewrite (load_state_returned _ _ _ E).
    destruct (negb werkzeug_run_main && sparql_is_up st1);
      [|split; [reflexivity | exact R2]].
    destruct (log_loop (IdGenerator.keys (ids st1)) st1) as (L1 & L2 & _).
    { intros item Hin. apply dict_get_keys. exact Hin. }
    split; [exact L1|]. intros item Hin. rewrite L2. apply R2. exact Hin. }
  split; [|split; [exact Hbarren|]].
  - intros (P & HPs & HP). apply Hbarren. exists P. split; [exact HPs|].
    intros q s0 Hs0. destruct (HP q s0 Hs0) as [Hf Hn]. split; [|exact Hn].
    right. exists URLError. exact Hf.
  - intros before item rest r more Hkeys st0 Hbefore Hrun Hid.
    set (q := highest_id_query item st0) in *.
    set (st1 := snd (run_query q None None st0)).
    assert (for_each (IdGenerator.keys (ids st)) load_counter st
            = (Raise UnknownDatabaseState, set_ids (dict_set item VNone (ids st1)) st1)) as E.
    { rewrite Hkeys, for_each_app.
      destruct (for_each before load_counter st) as [x st0'] eqn:Eb.
      cbn [fst snd] in *. subst x. subst st0.
      cbn [for_each]. unfold bind at 1.
      rewrite load_counter_cases, highest_id_cases. cbv zeta. fold q. rewrite Hrun.
      cbn [fst snd]. fold st1. destruct Hid as [-> | ->]; reflexivity. }
    rewrite (load_state_raised _ _ _ _ E ltac:(discriminate)). cbn [fst snd].
    destruct (run_query_frame q None None st0) as (Hi & _). fold st1 in Hi.
    split; [reflexivity|]. split.
    + pose proof (run_query_store q None None st0 eq_refl) as Hs. fold st1 in Hs.
      rewrite <- Hs. destruct st1; reflexivity.
    + intros k _ Hkb Hki.
      replace (ids (set_ids (dict_set item VNone (ids st1)) st1))
        with (dict_set item VNone (ids st1)) by (destruct st1; reflexivity).
      rewrite dict_get_set_ne by exact Hki. rewrite Hi.
      apply load_loop_frame. exact Hkb.
Qed.

Lemma load_state_startup_witness :
  let down := init (W := Env.Scripted) [("article", VNone); ("collection", VNone)]
                (Env.Script [] []) in
  let id_cell := Binding "typed-literal" (Some xsd_integer) "41" in
  let odd := init (W := Env.Scripted)
               [("article", VNone); ("collection", VNone); ("file", VNone)]
               (Env.Script [Return [[("id", id_cell)]]; Return [[("n", id_cell)]]] []) in
  unreachable (W := Env.Scripted) (sparql down)
  /\ fst (load_state false down) = Return tt
  /\ dict_get "collection" (ids (snd (load_state false down))) = Some (VInt 0)
  /\ fst (load_state false odd) = Raise UnknownDatabaseState
  /\ Env.answers (sparql (snd (load_state false odd))) = []
  /\ length (Env.received (sparql (snd (load_state false odd)))) = 2%nat
  /\ dict_get "file" (ids (snd (load_state false odd))) = Some VNone.
Proof.
  intros down id_cell odd.
  assert (unreachable (W := Env.Scripted) (sparql down)) as Hun.
  { exists (fun s => Env.answers s = []). split; [reflexivity|].
    intros q [a r] Ha. cbn in Ha. subst a. split; reflexivity. }
  split; [exact Hun|].
  destruct (proj1 (load_state_startup (W := Env.Scripted) false down) Hun) as [Hr Hids].
  split; [exact Hr|]. split; [apply Hids; right; left|].
  destruct (proj2 (proj2 (load_state_startup (W := Env.Scripted) false odd))
              ["article"] "collection" ["file"] [("n", VInt 41)] []
              eq_refl eq_refl eq_refl (or_introl eq_refl)) as (Hraise & Hstore & Hrest).
  split; [exact Hraise|]. rewrite Hstore.
  split; [reflexivity|]. split; [reflexivity|].
  rewrite (Hrest "file"); [reflexivity | left | |discriminate].
  intros H. apply elem_of_cons in H as [H | H]; [discriminate H | inversion H].
Defined.

(** C4 as stated fails.  With two kinds, on an endpoint that cannot be
    reached and on a store that answers both kinds without a row,
    [load_state] leaves the counters at 0, not unset, and logs no
    warning. *)
Lemma load_state_counterexample :
  ~ startup_claim false
      (init (W := Env.Scripted) [("article", VNone); ("collection", VNone)]
         (Env.Script [] []))
  /\ ~ startup_claim false
        (init (W := Env.Scripted) [("article", VNone); ("collection", VNone)]
           (Env.Script [Return []; Return []] [])).
Proof.
  split.
  - intros [_ H]. destruct (H (or_introl eq_refl)) as (_ & _ & Hc).
    specialize (Hc "article" ltac:(left)). discriminate Hc.
  - intros [_ H]. destruct (H (or_intror eq_refl)) as (_ & _ & Hc).
    specialize (Hc "article" ltac:(left)). discriminate Hc.
Qed.

(* --------------------------------------------------------------------- *)
(** ** Accounts                                                           *)
(* --------------------------------------------------------------------- *)

Section Privileges.
Context `{W : World}.

(** [account_by_session_token] by the answer of its query. *)
Lemma account_by_session_token_answer session_token st o :
  let q := Template "account_by_session_token"
             [("token", session_token); ("state_graph", VStr (state_graph st))] in
  let r := run_query q None None st in
  fst r = Return o ->
  account_by_session_token session_token st
  = (match o with
     | [] => Return None
     | Scalar _ :: _ => Raise TypeError
     | Row account :: _ =>
         match dict_get "account_id" account with
         | None => Return (Some (Row account))
         | Some v =>
             match py_int v with
             | Raise KeyError => Return (Some (Row account))
             | Raise IndexError => Return None
             | Raise e => Raise e
             | Return n =>
                 match dict_get (VInt n) (privileges st) with
                 | Some p => Return (Some (Row (dict_merge account p)))
                 | None => Return (Some (Row account))
                 end
             end
         end
     end, snd r).
Proof.
  intros q r Ho. unfold account_by_session_token.
  unfold bind at 1. unfold query_from_template, gets.
  change (Template "account_by_session_token"
            (dict_merge [("token", session_token)]
                        [("state_graph", VStr (state_graph st))])) with q.
  destruct (run_query_frame q None None st) as (_ & _ & Hp & _).
  fold r in Hp. unfold try_except at 1. unfold bind at 1. fold r.
  destruct r as [o' st1]. cbn [fst snd] in *. subst o'.
  destruct o as [|[account|s] rest]; [reflexivity| |reflexivity].
  cbn [first]. unfold bind at 1. unfold ret at 1.
  unfold try_except. unfold bind at 1. cbn [subscript].
  destruct (dict_get "account_id" account) as [v|]; [|reflexivity].
  unfold ret at 1. unfold bind at 1. unfold lift.
  destruct (py_int v) as [n|e]; [|destruct e; reflexivity].
  unfold bind at 1. rewrite Hp.
  destruct (dict_get (VInt n) (privileges st)); reflexivity.
Qed.

(** [__may_execute_role] by what [account_by_session_token] returns. *)
Lemma may_execute_role_answer session_token task st o st1 :
  account_by_session_token session_token st = (o, st1) ->
  may_execute_role session_token task st
  = (match o with
     | Return None => Return (VBool false)
     | Return (Some (Scalar _)) => Return (VBool false)
     | Return (Some (Row account)) =>
         match dict_get ("may_" +:+ task) account with
         | Some v => Return v
         | None => Return (VBool false)
         end
     | Raise e => Raise e
     end, st1).
Proof.
  intros Ha. unfold may_execute_role. unfold bind at 1. rewrite Ha.
  destruct o as [[[account|s]|]|e]; try reflexivity.
  unfold try_except. cbn [subscript].
  destruct (dict_get ("may_" +:+ task) account); reflexivity.
Qed.

End Privileges.

(** C10 as amended.  [account_by_session_token] returns [None] when the
    store has no row for the token, and [may_administer] and
    [may_impersonate] then return [False].  When it has a row whose
    "account_id" is missing, or reads as an integer under which the
    privileges hold nothing, the row is returned as it is and nothing is
    raised; [may_administer] and [may_impersonate] then return what the
    row itself holds under "may_administer" and "may_impersonate", and
    [False] when it holds nothing there.  When the "account_id" of the row
    does not read as an integer, the exception of [int] comes out of the
    three methods. *)
Theorem account_without_privileges `{W : World} (session_token : value)
    (st : SparqlInterface) :
  let q := Template "account_by_session_token"
             [("token", session_token); ("state_graph", VStr (state_graph st))] in
  let r := run_query q None None st in
  (fst r = Return [] ->
     account_by_session_token session_token st = (Return None, snd r)
     /\ may_administer session_token st = (Return (VBool false), snd r)
     /\ may_impersonate session_token st = (Return (VBool false), snd r))
  /\ (forall account rest,
        fst r = Return (Row account :: rest) ->
        (dict_get "account_id" account = None
         \/ exists v n, dict_get "account_id" account = Some v
                        /\ py_int v = Return n
                        /\ dict_get (VInt n) (privileges st) = None) ->
        account_by_session_token session_token st = (Return (Some (Row account)), snd r)
        /\ may_administer session_token st
           = (Return match dict_get "may_administer" account with
                     | Some v => v
                     | None => VBool false
                     end, snd r)
        /\ may_impersonate session_token st
           = (Return match dict_get "may_impersonate" account with
                     | Some v => v
                     | None => VBool false
                     end, snd r))
  /\ (forall account rest v e,
        fst r = Return (Row account :: rest) ->
        dict_get "account_id" account = Some v ->
        py_int v = Raise e -> e <> KeyError -> e <> IndexError ->
        account_by_session_token session_token st = (Raise e, snd r)
        /\ may_administer session_token st = (Raise e, snd r)
        /\ may_impersonate session_token st = (Raise e, snd r)).
Proof.
  intros q r. split; [|split].
  - intros Ho.
    pose proof (account_by_session_token_answer session_token st [] Ho) as Ha.
    cbv zeta in Ha. fold q r in Ha.
    split; [exact Ha|]. unfold may_administer, may_impersonate.
    rewrite !(may_execute_role_answer _ _ _ _ _ Ha). auto.
  - intros account rest Ho Hid.
    assert (account_by_session_token session_token st
            = (Return (Some (Row account)), snd r)) as Ha.
    { pose proof (account_by_session_token_answer session_token st _ Ho) as Ha.
      cbv zeta in Ha. fold q r in Ha. rewrite Ha.
      destruct Hid as [-> | (v & n & -> & -> & ->)]; reflexivity. }
    split; [exact Ha|]. unfold may_administer, may_impersonate.
    rewrite !(may_execute_role_answer _ _ _ _ _ Ha).
    change ("may_" +:+ "administer") with "may_administer".
    change ("may_" +:+ "impersonate") with "may_impersonate".
    split; [destruct (dict_get "may_administer" account)
           |destruct (dict_get "may_impersonate" account)]; reflexivity.
  - intros account rest v e Ho Hid He Hk Hi.
    assert (account_by_session_token session_token st = (Raise e, snd r)) as Ha.
    { pose proof (account_by_session_token_answer session_token st _ Ho) as Ha.
      cbv zeta in Ha. fold q r in Ha. rewrite Ha, Hid, He.
      destruct e; try reflexivity; contradiction. }
    split; [exact Ha|]. unfold may_administer, may_impersonate.
    rewrite !(may_execute_role_answer _ _ _ _ _ Ha). auto.
Qed.

Lemma account_without_privileges_witness :
  let account := [("account_id", Binding "typed-literal" (Some xsd_integer) "7");
                  ("email", Binding "typed-literal" (Some xsd_string) "a@example.org")] in
  let st := Interface (W := Env.Scripted) []
              "https://data.4tu.nl/portal/self-test"
              [(VStr "admin@example.org", [("may_administer", VBool true)])]
              (CacheLayer.Cache None []) (Env.Script [Return [account]] []) true [] O in
  fst (account_by_session_token (VStr "token") st)
    = Return (Some (Row [("account_id", VInt 7); ("email", VStr "a@example.org")]))
  /\ fst (may_administer (VStr "token") st) = Return (VBool false).
Proof.
  intros account st.
  destruct (proj1 (proj2 (account_without_privileges (W := Env.Scripted) (VStr "token") st))
              [("account_id", VInt 7); ("email", VStr "a@example.org")] [] eq_refl)
    as (Ha & Hm & _).
  { right. exists (VInt 7), 7. repeat split. }
  rewrite Ha, Hm. split; reflexivity.
Defined.

(** C10 as stated fails.  With empty privileges, a row that holds
    "may_administer" itself makes [may_administer] return [True], and a
    row whose "account_id" is the text "abc" makes
    [account_by_session_token] raise [ValueError]. *)
Lemma account_counterexample :
  let privileged := [("account_id", Binding "typed-literal" (Some xsd_integer) "7");
                     ("may_administer", Binding "typed-literal" (Some xsd_boolean) "1")] in
  let unnumbered := [("account_id", Binding "uri" None "abc");
                     ("email", Binding "typed-literal" (Some xsd_string) "a@example.org")] in
  ~ no_privileges_claim (W := Env.Scripted) (VStr "token")
      (init (W := Env.Scripted) [] (Env.Script [Return [privileged]] []))
  /\ ~ no_privileges_claim (W := Env.Scripted) (VStr "token")
        (init (W := Env.Scripted) [] (Env.Script [Return [unnumbered]] [])).
Proof.
  split.
  - intros [_ H].
    destruct (H [("account_id", VInt 7); ("may_administer", VBool true)] [] eq_refl)
      as (_ & Hm & _).
    + intros v Hv. split; [reflexivity | intros n _; reflexivity].
    + discriminate Hm.
  - intros [_ H].
    destruct (H [("account_id", VStr "abc"); ("email", VStr "a@example.org")] [] eq_refl)
      as (Ha & _).
    + intros v Hv. split; [reflexivity | intros n _; reflexivity].
    + discriminate Ha.
Qed.

(* --------------------------------------------------------------------- *)
(** ** Free-text filters                                                  *)
(* --------------------------------------------------------------------- *)

(** C1 (the code departs from it).  The value of [search_for] is embedded
    as it is: a double quote in it ends the string literal of the CONTAINS
    test.  With a harmless value each of the three fragments has the eight
    delimiters of its four literals; with a quote in the value it has
    twelve; with the escaping that [delete_article_reference] applies to
    its [url] it would have eight again. *)
Theorem search_for_is_not_escaped :
  let harmless := "ab" in
  let hostile := "a" +:+ dq +:+ "b" in
  datasets_search_for (Some hostile)
    = "FILTER (CONTAINS(STR(?title),          " +:+ dq +:+ "a" +:+ dq +:+ "b" +:+ dq +:+ ") OR" +:+ nl +:+
      "        CONTAINS(STR(?resource_title), " +:+ dq +:+ "a" +:+ dq +:+ "b" +:+ dq +:+ ") OR" +:+ nl +:+
      "        CONTAINS(STR(?description),    " +:+ dq +:+ "a" +:+ dq +:+ "b" +:+ dq +:+ ") OR" +:+ nl +:+
      "        CONTAINS(STR(?citation),       " +:+ dq +:+ "a" +:+ dq +:+ "b" +:+ dq +:+ "))"
  /\ unescaped_quotes (datasets_search_for (Some harmless)) = 8%nat
  /\ unescaped_quotes (datasets_search_for (Some hostile)) = 12%nat
  /\ unescaped_quotes (authors_search_for (Some hostile)) = 12%nat
  /\ unescaped_quotes (collections_search_for (Some hostile)) = 12%nat
  /\ datasets_search_for (Some hostile) <> datasets_search_for (Some (escape_quotes hostile))
  /\ unescaped_quotes (datasets_search_for (Some (escape_quotes hostile))) = 8%nat
  /\ unescaped_quotes (authors_search_for (Some (escape_quotes hostile))) = 8%nat
  /\ unescaped_quotes (collections_search_for (Some (escape_quotes hostile))) = 8%nat.
Proof.
  cbv zeta. repeat split; try reflexivity.
  vm_compute. discriminate.
Qed.

(* --------------------------------------------------------------------- *)
(** ** Cache invalidation and identifier allocation                       *)
(* --------------------------------------------------------------------- *)

Section Writes.
Context `{W : World}.

Lemma bind_state {A B} (m : M A) (k : A -> M B) st :
  snd (bind m k st) =
  match fst (m st) with
  | Return a => snd (k a (snd (m st)))
  | Raise _ => snd (m st)
  end.
Proof. unfold bind. destruct (m st) as [[a|e] st']; reflexivity. Qed.

Lemma ids_next_id_frame item st :
  cache (snd (ids_next_id item st)) = cache st
  /\ sparql (snd (ids_next_id item st)) = sparql st
  /\ ids (snd (ids_next_id item st)) = snd (IdGenerator.next_id item (ids st)).
Proof.
  unfold ids_next_id. destruct (IdGenerator.next_id item (ids st)) as [r g].
  destruct st; cbn; auto.
Qed.

(** An insertion of a graph leaves the cache alone. *)
Lemma insert_graph_cache {A} graph (k : list result_row -> M A) st :
  (forall results st0, cache (snd (k results st0)) = cache st0) ->
  cache (snd ((q <- insert_query_for_graph graph ;;
               results <- run_query q None None ;; k results) st)) = cache st.
Proof.
  intros Hk. unfold bind at 1. unfold insert_query_for_graph, gets.
  rewrite bind_state.
  destruct (run_query_returns (Insert (state_graph st) graph) None None st) as [rs Hr].
  rewrite Hr, Hk.
  apply (run_query_frame (Insert (state_graph st) graph) None None st). reflexivity.
Qed.

Lemma insert_article_file_cache article_version_id file_id st :
  cache (snd (insert_article_file article_version_id file_id st)) = cache st.
Proof.
  unfold insert_article_file. rewrite bind_state.
  destruct (ids_next_id_frame "article_file" st) as (Hc & _ & _).
  destruct (fst (ids_next_id "article_file" st)) as [link_id|e]; [|exact Hc].
  rewrite insert_graph_cache; [exact Hc|].
  intros results st0. destruct (nonempty results); reflexivity.
Qed.

End Writes.

(** C2 (the code departs from it).  [delete_collection] invalidates no
    prefix: the cache is the same after it.  [insert_file] for a file that
    is not a link invalidates the prefix "article" and no other: what the
    cache holds under the prefix of the version is still served after the
    file has been inserted. *)
Theorem writes_without_invalidation `{W : World} :
  (forall collection_version_id account_id st,
     cache (snd (delete_collection collection_version_id account_id st)) = cache st)
  /\ (forall file_id name size download_url supplied_md5 computed_md5 viewer_type
        preview_state status upload_url upload_token article_version_id account_id
        now st,
       cache (snd (insert_file (VInt file_id) name size VNone download_url supplied_md5
                     computed_md5 viewer_type preview_state status upload_url
                     upload_token (VInt article_version_id) account_id now st))
       = CacheLayer.invalidate_by_prefix "article" (cache st))
  /\ (forall key rows,
       CacheLayer.cached_value (Some "5_article") key
         (CacheLayer.invalidate_by_prefix "article"
            (CacheLayer.Cache (Some "/cache") [(Some "5_article", key, rows)]))
       = Some rows).
Proof.
  split; [|split].
  - intros cvid acc st. unfold delete_collection. rewrite bind_state.
    unfold query_from_template, gets. cbn [fst snd].
    apply run_query_frame. reflexivity.
  - intros. unfold insert_file. cbn [is_none negb truthy].
    unfold bind at 1. unfold ret at 1.
    unfold bind at 1. unfold cache_invalidate_by_prefix, modify.
    rewrite insert_graph_cache; [destruct st; reflexivity|].
    intros results st0. destruct (nonempty results); [|reflexivity].
    unfold bind at 1. unfold ret at 1.
    rewrite bind_state.
    rewrite <- (insert_article_file_cache (VInt article_version_id) (VInt file_id) st0).
    destruct (fst (insert_article_file (VInt article_version_id) (VInt file_id) st0))
      as [link_id|e]; [|reflexivity].
    destruct (negb (is_none link_id)); reflexivity.
  - intros key rows. unfold CacheLayer.invalidate_by_prefix, CacheLayer.cached_value.
    cbn [CacheLayer.cache_is_ready CacheLayer.storage CacheLayer.entries].
    rewrite filter_cons. cbn [fst].
    destruct (decide (Some "5_article" <> Some "article")) as [_|Hn];
      [|exfalso; apply Hn; discriminate].
    cbn [filter find CacheLayer.entries CacheLayer.storage CacheLayer.cache_is_ready fst snd].
    rewrite bool_decide_eq_true_2 by reflexivity. reflexivity.
Qed.

(** C3 (the code departs from it).  [insert_tag] draws from the counter
    named by the plain text "{item_type}_tag" whatever the type of the
    item, so that the tags of articles and of collections share one
    counter and the counters "article_tag" and "collection_tag" stay where
    they are.  [insert_collection] draws the identifier of a collection
    version from the counter of the articles. *)
Theorem identifiers_from_other_counters :
  (forall (W : World) tag item_id item_type st,
     ids (snd (insert_tag tag item_id item_type st))
     = snd (IdGenerator.next_id "{item_type}_tag" (ids st)))
  /\ (let st := Interface (W := Env.Scripted)
                  [("article_tag", VInt 10); ("collection_tag", VInt 20);
                   ("{item_type}_tag", VInt 0)]
                  "https://data.4tu.nl/portal/self-test" [] (CacheLayer.Cache None [])
                  (Env.Script
                     [Return (TripleStore.status "Insert into <g>, 4 triples -- done");
                      Return (TripleStore.status "Insert into <g>, 4 triples -- done")] [])
                  true [] O in
      let r1 := insert_tag (VStr "rocks") (VInt 1) "article" st in
      let r2 := insert_tag (VStr "water") (VInt 1) "collection" (snd r1) in
      fst r1 = Return (VInt 1) /\ fst r2 = Return (VInt 2)
      /\ ids (snd r2) = [("article_tag", VInt 10); ("collection_tag", VInt 20);
                         ("{item_type}_tag", VInt 2)])
  /\ (let st := Interface (W := Env.Scripted)
                  [("article", VInt 10); ("collection", VInt 20); ("timeline", VInt 0)]
                  "https://data.4tu.nl/portal/self-test" [] (CacheLayer.Cache None [])
                  (Env.Script
                     [Return (TripleStore.status "Insert into <g>, 2 triples -- done");
                      Return (TripleStore.status "Insert into <g>, 9 triples -- done")] [])
                  true [] O in
      let c := NewCollection (VStr "Rivers") (VInt 3) VNone VNone VNone None VNone
                 None None None None None None VNone VNone VNone VNone VNone VNone
                 VNone VNone VNone VNone VNone VNone None in
      let r := insert_collection c "2021-05-03 10:15:00" st in
      fst r = Return (VInt 11)
      /\ ids (snd r) = [("article", VInt 11); ("collection", VInt 20); ("timeline", VInt 1)]).
Proof.
  split; [|split].
  - intros W tag item_id item_type st. unfold insert_tag. rewrite bind_state.
    destruct (ids_next_id_frame "{item_type}_tag" st) as (_ & _ & Hi).
    destruct (fst (ids_next_id "{item_type}_tag" st)) as [tag_id|e]; [|exact Hi].
    rewrite bind_state. unfold insert_query_for_graph at 1, gets at 1. cbn [fst snd].
    rewrite bind_state.
    match goal with |- context [run_query ?q None None ?s] =>
      destruct (run_query_returns q None None s) as [rs Hr];
      destruct (run_query_frame q None None s) as (Hf & _)
    end.
    rewrite Hr. destruct (nonempty rs); cbn [snd ret]; rewrite Hf; exact Hi.
  - vm_compute. repeat split; reflexivity.
  - vm_compute. repeat split; reflexivity.
Qed.

(* --------------------------------------------------------------------- *)
(** ** The triples of the store                                           *)
(* --------------------------------------------------------------------- *)

Section Triples.
Import TripleStore.

Lemma filter_ext_in {A} (P1 P2 : A -> Prop) `{!forall x, Decision (P1 x)}
    `{!forall x, Decision (P2 x)} (l : list A) :
  (forall x, x ∈ l -> (P1 x <-> P2 x)) -> filter P1 l = filter P2 l.
Proof.
  induction l as [|x l IH]; intros Hext; [reflexivity|].
  rewrite !filter_cons.
  rewrite IH by (intros y Hy; apply Hext; right; exact Hy).
  destruct (decide (P1 x)) as [H1|H1], (decide (P2 x)) as [H2|H2];
    try reflexivity; exfalso.
  - apply H2, (Hext x); [left | exact H1].
  - apply H1, (Hext x); [left | exact H2].
Qed.

Lemma filter_nil_iff {A} (P : A -> Prop) `{!forall x, Decision (P x)} (l : list A) :
  (forall x, x ∈ l -> ~ P x) -> filter P l = [].
Proof.
  induction l as [|x l IH]; intros Hno; [reflexivity|].
  rewrite filter_cons_False by (apply Hno; left).
  apply IH. intros y Hy. apply Hno. right. exact Hy.
Qed.

Lemma same_protected_elem g g' t :
  same_protected g g' -> protected t -> (t ∈ g <-> t ∈ g').
Proof.
  intros Hs Ht. unfold same_protected in Hs.
  split; intros Hin.
  - assert (t ∈ filter protected g') as H'
      by (rewrite Hs; apply list_elem_of_filter; auto).
    apply list_elem_of_filter in H'. tauto.
  - assert (t ∈ filter protected g) as H'
      by (rewrite <- Hs; apply list_elem_of_filter; auto).
    apply list_elem_of_filter in H'. tauto.
Qed.

Lemma version_protected item_type s o :
  item_type_ok item_type -> protected (s, COL (item_type +:+ "_version_id"), o).
Proof.
  intros [-> | ->]; unfold protected; cbn.
  - do 2 right. left.
  - do 3 right. left.
Qed.

Lemma is_category_link_same g g' prefix item_type item_id category_id s :
  item_type_ok item_type -> same_protected g g' ->
  is_category_link g prefix item_type item_id category_id s
  <-> is_category_link g' prefix item_type item_id category_id s.
Proof.
  intros Hit Hs. unfold is_category_link.
  rewrite (same_protected_elem g g' (s, RDF_type, _) Hs) by (unfold protected; cbn; left).
  rewrite (same_protected_elem g g' (s, COL (item_type +:+ "_version_id"), _) Hs)
    by (apply version_protected; exact Hit).
  rewrite (same_protected_elem g g' (s, COL "category_id", _) Hs)
    by (unfold protected; cbn; right; left).
  reflexivity.
Qed.

Lemma category_links_same g g' prefix item_type item_id :
  item_type_ok item_type -> same_protected g g' ->
  category_links g' prefix item_type item_id = category_links g prefix item_type item_id.
Proof.
  intros Hit Hs. unfold category_links. f_equal.
  assert (forall h (t : triple),
            predicate t = COL "category_id"
            /\ is_category_link h prefix item_type item_id VNone (subject t)
            -> protected t) as Hp.
  { intros h t [Hpred _]. unfold protected. rewrite Hpred. right. left. }
  rewrite <- (list_filter_filter_l _ protected g') by apply Hp.
  rewrite <- (list_filter_filter_l _ protected g) by apply Hp.
  unfold same_protected in Hs. rewrite Hs.
  apply list_filter_iff. intros t.
  rewrite (is_category_link_same g g') by assumption. reflexivity.
Qed.

Lemma is_collection_article_same g g' collection_version_id s :
  same_protected g g' ->
  is_collection_article g collection_version_id s
  <-> is_collection_article g' collection_version_id s.
Proof.
  intros Hs. unfold is_collection_article.
  rewrite (same_protected_elem g g' (s, RDF_type, _) Hs) by (unfold protected; cbn; left).
  rewrite (same_protected_elem g g' (s, COL "collection_version_id", _) Hs)
    by (unfold protected; cbn; do 3 right; left).
  reflexivity.
Qed.

Lemma collection_articles_same g g' collection_version_id :
  same_protected g g' ->
  collection_articles g' collection_version_id
  = collection_articles g collection_version_id.
Proof.
  intros Hs. unfold collection_articles. f_equal.
  assert (forall h (t : triple),
            predicate t = COL "article_version_id"
            /\ is_collection_article h collection_version_id (subject t)
            -> protected t) as Hp.
  { intros h t [Hpred _]. unfold protected. rewrite Hpred. do 2 right. left. }
  rewrite <- (list_filter_filter_l _ protected g') by apply Hp.
  rewrite <- (list_filter_filter_l _ protected g) by apply Hp.
  unfold same_protected in Hs. rewrite Hs.
  apply list_filter_iff. intros t.
  rewrite (is_collection_article_same g g') by assumption. reflexivity.
Qed.

Lemma is_item_same g g' prefix item_type item_id account_id s :
  item_type_ok item_type -> same_protected g g' ->
  is_item g prefix item_type item_id account_id s
  <-> is_item g' prefix item_type item_id account_id s.
Proof.
  intros Hit Hs. unfold is_item.
  rewrite (same_protected_elem g g' (s, RDF_type, _) Hs) by (unfold protected; cbn; left).
  rewrite (same_protected_elem g g' (s, COL (item_type +:+ "_version_id"), _) Hs)
    by (apply version_protected; exact Hit).
  rewrite (same_protected_elem g g' (s, COL "account_id", _) Hs)
    by (unfold protected; cbn; do 4 right; left).
  reflexivity.
Qed.

Lemma owned_same g g' prefix item_type item_id account_id :
  item_type_ok item_type -> same_protected g g' ->
  owned g prefix item_type item_id account_id ->
  owned g' prefix item_type item_id account_id.
Proof.
  intros Hit Hs Ho. unfold owned in *.
  apply Exists_exists in Ho as (t & Ht & Hi).
  apply Exists_exists.
  exists (subject t, RDF_type, SG prefix). split.
  - apply (same_protected_elem g g' _ Hs); [unfold protected; cbn; left|].
    apply Hi.
  - apply (is_item_same g g'); assumption.
Qed.

(** Patching a plain field keeps the protected triples. *)
Lemma set_field_same s kv g :
  plain_field (fst kv) -> same_protected g (set_field s kv g).
Proof.
  intros Hplain. unfold same_protected, set_field.
  rewrite filter_app.
  rewrite (filter_nil_iff protected [_]).
  2:{ intros t Ht. apply list_elem_of_singleton in Ht. subst t. exact Hplain. }
  rewrite app_nil_r.
  apply list_filter_filter_l. intros t Ht [_ Hpred].
  apply Hplain. rewrite <- Hpred. exact Ht.
Qed.

Lemma same_protected_trans g1 g2 g3 :
  same_protected g1 g2 -> same_protected g2 g3 -> same_protected g1 g3.
Proof. unfold same_protected. congruence. Qed.

Lemma patch_same prefix item_type args g :
  Forall plain_field (fst <$> patched item_type args) ->
  same_protected g (patch prefix item_type args g).
Proof.
  intros Hplain. unfold patch.
  generalize (subject <$>
    filter (fun t => predicate t = RDF_type /\ object t = SG prefix
                     /\ is_item g prefix item_type (arg (item_type +:+ "_version_id") args)
                          (arg "account_id" args) (subject t)) g).
  intros targets. induction targets as [|s targets IH]; [reflexivity|].
  cbn [foldr]. eapply same_protected_trans; [exact IH|].
  generalize (foldr (fun s g => foldr (set_field s) g (patched item_type args)) g targets).
  intros g0. clear IH.
  induction (patched item_type args) as [|kv fields IHf]; [reflexivity|].
  cbn [foldr]. inversion Hplain; subst.
  eapply same_protected_trans; [apply IHf; assumption|].
  apply set_field_same. assumption.
Qed.

(** A patch brings no new subject. *)
Lemma patch_subjects prefix item_type args g t' :
  t' ∈ patch prefix item_type args g -> exists t, t ∈ g /\ subject t = subject t'.
Proof.
  unfold patch.
  set (targets := subject <$> filter _ g).
  assert (forall s, s ∈ targets -> exists t, t ∈ g /\ subject t = s) as Ht.
  { intros s Hs. unfold targets in Hs.
    apply list_elem_of_fmap in Hs as (t & -> & Hin).
    apply list_elem_of_filter in Hin as [_ Hin]. eauto. }
  clearbody targets. revert t'.
  induction targets as [|s targets IH]; intros t'; cbn [foldr]; [eauto|].
  set (g0 := foldr (fun s g => foldr (set_field s) g (patched item_type args)) g targets) in *.
  assert (forall t0, t0 ∈ g0 -> exists t, t ∈ g /\ subject t = subject t0) as H0.
  { intros t0 Hin. apply IH; [|exact Hin]. intros s0 Hs0. apply Ht. right. exact Hs0. }
  destruct (Ht s ltac:(left)) as (ts & Hts & Hsub).
  clearbody g0. clear IH.
  induction (patched item_type args) as [|kv fields IHf]; cbn [foldr]; [apply H0|].
  unfold set_field at 1. intros Hin.
  apply elem_of_app in Hin as [Hin | Hin].
  - apply list_elem_of_filter in Hin as [_ Hin]. apply IHf. exact Hin.
  - apply list_elem_of_singleton in Hin. subst t'. exists ts. auto.
Qed.

Lemma remove_category_links_subset g prefix item_type item_id account_id category_id t :
  t ∈ remove_category_links g prefix item_type item_id account_id category_id -> t ∈ g.
Proof.
  unfold remove_category_links.
  destruct (decide (owned g prefix item_type item_id account_id)); [|auto].
  intros H. apply list_elem_of_filter in H. tauto.
Qed.

(** Once the links of a version are deleted the version has no category. *)
Lemma remove_category_links_clears g prefix item_type item_id account_id :
  owned g prefix item_type item_id account_id ->
  category_links (remove_category_links g prefix item_type item_id account_id VNone)
    prefix item_type item_id = [].
Proof.
  intros Ho. unfold remove_category_links. rewrite decide_True by exact Ho.
  unfold category_links. rewrite filter_nil_iff; [reflexivity|].
  intros t Ht [_ (H1 & H2 & _)].
  apply list_elem_of_filter in Ht as [Hnot _]. apply Hnot.
  apply list_elem_of_filter in H1 as [_ H1].
  apply list_elem_of_filter in H2 as [_ H2].
  split; [exact H1|]. split; [exact H2|]. left. reflexivity.
Qed.

Lemma graph_add_fresh (t : triple) (g : list triple) :
  t ∉ g -> graph_add t g = (g ++ [t])%list.
Proof. intros H. unfold graph_add. rewrite decide_False by exact H. reflexivity. Qed.

(** The graph of a link as [insert_item_category] builds it. *)
Lemma article_category_link_built link_id item_id category_id :
  graph_add (ROW ("article" +:+ "_category_link_" +:+ fmt link_id),
             COL ("article" +:+ "_version_id"), Literal item_id (Some XSD_integer))
    (graph_add (ROW ("article" +:+ "_category_link_" +:+ fmt link_id),
                COL "category_id", Literal category_id (Some XSD_integer))
       (graph_add (ROW ("article" +:+ "_category_link_" +:+ fmt link_id),
                   COL "id", Literal (VInt link_id) (Some XSD_integer))
          (graph_add (ROW ("article" +:+ "_category_link_" +:+ fmt link_id),
                      RDF_type, SG (capitalize "article" +:+ "Category")) [])))
  = article_category_link link_id item_id category_id.
Proof.
  change ("article" +:+ "_category_link_" +:+ fmt link_id)
    with ("article_category_link_" +:+ fmt link_id).
  change (capitalize "article" +:+ "Category") with "ArticleCategory".
  change ("article" +:+ "_version_id") with "article_version_id".
  unfold Literal.
  rewrite (graph_add_fresh _ []) by (intros H; inversion H). cbn [app].
  rewrite (graph_add_fresh _ [_])
    by (rewrite !elem_of_cons, elem_of_nil; intros [H | []]; discriminate H).
  cbn [app].
  rewrite (graph_add_fresh _ [_; _])
    by (rewrite !elem_of_cons, elem_of_nil; intros [H | [H | []]]; discriminate H).
  cbn [app].
  rewrite (graph_add_fresh _ [_; _; _])
    by (rewrite !elem_of_cons, elem_of_nil; intros [H | [H | [H | []]]]; discriminate H).
  reflexivity.
Qed.

Lemma insert_new_link link_id item_id category_id g :
  unknown_subject (ROW ("article_category_link_" +:+ fmt link_id)) g ->
  insert (article_category_link link_id item_id category_id) g
  = (g ++ article_category_link link_id item_id category_id)%list.
Proof.
  intros Hnew. unfold insert, article_category_link. cbn [foldl].
  assert (forall p o, (ROW ("article_category_link_" +:+ fmt link_id), p, o) ∉ g) as Hg.
  { intros p o Hin. apply (Hnew _ Hin). reflexivity. }
  rewrite (graph_add_fresh _ g) by apply Hg.
  rewrite (graph_add_fresh _ (g ++ [_]))
    by (rewrite elem_of_app, list_elem_of_singleton; intros [H | H];
        [exact (Hg _ _ H) | discriminate H]).
  rewrite (graph_add_fresh _ ((g ++ [_]) ++ [_]))
    by (rewrite !elem_of_app, !list_elem_of_singleton; intros [[H | H] | H];
        [exact (Hg _ _ H) | discriminate H | discriminate H]).
  rewrite (graph_add_fresh _ (((g ++ [_]) ++ [_]) ++ [_]))
    by (rewrite !elem_of_app, !list_elem_of_singleton; intros [[[H | H] | H] | H];
        [exact (Hg _ _ H) | discriminate H | discriminate H | discriminate H]).
  rewrite <- !app_assoc. reflexivity.
Qed.

(** A new link adds its category to those of its version, at the end. *)
Lemma category_links_new_link link_id item_id category_id g :
  unknown_subject (ROW ("article_category_link_" +:+ fmt link_id)) g ->
  category_links (g ++ article_category_link link_id (VInt item_id) category_id)
    "Article" "article" (VInt item_id)
  = (category_links g "Article" "article" (VInt item_id)
       ++ [Lit category_id (Some XSD_integer)])%list.
Proof.
  intros Hnew. unfold category_links.
  set (L := ROW ("article_category_link_" +:+ fmt link_id)).
  set (new := article_category_link link_id (VInt item_id) category_id).
  assert (forall t, t ∈ new -> subject t = L) as Hsub.
  { intros t Ht. unfold new, article_category_link in Ht.
    rewrite !elem_of_cons, elem_of_nil in Ht.
    destruct Ht as [-> | [-> | [-> | [-> | []]]]]; reflexivity. }
  rewrite filter_app, fmap_app. f_equal.
  - f_equal. apply filter_ext_in. intros t Ht.
    assert (subject t <> L) as Hne by (apply Hnew; exact Ht).
    assert (forall p o, (subject t, p, o) ∈ (g ++ new)%list <-> (subject t, p, o) ∈ g) as Hm.
    { intros p o. rewrite elem_of_app. split; [|auto].
      intros [H | H]; [exact H|]. apply Hsub in H. contradiction. }
    unfold is_category_link. rewrite !Hm. reflexivity.
  - unfold new, article_category_link. fold L.
    assert (is_category_link (g ++ new) "Article" "article" (VInt item_id) VNone L) as Hl.
    { unfold is_category_link. split; [|split; [|left; reflexivity]].
      - apply elem_of_app. right. left.
      - apply elem_of_app. right. do 3 right. left. }
    rewrite filter_cons_False by (intros [H _]; discriminate H).
    rewrite filter_cons_False by (intros [H _]; discriminate H).
    rewrite filter_cons_True by (split; [reflexivity | exact Hl]).
    rewrite filter_cons_False by (intros [H _]; discriminate H).
    reflexivity.
Qed.

Lemma links_below_new_link n item_id category_id g :
  links_below g "article" n ->
  unknown_subject (ROW ("article_category_link_" +:+ fmt (n + 1))) g
  /\ links_below (g ++ article_category_link (n + 1) item_id category_id) "article" (n + 1).
Proof.
  intros Hb. split.
  - intros t Ht. apply (Hb (n + 1) t); [lia | exact Ht].
  - intros k t Hk Ht. apply elem_of_app in Ht as [Ht | Ht].
    + apply Hb; [lia | exact Ht].
    + assert (subject t = ROW ("article_category_link_" +:+ fmt (n + 1))) as ->.
      { unfold article_category_link in Ht. rewrite !elem_of_cons, elem_of_nil in Ht.
        destruct Ht as [-> | [-> | [-> | [-> | []]]]]; reflexivity. }
      change ("article" +:+ "_category_link_" +:+ fmt k)
        with ("article_category_link_" +:+ fmt k).
      intros [= H]. apply String.app_inj in H. unfold fmt in H.
      apply pretty_Z_inj in H. lia.
Qed.

End Triples.

(* --------------------------------------------------------------------- *)
(** ** Writes that the store answers with a status message               *)
(* --------------------------------------------------------------------- *)

Section StatusAnswers.
Context `{W : World}.

Lemma normalize_status text st :
  exists extra,
    map_list normalize_binding (TripleStore.status text) st
    = (Return [Scalar text], set_logging (logging st ++ extra)%list st).
Proof.
  unfold TripleStore.status. cbn [map_list]. unfold bind at 1.
  unfold normalize_binding. cbn [normalize_items b_type b_value].
  change (String.eqb "literal" "typed-literal") with false.
  change (String.eqb "literal" "literal") with true. cbv iota.
  destruct (startswith text "Modify " || startswith text "Insert into "
            || startswith text "Delete from ");
    unfold bind, ret; rewrite logging_call_more; eexists; reflexivity.
Qed.

(** A query that the store answers with a status message. *)
Lemma run_query_status q cache_key_string prefix st text s' :
  cache_miss cache_key_string prefix st ->
  sparql_query q (sparql st) = (Return (TripleStore.status text), s') ->
  fst (run_query q cache_key_string prefix st) = Return [Scalar text]
  /\ sparql (snd (run_query q cache_key_string prefix st)) = s'
  /\ ids (snd (run_query q cache_key_string prefix st)) = ids st
  /\ state_graph (snd (run_query q cache_key_string prefix st)) = state_graph st.
Proof.
  intros Hmiss Hq.
  destruct (run_query_frame q cache_key_string prefix st) as (Hi & Hg & _).
  pose proof (run_query_store q cache_key_string prefix st Hmiss) as Hs.
  rewrite Hq in Hs. cbn [snd] in Hs.
  split; [|auto].
  rewrite run_query_cases. unfold cache_miss in Hmiss. rewrite Hmiss, Hq.
  destruct (normalize_status text (set_sparql s' st)) as (extra & ->). reflexivity.
Qed.

(** A query that does not reach the store. *)
Lemma run_query_down q cache_key_string prefix st s' :
  cache_miss cache_key_string prefix st ->
  sparql_query q (sparql st) = (Raise URLError, s') ->
  fst (run_query q cache_key_string prefix st) = Return []
  /\ sparql (snd (run_query q cache_key_string prefix st)) = s'.
Proof.
  intros Hmiss Hq.
  pose proof (run_query_store q cache_key_string prefix st Hmiss) as Hs.
  rewrite Hq in Hs. cbn [snd] in Hs. split; [|exact Hs].
  rewrite run_query_cases. unfold cache_miss in Hmiss. rewrite Hmiss, Hq. reflexivity.
Qed.

Lemma cached_value_invalidated prefix key c :
  CacheLayer.cached_value (Some prefix) key (CacheLayer.invalidate_by_prefix prefix c) = None.
Proof.
  unfold CacheLayer.cached_value, CacheLayer.invalidate_by_prefix.
  destruct (CacheLayer.cache_is_ready c) eqn:E; [|rewrite E; reflexivity].
  unfold CacheLayer.cache_is_ready in *. cbn [CacheLayer.storage CacheLayer.entries].
  rewrite E.
  destruct (find _ _) as [e|] eqn:Ef; [|reflexivity].
  apply find_some in Ef as [Hin Hb].
  apply list_elem_of_In, list_elem_of_filter in Hin as [Hne _].
  apply bool_decide_eq_true in Hb. exfalso. apply Hne. rewrite Hb. reflexivity.
Qed.

End StatusAnswers.

(* --------------------------------------------------------------------- *)
(** ** Categories of an article on the triple store                      *)
(* --------------------------------------------------------------------- *)

Section ArticleCategories.
Import TripleStore.
#[local] Existing Instance TripleStore.world.

Lemma insert_article_category_up item_id category_id st g m :
  sparql st = Store g O ->
  dict_get "article_category" (ids st) = Some (VInt m) ->
  links_below g "article" m ->
  let r := insert_article_category (VInt item_id) category_id st in
  fst r = Return (VInt (m + 1))
  /\ sparql (snd r) = Store (g ++ article_category_link (m + 1) (VInt item_id) category_id)%list O
  /\ dict_get "article_category" (ids (snd r)) = Some (VInt (m + 1))
  /\ state_graph (snd r) = state_graph st.
Proof.
  intros Hs Hc Hb. cbv zeta.
  set (st1 := set_ids (dict_set "article_category" (VInt (m + 1)) (ids st)) st).
  set (q := Insert (state_graph st1)
              (article_category_link (m + 1) (VInt item_id) category_id)).
  destruct (links_below_new_link m (VInt item_id) category_id g Hb) as [Hnew _].
  assert (sparql st1 = Store g O) as Hs1 by (unfold st1; destruct st; exact Hs).
  assert (exists text,
            sparql_query q (sparql st1)
            = (Return (status text),
               Store (g ++ article_category_link (m + 1) (VInt item_id) category_id)%list O))
    as [text Hq].
  { rewrite Hs1. unfold q. cbn [sparql_query world execute outage graph].
    rewrite insert_new_link by exact Hnew. eexists. reflexivity. }
  destruct (run_query_status q None None st1 text _ eq_refl Hq) as (Hr & Hs' & Hi & Hg).
  assert (insert_article_category (VInt item_id) category_id st
          = (Return (VInt (m + 1)), snd (run_query q None None st1))) as ->.
  { unfold insert_article_category, insert_item_category.
    change ("article" +:+ "_category") with "article_category".
    assert (ids_next_id "article_category" st = (Return (m + 1), st1)) as Hnext.
    { unfold ids_next_id, IdGenerator.next_id. rewrite Hc. reflexivity. }
    unfold bind at 1. rewrite Hnext.
    rewrite article_category_link_built.
    unfold bind at 1. unfold insert_query_for_graph, gets. fold q.
    unfold bind. destruct (run_query q None None st1) as [r st2]. cbn [fst snd] in *.
    subst r. reflexivity. }
  cbn [fst snd].
  split; [reflexivity|]. split; [exact Hs'|]. split.
  - rewrite Hi. unfold st1. destruct st; cbn. apply dict_get_set_eq.
  - rewrite Hg. unfold st1. destruct st; reflexivity.
Qed.

Lemma insert_categories_up item_id cs : forall st g m,
  sparql st = Store g O ->
  dict_get "article_category" (ids st) = Some (VInt m) ->
  links_below g "article" m ->
  let r := for_each cs (fun category =>
             insert_article_category (VInt item_id) category ;; ret tt) st in
  fst r = Return tt
  /\ exists g',
       sparql (snd r) = Store g' O
       /\ category_links g' "Article" "article" (VInt item_id)
          = (category_links g "Article" "article" (VInt item_id)
               ++ ((fun c => Lit c (Some XSD_integer)) <$> cs))%list.
Proof.
  induction cs as [|c cs IH]; intros st g m Hs Hc Hb.
  - cbn. split; [reflexivity|]. exists g. rewrite app_nil_r. auto.
  - cbv zeta.
    destruct (insert_article_category_up item_id c st g m Hs Hc Hb) as (Hr & Hs' & Hc' & _).
    destruct (links_below_new_link m (VInt item_id) c g Hb) as [Hnew Hb'].
    destruct (insert_article_category (VInt item_id) c st) as [r st1] eqn:E.
    cbn [fst snd] in *. subst r.
    assert (for_each (c :: cs)
              (fun category => insert_article_category (VInt item_id) category ;; ret tt) st
            = for_each cs
                (fun category => insert_article_category (VInt item_id) category ;; ret tt) st1)
      as ->.
    { cbn [for_each]. unfold bind at 1. unfold bind at 1. rewrite E. reflexivity. }
    destruct (IH st1 _ _ Hs' Hc' Hb') as (R1 & g' & R2 & R3).
    split; [exact R1|]. exists g'. split; [exact R2|].
    rewrite R3, category_links_new_link by exact Hnew.
    rewrite <- app_assoc. reflexivity.
Qed.

Lemma delete_article_categories_up item_id account_id st g :
  sparql st = Store g O ->
  let r := delete_article_categories item_id account_id VNone st in
  (exists rows, fst r = Return rows)
  /\ sparql (snd r)
     = Store (remove_category_links g "Article" "article" item_id account_id VNone) O
  /\ ids (snd r) = ids st
  /\ state_graph (snd r) = state_graph st.
Proof.
  intros Hs. cbv zeta.
  set (q := Template "delete_item_categories"
              [("item_id", item_id); ("item_type", VStr "article");
               ("prefix", VStr "Article"); ("account_id", account_id);
               ("category_id", VNone); ("state_graph", VStr (state_graph st))]).
  assert (delete_article_categories item_id account_id VNone st = run_query q None None st)
    as -> by reflexivity.
  assert (exists text,
            sparql_query q (sparql st)
            = (Return (status text),
               Store (remove_category_links g "Article" "article" item_id account_id VNone) O))
    as [text Hq].
  { rewrite Hs. eexists. reflexivity. }
  destruct (run_query_status q None None st text _ eq_refl Hq) as (Hr & Hs' & Hi & Hg).
  eauto.
Qed.


End ArticleCategories.

(* --------------------------------------------------------------------- *)
(** ** The two updates                                                    *)
(* --------------------------------------------------------------------- *)

Section Updates.
Context `{W : World}.

Lemma invalidated_miss broad narrow q st :
  cache_miss (Some q) (Some narrow) (invalidated broad narrow st).
Proof.
  unfold cache_miss, invalidated, set_cache. simpl.
  apply cached_value_invalidated.
Qed.

(** The query of [update_article] and the state it runs on. *)
Lemma update_article_phases vid acc u categories now st :
  let q := Template "update_article" (update_article_args vid acc u now (state_graph st)) in
  let prefix := fmt_value vid +:+ "_article" in
  let r := run_query q (Some q) (Some prefix) (invalidated "article" prefix st) in
  update_article vid acc u categories now st =
  match fst r with
  | Return results =>
      if nonempty results && given categories then
        ((delete_article_categories vid acc VNone ;;
          for_each (or_empty categories) (fun category =>
            insert_article_category vid category ;; ret tt)) ;;
         ret results) (snd r)
      else (Return results, snd r)
  | Raise e => (Raise e, snd r)
  end.
Proof.
  cbv zeta. unfold update_article.
  unfold bind at 1. unfold query_from_template, gets.
  change (dict_merge _ [("state_graph", VStr (state_graph st))])
    with (update_article_args vid acc u now (state_graph st)).
  set (q := Template "update_article" (update_article_args vid acc u now (state_graph st))).
  unfold bind at 1. unfold cache_invalidate_by_prefix at 1. unfold modify at 1.
  unfold bind at 1. unfold cache_invalidate_by_prefix at 1. unfold modify at 1.
  change (set_cache _ (set_cache _ st))
    with (invalidated "article" (fmt_value vid +:+ "_article") st).
  unfold bind at 1.
  destruct (run_query q (Some q) (Some (fmt_value vid +:+ "_article"))
              (invalidated "article" (fmt_value vid +:+ "_article") st))
    as [[results|e] st1]; cbn [fst snd]; [|reflexivity].
  destruct (nonempty results && given categories); reflexivity.
Qed.

Lemma update_collection_phases vid acc u articles categories now st :
  let q := Template "update_collection"
             (update_collection_args vid acc u now (state_graph st)) in
  let prefix := fmt_value vid +:+ "_collection" in
  let r := run_query q (Some q) (Some prefix) (invalidated "collection" prefix st) in
  update_collection vid acc u articles categories now st =
  match fst r with
  | Return results =>
      ((if nonempty results && given categories then
          delete_collection_categories vid acc VNone ;;
          for_each (or_empty categories) (fun category =>
            insert_collection_category vid category ;; ret tt)
        else ret tt) ;;
       (if nonempty results && given articles then
          delete_collection_articles vid acc ;;
          for_each (or_empty articles) (fun article_id =>
            insert_collection_article vid article_id ;; ret tt)
        else ret tt) ;;
       ret results) (snd r)
  | Raise e => (Raise e, snd r)
  end.
Proof.
  cbv zeta. unfold update_collection.
  unfold bind at 1. unfold query_from_template, gets.
  change (dict_merge _ [("state_graph", VStr (state_graph st))])
    with (update_collection_args vid acc u now (state_graph st)).
  set (q := Template "update_collection"
              (update_collection_args vid acc u now (state_graph st))).
  unfold bind at 1. unfold cache_invalidate_by_prefix at 1. unfold modify at 1.
  unfold bind at 1. unfold cache_invalidate_by_prefix at 1. unfold modify at 1.
  change (set_cache _ (set_cache _ st))
    with (invalidated "collection" (fmt_value vid +:+ "_collection") st).
  unfold bind at 1.
  destruct (run_query q (Some q) (Some (fmt_value vid +:+ "_collection"))
              (invalidated "collection" (fmt_value vid +:+ "_collection") st))
    as [[results|e] st1]; cbn [fst snd]; reflexivity.
Qed.

End Updates.

(* --------------------------------------------------------------------- *)
(** ** The updates on the triple store                                    *)
(* --------------------------------------------------------------------- *)

Section UpdatesOnStore.
Import TripleStore.
#[local] Existing Instance TripleStore.world.

Lemma patched_plain item_type args :
  Forall (fun k => k ∈ ["account_id"; item_type +:+ "_version_id"; "state_graph"]
                   \/ plain_field k) (fst <$> args) ->
  Forall plain_field (fst <$> patched item_type args).
Proof.
  intros Hall. apply Forall_forall. intros k Hk.
  apply list_elem_of_fmap in Hk as (kv & -> & Hin).
  apply list_elem_of_filter in Hin as [[Hout _] Hin].
  rewrite Forall_forall in Hall.
  destruct (Hall (fst kv)) as [Hex | Hplain]; [|contradiction|exact Hplain].
  apply list_elem_of_fmap. exists kv. auto.
Qed.

Lemma update_article_fields vid acc u now sg :
  Forall plain_field (fst <$> patched "article" (update_article_args vid acc u now sg)).
Proof.
  apply patched_plain. unfold update_article_args. cbn [fmap list_fmap fst].
  unfold plain_field.
  apply (bool_decide_unpack _). vm_compute. exact I.
Qed.

Lemma update_collection_fields vid acc u now sg :
  Forall plain_field
    (fst <$> patched "collection" (update_collection_args vid acc u now sg)).
Proof.
  apply patched_plain. unfold update_collection_args. cbn [fmap list_fmap fst].
  unfold plain_field.
  apply (bool_decide_unpack _). vm_compute. exact I.
Qed.

(** The request of an update keeps the protected triples of the store,
    whether it reaches the store or not. *)
Lemma execute_update_article vid acc u now sg s :
  same_protected (graph s)
    (graph (snd (execute (Template "update_article"
                            (update_article_args vid acc u now sg)) s))).
Proof.
  unfold execute. destruct (outage s); [|reflexivity].
  rewrite decide_True by reflexivity. cbn [snd graph].
  apply patch_same, update_article_fields.
Qed.

Lemma execute_update_collection vid acc u now sg s :
  same_protected (graph s)
    (graph (snd (execute (Template "update_collection"
                            (update_collection_args vid acc u now sg)) s))).
Proof.
  unfold execute. destruct (outage s); [|reflexivity].
  rewrite decide_False by discriminate.
  rewrite decide_True by reflexivity. cbn [snd graph].
  apply patch_same, update_collection_fields.
Qed.

(** The update query of an article on a store that is reachable. *)
Lemma update_article_query_up vid acc u now st g :
  sparql st = Store g O ->
  let args := update_article_args vid acc u now (state_graph st) in
  let q := Template "update_article" args in
  let prefix := fmt_value vid +:+ "_article" in
  let r := run_query q (Some q) (Some prefix) (invalidated "article" prefix st) in
  (exists text, fst r = Return [Scalar text])
  /\ sparql (snd r) = Store (patch "Article" "article" args g) O
  /\ ids (snd r) = ids st.
Proof.
  intros Hs. cbv zeta.
  set (args := update_article_args vid acc u now (state_graph st)).
  set (q := Template "update_article" args).
  set (prefix := fmt_value vid +:+ "_article").
  assert (sparql (invalidated "article" prefix st) = Store g O) as Hs1
    by (destruct st; exact Hs).
  assert (exists text,
            sparql_query q (sparql (invalidated "article" prefix st))
            = (Return (status text), Store (patch "Article" "article" args g) O))
    as [text Hq].
  { rewrite Hs1. eexists. reflexivity. }
  destruct (run_query_status q (Some q) (Some prefix) _ text _
              (invalidated_miss "article" prefix q st) Hq) as (Hr & Hs' & Hi & _).
  split; [eauto|]. split; [exact Hs'|].
  rewrite Hi. destruct st; reflexivity.
Qed.

(** The update query of an article on a store that is out of reach. *)
Lemma update_article_query_down vid acc u now st g n :
  sparql st = Store g (S n) ->
  let q := Template "update_article" (update_article_args vid acc u now (state_graph st)) in
  let prefix := fmt_value vid +:+ "_article" in
  let r := run_query q (Some q) (Some prefix) (invalidated "article" prefix st) in
  fst r = Return [] /\ sparql (snd r) = Store g n.
Proof.
  intros Hs. cbv zeta.
  set (q := Template "update_article" _).
  set (prefix := fmt_value vid +:+ "_article").
  assert (sparql (invalidated "article" prefix st) = Store g (S n)) as Hs1
    by (destruct st; exact Hs).
  apply run_query_down; [apply invalidated_miss|].
  rewrite Hs1. reflexivity.
Qed.

Lemma update_collection_query_down vid acc u now st g n :
  sparql st = Store g (S n) ->
  let q := Template "update_collection"
             (update_collection_args vid acc u now (state_graph st)) in
  let prefix := fmt_value vid +:+ "_collection" in
  let r := run_query q (Some q) (Some prefix) (invalidated "collection" prefix st) in
  fst r = Return [] /\ sparql (snd r) = Store g n.
Proof.
  intros Hs. cbv zeta.
  set (q := Template "update_collection" _).
  set (prefix := fmt_value vid +:+ "_collection").
  assert (sparql (invalidated "collection" prefix st) = Store g (S n)) as Hs1
    by (destruct st; exact Hs).
  apply run_query_down; [apply invalidated_miss|].
  rewrite Hs1. reflexivity.
Qed.

End UpdatesOnStore.

(* --------------------------------------------------------------------- *)
(** ** Categories of an article after an update                           *)
(* --------------------------------------------------------------------- *)

Section Replacement.
Import TripleStore.
#[local] Existing Instance TripleStore.world.

Lemma same_protected_links s s' :
  same_protected (graph s) (graph s') -> same_links s s'.
Proof.
  intros Hs. split.
  - intros prefix item_type version Hit. apply category_links_same; assumption.
  - intros version. apply collection_articles_same; assumption.
Qed.

Lemma links_below_patch prefix item_type args g kind n :
  links_below g kind n -> links_below (patch prefix item_type args g) kind n.
Proof.
  intros Hb k t Hk Ht.
  apply patch_subjects in Ht as (t0 & Ht0 & <-).
  apply Hb; assumption.
Qed.

Lemma links_below_remove g prefix item_type item_id account_id category_id kind n :
  links_below g kind n ->
  links_below (remove_category_links g prefix item_type item_id account_id category_id)
    kind n.
Proof.
  intros Hb k t Hk Ht. apply remove_category_links_subset in Ht.
  apply Hb; assumption.
Qed.

(** The steps of [update_article] after a query that returned rows. *)
Lemma replace_categories_up vid acc cs (results : list result_row) st g n :
  sparql st = Store g O ->
  owned g "Article" "article" (VInt vid) acc ->
  dict_get "article_category" (ids st) = Some (VInt n) ->
  links_below g "article" n ->
  let r := ((delete_article_categories (VInt vid) acc VNone ;;
             for_each cs (fun category =>
               insert_article_category (VInt vid) category ;; ret tt)) ;;
            ret results) st in
  fst r = Return results
  /\ category_links (graph (sparql (snd r))) "Article" "article" (VInt vid)
     = (fun c => Lit c (Some XSD_integer)) <$> cs.
Proof.
  intros Hs Ho Hc Hb. cbv zeta.
  destruct (delete_article_categories_up (VInt vid) acc st g Hs)
    as ([rows Hd] & Hs2 & Hi2 & _).
  destruct (delete_article_categories (VInt vid) acc VNone st) as [d st2] eqn:Ed.
  cbn [fst snd] in *. subst d.
  assert (dict_get "article_category" (ids st2) = Some (VInt n)) as Hc2
    by (rewrite Hi2; exact Hc).
  pose proof (links_below_remove g "Article" "article" (VInt vid) acc VNone _ _ Hb) as Hb2.
  destruct (insert_categories_up vid cs st2 _ n Hs2 Hc2 Hb2) as (R1 & g' & R2 & R3).
  rewrite remove_category_links_clears in R3 by exact Ho. cbn [app] in R3.
  destruct (for_each cs (fun category =>
              insert_article_category (VInt vid) category ;; ret tt) st2)
    as [x st3] eqn:Ef.
  cbn [fst snd] in *. subst x.
  assert (((delete_article_categories (VInt vid) acc VNone ;;
            for_each cs (fun category =>
              insert_article_category (VInt vid) category ;; ret tt)) ;;
           ret results) st = (Return results, st3)) as ->.
  { unfold bind at 1. unfold bind at 1. rewrite Ed, Ef. reflexivity. }
  cbn [fst snd]. rewrite R2. cbn [graph]. auto.
Qed.

End Replacement.




(* --------------------------------------------------------------------- *)
(** ** Updates that leave the links alone                                 *)
(* --------------------------------------------------------------------- *)

Section KeptLinks.
Import TripleStore.
#[local] Existing Instance TripleStore.world.

Lemma sparql_invalidated broad narrow (st : SparqlInterface) :
  sparql (invalidated broad narrow st) = sparql st.
Proof. destruct st; reflexivity. Qed.

Lemma update_article_without_list vid acc u categories now st :
  given categories = false ->
  same_links (sparql st) (sparql (snd (update_article vid acc u categories now st))).
Proof.
  intros Hg.
  pose proof (update_article_phases vid acc u categories now st) as Hp.
  cbv zeta in Hp. rewrite Hp. clear Hp.
  set (q := Template "update_article" _).
  set (prefix := fmt_value vid +:+ "_article").
  destruct (run_query_returns q (Some q) (Some prefix) (invalidated "article" prefix st))
    as [results Hr].
  rewrite Hr, Hg, andb_false_r. cbn [snd].
  rewrite run_query_store by apply invalidated_miss.
  rewrite sparql_invalidated.
  apply same_protected_links, execute_update_article.
Qed.

Lemma update_collection_without_lists vid acc u articles categories now st :
  given articles = false -> given categories = false ->
  same_links (sparql st)
    (sparql (snd (update_collection vid acc u articles categories now st))).
Proof.
  intros Ha Hg.
  pose proof (update_collection_phases vid acc u articles categories now st) as Hp.
  cbv zeta in Hp. rewrite Hp. clear Hp.
  set (q := Template "update_collection" _).
  set (prefix := fmt_value vid +:+ "_collection").
  destruct (run_query_returns q (Some q) (Some prefix)
              (invalidated "collection" prefix st)) as [results Hr].
  rewrite Hr, Hg, Ha, andb_false_r.
  unfold bind, ret. cbn [snd].
  rewrite run_query_store by apply invalidated_miss.
  rewrite sparql_invalidated.
  apply same_protected_links, execute_update_collection.
Qed.

Lemma same_links_graph g n m : same_links (Store g n) (Store g m).
Proof. split; reflexivity. Qed.

Lemma update_article_down vid acc u categories now st :
  outage (sparql st) <> O ->
  let r := update_article vid acc u categories now st in
  fst r = Return [] /\ same_links (sparql st) (sparql (snd r)).
Proof.
  intros Hout. cbv zeta.
  destruct (sparql st) as [g [|n]] eqn:Hs; [contradiction Hout; reflexivity|].
  pose proof (update_article_phases vid acc u categories now st) as Hp.
  cbv zeta in Hp. rewrite Hp. clear Hp.
  destruct (update_article_query_down vid acc u now st g n Hs) as (Hr & Hs').
  rewrite Hr. cbn [nonempty andb fst snd]. rewrite Hs'.
  split; [reflexivity | apply same_links_graph].
Qed.

Lemma update_collection_down vid acc u articles categories now st :
  outage (sparql st) <> O ->
  let r := update_collection vid acc u articles categories now st in
  fst r = Return [] /\ same_links (sparql st) (sparql (snd r)).
Proof.
  intros Hout. cbv zeta.
  destruct (sparql st) as [g [|n]] eqn:Hs; [contradiction Hout; reflexivity|].
  pose proof (update_collection_phases vid acc u articles categories now st) as Hp.
  cbv zeta in Hp. rewrite Hp. clear Hp.
  destruct (update_collection_query_down vid acc u now st g n Hs) as (Hr & Hs').
  rewrite Hr. cbn [nonempty andb]. unfold bind, ret. cbn [fst snd]. rewrite Hs'.
  split; [reflexivity | apply same_links_graph].
Qed.

End KeptLinks.

(* --------------------------------------------------------------------- *)
(** ** One list given, the other not                                      *)
(* --------------------------------------------------------------------- *)

Section FreshLinks.
Import TripleStore.

Lemma one_class_tested g : one_class_test g -> one_class g.
Proof.
  intros Ht s o1 o2 H1 H2. unfold one_class_test in Ht.
  rewrite Forall_forall in Ht. specialize (Ht _ H1).
  rewrite Forall_forall in Ht. exact (Ht _ H2 eq_refl eq_refl eq_refl).
Qed.

Lemma one_class_subset g g' :
  (forall t, t ∈ g' -> t ∈ g) -> one_class g -> one_class g'.
Proof. intros Hsub Hg s o1 o2 H1 H2. apply (Hg s); apply Hsub; assumption. Qed.

Lemma one_class_same g g' : same_protected g g' -> one_class g -> one_class g'.
Proof.
  intros Hs Hg s o1 o2 H1 H2.
  apply (Hg s); apply (same_protected_elem g g' _ Hs);
    solve [unfold protected; cbn; left | assumption].
Qed.

(** A graph whose triples are all new arrives as it is. *)
Lemma insert_fresh new : forall g,
  NoDup new -> (forall t, t ∈ new -> t ∉ g) -> insert new g = (g ++ new)%list.
Proof.
  unfold insert.
  induction new as [|t new IH]; intros g Hnd Hnew; cbn [foldl].
  - rewrite app_nil_r. reflexivity.
  - apply NoDup_cons in Hnd as [Hnotin Hnd].
    rewrite graph_add_fresh by (apply Hnew; left).
    rewrite IH; [rewrite <- app_assoc; reflexivity | exact Hnd |].
    intros t' Ht' Hin. apply elem_of_app in Hin as [Hin | Hin].
    + apply (Hnew t'); [right; exact Ht' | exact Hin].
    + apply list_elem_of_singleton in Hin. subst t'. contradiction.
Qed.

Lemma insert_fresh_subject new L g :
  NoDup new -> (forall t, t ∈ new -> subject t = L) -> unknown_subject L g ->
  insert new g = (g ++ new)%list.
Proof.
  intros Hnd Hsub Hnew. apply insert_fresh; [exact Hnd|].
  intros t Ht Hin. apply (Hnew t Hin). apply Hsub. exact Ht.
Qed.

Lemma elem_of_app_fresh g new L (t : triple) :
  (forall t, t ∈ new -> subject t = L) -> subject t <> L ->
  forall p o, (subject t, p, o) ∈ (g ++ new)%list <-> (subject t, p, o) ∈ g.
Proof.
  intros Hsub Hne p o. rewrite elem_of_app. split; [|auto].
  intros [H | H]; [exact H|]. apply Hsub in H. contradiction.
Qed.

(** A new subject without category leaves the categories as they are. *)
Lemma category_links_fresh g new L prefix item_type version :
  unknown_subject L g -> (forall t, t ∈ new -> subject t = L) ->
  (forall t, t ∈ new -> predicate t <> COL "category_id") ->
  category_links (g ++ new) prefix item_type version
  = category_links g prefix item_type version.
Proof.
  intros Hnew Hsub Hpred. unfold category_links.
  rewrite filter_app, fmap_app.
  rewrite (filter_nil_iff _ new) by (intros t Ht [Hp _]; exact (Hpred t Ht Hp)).
  rewrite app_nil_r. f_equal. apply filter_ext_in. intros t Ht.
  unfold is_category_link.
  rewrite !(elem_of_app_fresh g new L t Hsub (Hnew t Ht)). reflexivity.
Qed.

(** A new subject without article leaves the articles as they are. *)
Lemma collection_articles_fresh g new L version :
  unknown_subject L g -> (forall t, t ∈ new -> subject t = L) ->
  (forall t, t ∈ new -> predicate t <> COL "article_version_id") ->
  collection_articles (g ++ new) version = collection_articles g version.
Proof.
  intros Hnew Hsub Hpred. unfold collection_articles.
  rewrite filter_app, fmap_app.
  rewrite (filter_nil_iff _ new) by (intros t Ht [Hp _]; exact (Hpred t Ht Hp)).
  rewrite app_nil_r. f_equal. apply filter_ext_in. intros t Ht.
  unfold is_collection_article.
  rewrite !(elem_of_app_fresh g new L t Hsub (Hnew t Ht)). reflexivity.
Qed.

Lemma one_class_fresh g new L :
  unknown_subject L g -> (forall t, t ∈ new -> subject t = L) ->
  one_class new -> one_class g -> one_class (g ++ new).
Proof.
  intros Hnew Hsub Hn Hg s o1 o2 H1 H2.
  apply elem_of_app in H1 as [H1 | H1], H2 as [H2 | H2].
  - exact (Hg s o1 o2 H1 H2).
  - exfalso. apply (Hnew _ H1). apply (Hsub _ H2).
  - exfalso. apply (Hnew _ H2). apply (Hsub _ H1).
  - exact (Hn s o1 o2 H1 H2).
Qed.

(** A subject is not both a link to an article and a link to a category. *)
Lemma link_classes_apart g version version' category_id s :
  one_class g ->
  is_collection_article g version s ->
  is_category_link g "Collection" "collection" version' category_id s -> False.
Proof.
  intros Hg [Ha _] [Hc _].
  pose proof (Hg s _ _ Ha Hc) as H. discriminate H.
Qed.

Lemma remove_article_links_subset g version account_id t :
  t ∈ remove_article_links g version account_id -> t ∈ g.
Proof.
  unfold remove_article_links.
  destruct (decide (owned g "Collection" "collection" version account_id)); [|auto].
  intros H. apply list_elem_of_filter in H. tauto.
Qed.

(** The deletion of the articles of a collection keeps the categories. *)
Lemma remove_article_links_categories g version account_id version' :
  one_class g ->
  category_links (remove_article_links g version account_id)
    "Collection" "collection" version'
  = category_links g "Collection" "collection" version'.
Proof.
  intros Hg. unfold remove_article_links.
  destruct (decide (owned g "Collection" "collection" version account_id)) as [Hown|];
    [|reflexivity].
  unfold category_links. f_equal.
  rewrite list_filter_filter. apply filter_ext_in. intros t Ht.
  set (g' := filter _ g).
  assert (forall p o, is_category_link g "Collection" "collection" version' VNone (subject t)
                      -> (subject t, p, o) ∈ g -> (subject t, p, o) ∈ g') as Hkeep.
  { intros p o Hc Hin. apply list_elem_of_filter. split; [|exact Hin].
    intros Ha. exact (link_classes_apart _ _ _ _ _ Hg Ha Hc). }
  assert (forall t0, t0 ∈ g' -> t0 ∈ g) as Hsub
    by (intros t0 H; apply list_elem_of_filter in H; tauto).
  split.
  - intros [[Hp (H1 & H2 & H3)] _]. split; [exact Hp|].
    split; [auto|]. split; [auto|]. left. reflexivity.
  - intros [Hp Hc]. split; [split; [exact Hp|]|].
    + destruct Hc as (H1 & H2 & H3).
      split; [apply Hkeep; [repeat split; auto | exact H1]|].
      split; [apply Hkeep; [repeat split; auto | exact H2]|].
      left. reflexivity.
    + intros Ha. exact (link_classes_apart _ _ _ _ _ Hg Ha Hc).
Qed.

(** The deletion of the categories of a collection keeps the articles. *)
Lemma remove_category_links_articles g version account_id version' :
  one_class g ->
  collection_articles
    (remove_category_links g "Collection" "collection" version account_id VNone) version'
  = collection_articles g version'.
Proof.
  intros Hg. unfold remove_category_links.
  destruct (decide (owned g "Collection" "collection" version account_id)) as [Hown|];
    [|reflexivity].
  unfold collection_articles. f_equal.
  rewrite list_filter_filter. apply filter_ext_in. intros t Ht.
  set (g' := filter _ g).
  assert (forall p o, is_collection_article g version' (subject t)
                      -> (subject t, p, o) ∈ g -> (subject t, p, o) ∈ g') as Hkeep.
  { intros p o Ha Hin. apply list_elem_of_filter. split; [|exact Hin].
    intros Hc. exact (link_classes_apart _ _ _ _ _ Hg Ha Hc). }
  assert (forall t0, t0 ∈ g' -> t0 ∈ g) as Hsub
    by (intros t0 H; apply list_elem_of_filter in H; tauto).
  split.
  - intros [[Hp (H1 & H2)] _]. split; [exact Hp|]. split; auto.
  - intros [Hp Ha]. split; [split; [exact Hp|]|].
    + destruct Ha as (H1 & H2).
      split; apply Hkeep; solve [split; auto | assumption].
    + intros Hc. exact (link_classes_apart _ _ _ _ _ Hg Ha Hc).
Qed.

End FreshLinks.

Section CollectionLinks.
Import TripleStore.
#[local] Existing Instance TripleStore.world.

(** The graph of a link as [insert_collection_article] builds it. *)
Lemma collection_article_link_built link_id version article :
  graph_add (ROW ("collection_article_" +:+ fmt link_id), COL "article_version_id",
             Literal article None)
    (graph_add (ROW ("collection_article_" +:+ fmt link_id), COL "collection_version_id",
                Literal version None)
       (graph_add (ROW ("collection_article_" +:+ fmt link_id), COL "id",
                   Literal (VInt link_id) None)
          (graph_add (ROW ("collection_article_" +:+ fmt link_id), RDF_type,
                      SG "CollectionArticle") [])))
  = collection_article_link link_id version article.
Proof.
  change (Literal (VInt link_id) None) with (Lit (VInt link_id) (Some XSD_integer)).
  rewrite (graph_add_fresh _ []) by (intros H; inversion H). cbn [app].
  rewrite (graph_add_fresh _ [_])
    by (rewrite !elem_of_cons, elem_of_nil; intros [H | []]; discriminate H).
  cbn [app].
  rewrite (graph_add_fresh _ [_; _])
    by (rewrite !elem_of_cons, elem_of_nil; intros [H | [H | []]]; discriminate H).
  cbn [app].
  rewrite (graph_add_fresh _ [_; _; _])
    by (rewrite !elem_of_cons, elem_of_nil; intros [H | [H | [H | []]]]; discriminate H).
  reflexivity.
Qed.

(** The graph of a link as [insert_item_category] builds it for a
    collection. *)
Lemma collection_category_link_built link_id item_id category_id :
  graph_add (ROW ("collection" +:+ "_category_link_" +:+ fmt link_id),
             COL ("collection" +:+ "_version_id"), Literal item_id (Some XSD_integer))
    (graph_add (ROW ("collection" +:+ "_category_link_" +:+ fmt link_id),
                COL "category_id", Literal category_id (Some XSD_integer))
       (graph_add (ROW ("collection" +:+ "_category_link_" +:+ fmt link_id),
                   COL "id", Literal (VInt link_id) (Some XSD_integer))
          (graph_add (ROW ("collection" +:+ "_category_link_" +:+ fmt link_id),
                      RDF_type, SG (capitalize "collection" +:+ "Category")) [])))
  = collection_category_link link_id item_id category_id.
Proof.
  change ("collection" +:+ "_category_link_" +:+ fmt link_id)
    with ("collection_category_link_" +:+ fmt link_id).
  change (capitalize "collection" +:+ "Category") with "CollectionCategory".
  change ("collection" +:+ "_version_id") with "collection_version_id".
  unfold Literal.
  rewrite (graph_add_fresh _ []) by (intros H; inversion H). cbn [app].
  rewrite (graph_add_fresh _ [_])
    by (rewrite !elem_of_cons, elem_of_nil; intros [H | []]; discriminate H).
  cbn [app].
  rewrite (graph_add_fresh _ [_; _])
    by (rewrite !elem_of_cons, elem_of_nil; intros [H | [H | []]]; discriminate H).
  cbn [app].
  rewrite (graph_add_fresh _ [_; _; _])
    by (rewrite !elem_of_cons, elem_of_nil; intros [H | [H | [H | []]]]; discriminate H).
  reflexivity.
Qed.

Lemma collection_article_link_shape link_id version article :
  let new := collection_article_link link_id version article in
  NoDup new
  /\ (forall t, t ∈ new -> subject t = ROW ("collection_article_" +:+ fmt link_id))
  /\ (forall t, t ∈ new -> predicate t <> COL "category_id")
  /\ one_class new.
Proof.
  cbv zeta. unfold collection_article_link. split; [|split; [|split]].
  - repeat (apply NoDup_cons; split;
            [rewrite ?elem_of_cons, elem_of_nil; intros H;
             repeat (destruct H as [H | H]; [discriminate H|]); exact H|]).
    apply NoDup_nil. exact I.
  - intros t Ht. rewrite !elem_of_cons, elem_of_nil in Ht.
    destruct Ht as [-> | [-> | [-> | [-> | []]]]]; reflexivity.
  - intros t Ht. rewrite !elem_of_cons, elem_of_nil in Ht.
    destruct Ht as [-> | [-> | [-> | [-> | []]]]]; discriminate.
  - intros s o1 o2 H1 H2. rewrite !elem_of_cons, elem_of_nil in H1, H2.
    destruct H1 as [H1 | [H1 | [H1 | [H1 | []]]]]; try discriminate H1.
    destruct H2 as [H2 | [H2 | [H2 | [H2 | []]]]]; try discriminate H2.
    congruence.
Qed.

Lemma collection_category_link_shape link_id item_id category_id :
  let new := collection_category_link link_id item_id category_id in
  NoDup new
  /\ (forall t, t ∈ new -> subject t = ROW ("collection_category_link_" +:+ fmt link_id))
  /\ (forall t, t ∈ new -> predicate t <> COL "article_version_id")
  /\ one_class new.
Proof.
  cbv zeta. unfold collection_category_link. split; [|split; [|split]].
  - repeat (apply NoDup_cons; split;
            [rewrite ?elem_of_cons, elem_of_nil; intros H;
             repeat (destruct H as [H | H]; [discriminate H|]); exact H|]).
    apply NoDup_nil. exact I.
  - intros t Ht. rewrite !elem_of_cons, elem_of_nil in Ht.
    destruct Ht as [-> | [-> | [-> | [-> | []]]]]; reflexivity.
  - intros t Ht. rewrite !elem_of_cons, elem_of_nil in Ht.
    destruct Ht as [-> | [-> | [-> | [-> | []]]]]; discriminate.
  - intros s o1 o2 H1 H2. rewrite !elem_of_cons, elem_of_nil in H1, H2.
    destruct H1 as [H1 | [H1 | [H1 | [H1 | []]]]]; try discriminate H1.
    destruct H2 as [H2 | [H2 | [H2 | [H2 | []]]]]; try discriminate H2.
    congruence.
Qed.

Lemma articles_below_next n g new :
  articles_below g n ->
  (forall t, t ∈ new -> subject t = ROW ("collection_article_" +:+ fmt (n + 1))) ->
  unknown_subject (ROW ("collection_article_" +:+ fmt (n + 1))) g
  /\ articles_below (g ++ new) (n + 1).
Proof.
  intros Hb Hsub. split.
  - intros t Ht. apply (Hb (n + 1) t); [lia | exact Ht].
  - intros k t Hk Ht. apply elem_of_app in Ht as [Ht | Ht].
    + apply Hb; [lia | exact Ht].
    + rewrite (Hsub t Ht).
      intros [= H]. apply String.app_inj in H. unfold fmt in H.
      apply pretty_Z_inj in H. lia.
Qed.

Lemma links_below_next n g new :
  links_below g "collection" n ->
  (forall t, t ∈ new -> subject t = ROW ("collection_category_link_" +:+ fmt (n + 1))) ->
  unknown_subject (ROW ("collection_category_link_" +:+ fmt (n + 1))) g
  /\ links_below (g ++ new) "collection" (n + 1).
Proof.
  intros Hb Hsub. split.
  - intros t Ht. apply (Hb (n + 1) t); [lia | exact Ht].
  - intros k t Hk Ht. apply elem_of_app in Ht as [Ht | Ht].
    + apply Hb; [lia | exact Ht].
    + rewrite (Hsub t Ht).
      change ("collection" +:+ "_category_link_" +:+ fmt k)
        with ("collection_category_link_" +:+ fmt k).
      intros [= H]. apply String.app_inj in H. unfold fmt in H.
      apply pretty_Z_inj in H. lia.
Qed.

End CollectionLinks.

Section CollectionSteps.
Import TripleStore.
#[local] Existing Instance TripleStore.world.

(** One article added to a collection: the store gains at most a new link
    and the categories are as before. *)
Lemma insert_collection_article_up version article st g m :
  sparql st = Store g O ->
  dict_get "collection_article" (ids st) = Some (VInt m) ->
  articles_below g m ->
  let r := insert_collection_article version article st in
  (exists x, fst r = Return x)
  /\ exists g' m',
       sparql (snd r) = Store g' O
       /\ dict_get "collection_article" (ids (snd r)) = Some (VInt m')
       /\ articles_below g' m'
       /\ (one_class g -> one_class g')
       /\ (forall version',
             category_links g' "Collection" "collection" version'
             = category_links g "Collection" "collection" version').
Proof.
  intros Hs Hc Hb. cbv zeta.
  destruct (is_none version || is_none article) eqn:En.
  { assert (insert_collection_article version article st = (Return (VBool false), st)) as ->
      by (unfold insert_collection_article; rewrite En; reflexivity).
    cbn [fst snd]. split; [eauto|]. exists g, m. auto 6. }
  set (st1 := set_ids (dict_set "collection_article" (VInt (m + 1)) (ids st)) st).
  set (new := collection_article_link (m + 1) version article).
  set (q := Insert (state_graph st1) new).
  destruct (collection_article_link_shape (m + 1) version article)
    as (Hnd & Hsub & Hpred & Hone).
  destruct (articles_below_next m g new Hb Hsub) as [Hnew Hb'].
  assert (sparql st1 = Store g O) as Hs1 by (unfold st1; destruct st; exact Hs).
  assert (exists text,
            sparql_query q (sparql st1) = (Return (status text), Store (g ++ new)%list O))
    as [text Hq].
  { rewrite Hs1. unfold q. cbn [sparql_query world execute outage graph].
    rewrite (insert_fresh_subject new _ g Hnd Hsub Hnew). eexists. reflexivity. }
  destruct (run_query_status q None None st1 text _ eq_refl Hq) as (Hr & Hs' & Hi & _).
  set (st2 := snd (run_query q None None st1)) in *.
  assert (insert_collection_article version article st
          = (Return (VInt (m + 1)),
             set_cache (CacheLayer.invalidate_by_prefix "article" (cache st2)) st2)) as ->.
  { unfold insert_collection_article. rewrite En.
    assert (ids_next_id "collection_article" st = (Return (m + 1), st1)) as Hnext.
    { unfold ids_next_id, IdGenerator.next_id. rewrite Hc. reflexivity. }
    unfold bind at 1. rewrite Hnext.
    rewrite collection_article_link_built. fold new.
    unfold bind at 1. unfold insert_query_for_graph, gets. fold q.
    unfold bind at 1. unfold st2.
    destruct (run_query q None None st1) as [r st3]. cbn [fst snd] in *. subst r.
    reflexivity. }
  cbn [fst snd].
  split; [eauto|]. exists (g ++ new)%list, (m + 1).
  split; [destruct st2; exact Hs'|].
  split.
  { replace (ids (set_cache (CacheLayer.invalidate_by_prefix "article" (cache st2)) st2))
      with (ids st2) by (destruct st2; reflexivity).
    rewrite Hi. unfold st1. destruct st; cbn. apply dict_get_set_eq. }
  split; [exact Hb'|].
  split; [apply (one_class_fresh g new _ Hnew Hsub Hone)|].
  intros version'. apply (category_links_fresh g new _ _ _ _ Hnew Hsub Hpred).
Qed.

Lemma insert_articles_up version articles : forall st g m,
  sparql st = Store g O ->
  dict_get "collection_article" (ids st) = Some (VInt m) ->
  articles_below g m ->
  let r := for_each articles (fun article_id =>
             insert_collection_article version article_id ;; ret tt) st in
  fst r = Return tt
  /\ exists g',
       sparql (snd r) = Store g' O
       /\ (forall version',
             category_links g' "Collection" "collection" version'
             = category_links g "Collection" "collection" version').
Proof.
  induction articles as [|a articles IH]; intros st g m Hs Hc Hb.
  - cbn. split; [reflexivity|]. exists g. auto.
  - cbv zeta.
    destruct (insert_collection_article_up version a st g m Hs Hc Hb)
      as ([x Hr] & g1 & m1 & Hs1 & Hc1 & Hb1 & _ & Hl1).
    destruct (insert_collection_article version a st) as [r st1] eqn:E.
    cbn [fst snd] in *. subst r.
    assert (for_each (a :: articles)
              (fun article_id => insert_collection_article version article_id ;; ret tt) st
            = for_each articles
                (fun article_id => insert_collection_article version article_id ;; ret tt)
                st1) as ->.
    { cbn [for_each]. unfold bind at 1. unfold bind at 1. rewrite E. reflexivity. }
    destruct (IH st1 g1 m1 Hs1 Hc1 Hb1) as (R1 & g' & R2 & R3).
    split; [exact R1|]. exists g'. split; [exact R2|].
    intros version'. rewrite R3. apply Hl1.
Qed.

(** One category added to a collection: the store gains a new link and
    the articles are as before. *)
Lemma insert_collection_category_up version category st g m :
  sparql st = Store g O ->
  dict_get "collection_category" (ids st) = Some (VInt m) ->
  links_below g "collection" m ->
  let r := insert_collection_category version category st in
  (exists x, fst r = Return x)
  /\ exists g',
       sparql (snd r) = Store g' O
       /\ dict_get "collection_category" (ids (snd r)) = Some (VInt (m + 1))
       /\ links_below g' "collection" (m + 1)
       /\ (forall version', collection_articles g' version' = collection_articles g version').
Proof.
  intros Hs Hc Hb. cbv zeta.
  set (st1 := set_ids (dict_set "collection_category" (VInt (m + 1)) (ids st)) st).
  set (new := collection_category_link (m + 1) version category).
  set (q := Insert (state_graph st1) new).
  destruct (collection_category_link_shape (m + 1) version category)
    as (Hnd & Hsub & Hpred & _).
  destruct (links_below_next m g new Hb Hsub) as [Hnew Hb'].
  assert (sparql st1 = Store g O) as Hs1 by (unfold st1; destruct st; exact Hs).
  assert (exists text,
            sparql_query q (sparql st1) = (Return (status text), Store (g ++ new)%list O))
    as [text Hq].
  { rewrite Hs1. unfold q. cbn [sparql_query world execute outage graph].
    rewrite (insert_fresh_subject new _ g Hnd Hsub Hnew). eexists. reflexivity. }
  destruct (run_query_status q None None st1 text _ eq_refl Hq) as (Hr & Hs' & Hi & _).
  assert (insert_collection_category version category st
          = (Return (VInt (m + 1)), snd (run_query q None None st1))) as ->.
  { unfold insert_collection_category, insert_item_category.
    change ("collection" +:+ "_category") with "collection_category".
    assert (ids_next_id "collection_category" st = (Return (m + 1), st1)) as Hnext.
    { unfold ids_next_id, IdGenerator.next_id. rewrite Hc. reflexivity. }
    unfold bind at 1. rewrite Hnext.
    rewrite collection_category_link_built. fold new.
    unfold bind at 1. unfold insert_query_for_graph, gets. fold q.
    unfold bind.
    destruct (run_query q None None st1) as [r st2]. cbn [fst snd] in *. subst r.
    reflexivity. }
  cbn [fst snd].
  split; [eauto|]. exists (g ++ new)%list.
  split; [exact Hs'|].
  split; [rewrite Hi; unfold st1; destruct st; cbn; apply dict_get_set_eq|].
  split; [exact Hb'|].
  intros version'. apply (collection_articles_fresh g new _ _ Hnew Hsub Hpred).
Qed.

Lemma insert_collection_categories_up version categories : forall st g m,
  sparql st = Store g O ->
  dict_get "collection_category" (ids st) = Some (VInt m) ->
  links_below g "collection" m ->
  let r := for_each categories (fun category =>
             insert_collection_category version category ;; ret tt) st in
  fst r = Return tt
  /\ exists g',
       sparql (snd r) = Store g' O
       /\ (forall version', collection_articles g' version' = collection_articles g version').
Proof.
  induction categories as [|c categories IH]; intros st g m Hs Hc Hb.
  - cbn. split; [reflexivity|]. exists g. auto.
  - cbv zeta.
    destruct (insert_collection_category_up version c st g m Hs Hc Hb)
      as ([x Hr] & g1 & Hs1 & Hc1 & Hb1 & Hl1).
    destruct (insert_collection_category version c st) as [r st1] eqn:E.
    cbn [fst snd] in *. subst r.
    assert (for_each (c :: categories)
              (fun category => insert_collection_category version category ;; ret tt) st
            = for_each categories
                (fun category => insert_collection_category version category ;; ret tt)
                st1) as ->.
    { cbn [for_each]. unfold bind at 1. unfold bind at 1. rewrite E. reflexivity. }
    destruct (IH st1 g1 _ Hs1 Hc1 Hb1) as (R1 & g' & R2 & R3).
    split; [exact R1|]. exists g'. split; [exact R2|].
    intros version'. rewrite R3. apply Hl1.
Qed.

Lemma delete_collection_articles_up version account_id st g :
  sparql st = Store g O ->
  let r := delete_collection_articles version account_id st in
  (exists rows, fst r = Return rows)
  /\ sparql (snd r) = Store (remove_article_links g version account_id) O
  /\ ids (snd r) = ids st.
Proof.
  intros Hs. cbv zeta.
  set (q := Template "delete_collection_articles"
              [("collection_version_id", version); ("account_id", account_id);
               ("state_graph", VStr (state_graph st))]).
  assert (delete_collection_articles version account_id st = run_query q None None st)
    as -> by reflexivity.
  assert (exists text,
            sparql_query q (sparql st)
            = (Return (status text), Store (remove_article_links g version account_id) O))
    as [text Hq].
  { rewrite Hs. eexists. reflexivity. }
  destruct (run_query_status q None None st text _ eq_refl Hq) as (Hr & Hs' & Hi & _).
  eauto.
Qed.

Lemma delete_collection_categories_up version account_id st g :
  sparql st = Store g O ->
  let r := delete_collection_categories version account_id VNone st in
  (exists rows, fst r = Return rows)
  /\ sparql (snd r)
     = Store (remove_category_links g "Collection" "collection" version account_id VNone) O
  /\ ids (snd r) = ids st.
Proof.
  intros Hs. cbv zeta.
  set (q := Template "delete_item_categories"
              [("item_id", version); ("item_type", VStr "collection");
               ("prefix", VStr "Collection"); ("account_id", account_id);
               ("category_id", VNone); ("state_graph", VStr (state_graph st))]).
  assert (delete_collection_categories version account_id VNone st
          = run_query q None None st) as -> by reflexivity.
  assert (exists text,
            sparql_query q (sparql st)
            = (Return (status text),
               Store (remove_category_links g "Collection" "collection" version
                        account_id VNone) O))
    as [text Hq].
  { rewrite Hs. eexists. reflexivity. }
  destruct (run_query_status q None None st text _ eq_refl Hq) as (Hr & Hs' & Hi & _).
  eauto.
Qed.

(** The update query of a collection on a store that is reachable. *)
Lemma update_collection_query_up vid acc u now st g :
  sparql st = Store g O ->
  let args := update_collection_args vid acc u now (state_graph st) in
  let q := Template "update_collection" args in
  let prefix := fmt_value vid +:+ "_collection" in
  let r := run_query q (Some q) (Some prefix) (invalidated "collection" prefix st) in
  (exists text, fst r = Return [Scalar text])
  /\ sparql (snd r) = Store (patch "Collection" "collection" args g) O
  /\ ids (snd r) = ids st.
Proof.
  intros Hs. cbv zeta.
  set (args := update_collection_args vid acc u now (state_graph st)).
  set (q := Template "update_collection" args).
  set (prefix := fmt_value vid +:+ "_collection").
  assert (sparql (invalidated "collection" prefix st) = Store g O) as Hs1
    by (destruct st; exact Hs).
  assert (exists text,
            sparql_query q (sparql (invalidated "collection" prefix st))
            = (Return (status text), Store (patch "Collection" "collection" args g) O))
    as [text Hq].
  { rewrite Hs1. eexists. reflexivity. }
  destruct (run_query_status q (Some q) (Some prefix) _ text _
              (invalidated_miss "collection" prefix q st) Hq) as (Hr & Hs' & Hi & _).
  split; [eauto|]. split; [exact Hs'|].
  rewrite Hi. destruct st; reflexivity.
Qed.

End CollectionSteps.

Section MixedLists.
Import TripleStore.
#[local] Existing Instance TripleStore.world.

Lemma articles_below_subjects g g' n :
  (forall t', t' ∈ g' -> exists t, t ∈ g /\ subject t = subject t') ->
  articles_below g n -> articles_below g' n.
Proof.
  intros Hsub Hb k t' Hk Ht'. destruct (Hsub t' Ht') as (t & Ht & <-).
  apply Hb; assumption.
Qed.

Lemma links_below_subjects g g' kind n :
  (forall t', t' ∈ g' -> exists t, t ∈ g /\ subject t = subject t') ->
  links_below g kind n -> links_below g' kind n.
Proof.
  intros Hsub Hb k t' Hk Ht'. destruct (Hsub t' Ht') as (t & Ht & <-).
  apply Hb; assumption.
Qed.

(** [update_collection] without categories and with articles. *)
Lemma update_collection_keeps_categories vid acc u articles categories now st m :
  given categories = false ->
  one_class (graph (sparql st)) ->
  dict_get "collection_article" (ids st) = Some (VInt m) ->
  articles_below (graph (sparql st)) m ->
  forall version,
    category_links
      (graph (sparql (snd (update_collection vid acc u articles categories now st))))
      "Collection" "collection" version
    = category_links (graph (sparql st)) "Collection" "collection" version.
Proof.
  intros Hg Hone Hc Hb version.
  destruct (given articles) eqn:Ha.
  2:{ destruct (update_collection_without_lists vid acc u articles categories now st Ha Hg)
        as [Hl _].
      apply Hl. right. reflexivity. }
  destruct (sparql st) as [g [|n]] eqn:Hs.
  2:{ destruct (update_collection_down vid acc u articles categories now st) as [_ [Hl _]];
        [rewrite Hs; discriminate|].
      rewrite Hs in Hl. apply Hl. right. reflexivity. }
  cbn [graph] in *.
  pose proof (update_collection_phases vid acc u articles categories now st) as Hp.
  cbv zeta in Hp. rewrite Hp. clear Hp.
  destruct (update_collection_query_up vid acc u now st g Hs) as ([text Hr] & Hs1 & Hi1).
  rewrite Hr, Hg, Ha. cbn [nonempty andb].
  set (st1 := snd (run_query _ _ _ _)) in *.
  set (g1 := patch "Collection" "collection" _ g) in *.
  assert (same_protected g g1) as Hsame by apply patch_same, update_collection_fields.
  destruct (delete_collection_articles_up vid acc st1 g1 Hs1) as ([rows Hd] & Hs2 & Hi2).
  destruct (delete_collection_articles vid acc st1) as [d st2] eqn:Ed.
  cbn [fst snd] in *. subst d.
  set (g2 := remove_article_links g1 vid acc) in *.
  assert (articles_below g2 m) as Hb2.
  { apply (articles_below_subjects g1).
    - intros t' Ht'. exists t'. split; [|reflexivity].
      apply (remove_article_links_subset g1 vid acc). exact Ht'.
    - apply (articles_below_subjects g); [|exact Hb].
      intros t' Ht'. apply (patch_subjects _ _ _ _ _ Ht'). }
  assert (dict_get "collection_article" (ids st2) = Some (VInt m)) as Hc2
    by (rewrite Hi2, Hi1; exact Hc).
  destruct (insert_articles_up vid (or_empty articles) st2 g2 m Hs2 Hc2 Hb2)
    as (R1 & g' & R2 & R3).
  destruct (for_each (or_empty articles) (fun article_id =>
              insert_collection_article vid article_id ;; ret tt) st2)
    as [x st3] eqn:Ef.
  cbn [fst snd] in *. subst x.
  match goal with |- context [snd ?c] =>
    assert (c = (Return [Scalar text], st3)) as ->
  end.
  { unfold bind at 1. unfold ret at 1. unfold bind at 1. unfold bind at 1.
    rewrite Ed, Ef. reflexivity. }
  cbn [snd]. rewrite R2. cbn [graph]. rewrite R3.
  unfold g2. rewrite remove_article_links_categories
    by (apply (one_class_same g g1 Hsame Hone)).
  apply category_links_same; [right; reflexivity | exact Hsame].
Qed.

(** [update_collection] without articles and with categories. *)
Lemma update_collection_keeps_articles vid acc u articles categories now st m :
  given articles = false ->
  one_class (graph (sparql st)) ->
  dict_get "collection_category" (ids st) = Some (VInt m) ->
  links_below (graph (sparql st)) "collection" m ->
  forall version,
    collection_articles
      (graph (sparql (snd (update_collection vid acc u articles categories now st))))
      version
    = collection_articles (graph (sparql st)) version.
Proof.
  intros Ha Hone Hc Hb version.
  destruct (given categories) eqn:Hg.
  2:{ destruct (update_collection_without_lists vid acc u articles categories now st Ha Hg)
        as [_ Hl].
      apply Hl. }
  destruct (sparql st) as [g [|n]] eqn:Hs.
  2:{ destruct (update_collection_down vid acc u articles categories now st) as [_ [_ Hl]];
        [rewrite Hs; discriminate|].
      rewrite Hs in Hl. apply Hl. }
  cbn [graph] in *.
  pose proof (update_collection_phases vid acc u articles categories now st) as Hp.
  cbv zeta in Hp. rewrite Hp. clear Hp.
  destruct (update_collection_query_up vid acc u now st g Hs) as ([text Hr] & Hs1 & Hi1).
  rewrite Hr, Hg, Ha. cbn [nonempty andb].
  set (st1 := snd (run_query _ _ _ _)) in *.
  set (g1 := patch "Collection" "collection" _ g) in *.
  assert (same_protected g g1) as Hsame by apply patch_same, update_collection_fields.
  destruct (delete_collection_categories_up vid acc st1 g1 Hs1) as ([rows Hd] & Hs2 & Hi2).
  destruct (delete_collection_categories vid acc VNone st1) as [d st2] eqn:Ed.
  cbn [fst snd] in *. subst d.
  set (g2 := remove_category_links g1 "Collection" "collection" vid acc VNone) in *.
  assert (links_below g2 "collection" m) as Hb2.
  { apply (links_below_subjects g1).
    - intros t' Ht'. exists t'. split; [|reflexivity].
      apply (remove_category_links_subset g1 _ _ _ _ _ _ Ht').
    - apply (links_below_subjects g); [|exact Hb].
      intros t' Ht'. apply (patch_subjects _ _ _ _ _ Ht'). }
  assert (dict_get "collection_category" (ids st2) = Some (VInt m)) as Hc2
    by (rewrite Hi2, Hi1; exact Hc).
  destruct (insert_collection_categories_up vid (or_empty categories) st2 g2 m Hs2 Hc2 Hb2)
    as (R1 & g' & R2 & R3).
  destruct (for_each (or_empty categories) (fun category =>
              insert_collection_category vid category ;; ret tt) st2)
    as [x st3] eqn:Ef.
  cbn [fst snd] in *. subst x.
  match goal with |- context [snd ?c] =>
    assert (c = (Return [Scalar text], st3)) as ->
  end.
  { unfold bind at 1. unfold bind at 1. rewrite Ed, Ef. reflexivity. }
  cbn [snd]. rewrite R2. cbn [graph]. rewrite R3.
  unfold g2. rewrite remove_category_links_articles
    by (apply (one_class_same g g1 Hsame Hone)).
  apply collection_articles_same. exact Hsame.
Qed.

End MixedLists.



(* --------------------------------------------------------------------- *)
(** * Part III.  Further properties of the module                         *)
(* --------------------------------------------------------------------- *)

(* --------------------------------------------------------------------- *)
(** ** Normalisation of a row                                             *)
(* --------------------------------------------------------------------- *)

Section Normalisation.
Context `{W : World}.

Lemma normalize_items_keys items : forall done st r,
  fst (normalize_items items done st) = Return (Row r) ->
  map fst r = (map fst done ++ map fst items)%list.
Proof.
  induction items as [|[item cell] items IH]; intros done st r.
  - cbn. intros [= <-]. rewrite app_nil_r. reflexivity.
  - cbn [normalize_items].
    assert (forall v st0,
              fst (normalize_items items (done ++ [(item, v)])%list st0) = Return (Row r) ->
              map fst r = (map fst done ++ map fst ((item, cell) :: items))%list) as Hkeep.
    { intros v st0 H. rewrite (IH _ _ _ H), map_app, <- app_assoc. reflexivity. }
    assert (forall (o : outcome Z) (f : Z -> value),
              fst (bind (lift o)
                     (fun n => normalize_items items (done ++ [(item, f n)])%list) st)
              = Return (Row r) ->
              map fst r = (map fst done ++ map fst ((item, cell) :: items))%list) as Hnum.
    { intros [n|e] f; unfold bind, lift; cbn [fst]; [apply Hkeep | discriminate]. }
    destruct (String.eqb (b_type cell) "typed-literal").
    { destruct (b_datatype cell) as [datatype|]; [|discriminate].
      destruct (String.eqb datatype xsd_integer); [apply Hnum|].
      destruct (String.eqb datatype xsd_decimal); [apply Hnum|].
      destruct (String.eqb datatype xsd_boolean);
        [apply (Hnum _ (fun n => VBool (negb (n =? 0))))|].
      destruct (String.eqb datatype xsd_dateTime).
      { unfold bind, lift. destruct (normalize_dateTime (b_value cell)); cbn [fst];
          [apply Hkeep | discriminate]. }
      destruct (String.eqb datatype xsd_string); [|apply Hkeep].
      destruct (String.eqb (b_value cell) "NULL"); apply Hkeep. }
    destruct (String.eqb (b_type cell) "literal").
    { destruct (startswith (b_value cell) "Modify " || startswith (b_value cell) "Insert into "
                || startswith (b_value cell) "Delete from "); discriminate. }
    destruct (String.eqb (b_type cell) "uri"); [apply Hkeep|].
    unfold bind. rewrite logging_call_more. apply Hkeep.
Qed.

Lemma normalize_items_literal item cell post post' pre : forall done st,
  b_type cell = "literal" ->
  normalize_items (pre ++ (item, cell) :: post)%list done st
  = normalize_items (pre ++ (item, cell) :: post')%list done st
  /\ (forall r,
        fst (normalize_items (pre ++ (item, cell) :: post)%list done st) <> Return (Row r))
  /\ (Forall (fun kc => b_type (snd kc) = "uri") pre ->
      fst (normalize_items (pre ++ (item, cell) :: post)%list done st)
      = Return (Scalar (b_value cell))).
Proof.
  induction pre as [|[k c] pre IH]; intros done st Hlit.
  - cbn [app normalize_items]. rewrite Hlit.
    change (String.eqb "literal" "typed-literal") with false.
    change (String.eqb "literal" "literal") with true. cbv iota.
    split; [reflexivity|].
    destruct (startswith (b_value cell) "Modify " || startswith (b_value cell) "Insert into "
              || startswith (b_value cell) "Delete from ");
      (split; [intros r; discriminate | intros _; reflexivity]).
  - cbn [app normalize_items].
    assert (forall (o : outcome Z) (f : Z -> value),
              bind (lift o) (fun n => normalize_items (pre ++ (item, cell) :: post)%list
                                        (done ++ [(k, f n)])%list) st
              = bind (lift o) (fun n => normalize_items (pre ++ (item, cell) :: post')%list
                                          (done ++ [(k, f n)])%list) st
              /\ forall r,
                   fst (bind (lift o)
                          (fun n => normalize_items (pre ++ (item, cell) :: post)%list
                                      (done ++ [(k, f n)])%list) st)
                   <> Return (Row r)) as Hnum.
    { intros [n|e] f; unfold bind, lift; cbn [fst].
      - destruct (IH (done ++ [(k, f n)])%list st Hlit) as (H1 & H2 & _). auto.
      - split; [reflexivity | intros r; discriminate]. }
    destruct (String.eqb (b_type c) "typed-literal") eqn:Etyped.
    { assert (~ Forall (fun kc : string * binding => b_type (snd kc) = "uri") ((k, c) :: pre))
        as Hnot.
      { intros H. apply Forall_cons in H as [H _]. cbn in H. rewrite H in Etyped.
        discriminate Etyped. }
      destruct (b_datatype c) as [datatype|].
      2:{ split; [reflexivity|]. split; [intros r; discriminate | intros H; contradiction]. }
      destruct (String.eqb datatype xsd_integer);
        [destruct (Hnum (int_of_float (b_value c)) VInt) as [H1 H2];
         split; [exact H1|]; split; [exact H2 | intros H; contradiction]|].
      destruct (String.eqb datatype xsd_decimal);
        [destruct (Hnum (int_of_float (b_value c)) VInt) as [H1 H2];
         split; [exact H1|]; split; [exact H2 | intros H; contradiction]|].
      destruct (String.eqb datatype xsd_boolean);
        [destruct (Hnum (int_of_text (b_value c)) (fun n => VBool (negb (n =? 0))))
           as [H1 H2];
         split; [exact H1|]; split; [exact H2 | intros H; contradiction]|].
      destruct (String.eqb datatype xsd_dateTime).
      { unfold bind, lift. destruct (normalize_dateTime (b_value c)) as [s|e]; cbn [fst].
        - destruct (IH (done ++ [(k, VStr s)])%list st Hlit) as (H1 & H2 & _).
          split; [exact H1|]. split; [exact H2 | intros H; contradiction].
        - split; [reflexivity|]. split; [intros r; discriminate | intros H; contradiction]. }
      destruct (String.eqb datatype xsd_string).
      { destruct (String.eqb (b_value c) "NULL");
          [destruct (IH (done ++ [(k, VNone)])%list st Hlit) as (H1 & H2 & _)
          |destruct (IH (done ++ [(k, VStr (b_value c))])%list st Hlit) as (H1 & H2 & _)];
          (split; [exact H1|]; split; [exact H2 | intros H; contradiction]). }
      destruct (IH (done ++ [(k, VCell c)])%list st Hlit) as (H1 & H2 & _).
      split; [exact H1|]. split; [exact H2 | intros H; contradiction]. }
    destruct (String.eqb (b_type c) "literal") eqn:Eliteral.
    { split; [reflexivity|]. split.
      - intros r.
        destruct (startswith (b_value c) "Modify " || startswith (b_value c) "Insert into "
                  || startswith (b_value c) "Delete from "); discriminate.
      - intros H. apply Forall_cons in H as [H _]. cbn in H. rewrite H in Eliteral.
        discriminate Eliteral. }
    destruct (String.eqb (b_type c) "uri") eqn:Euri.
    { destruct (IH (done ++ [(k, VStr (b_value c))])%list st Hlit) as (H1 & H2 & H3).
      split; [exact H1|]. split; [exact H2|].
      intros H. apply Forall_cons in H as [_ H]. exact (H3 H). }
    unfold bind at 1 2 3 4. rewrite logging_call_more.
    destruct (IH (done ++ [(k, VCell c)])%list
                (set_logging (logging st ++ [Log INFO "Not a typed-literal: %s"
                                               [ArgStr (b_type c)]])%list st) Hlit)
      as (H1 & H2 & _).
    split; [exact H1|]. split; [exact H2|].
    intros H. apply Forall_cons in H as [H _]. cbn in H. rewrite H in Euri.
    discriminate Euri.
Qed.

End Normalisation.

(** X1.  When [__normalize_binding] answers a row by a record, the record
    has the keys of the row, in the order of the row: a cell is replaced
    where it stands, none is dropped and none is added. *)
Theorem normalized_record_keys `{W : World} (row : raw_row) (st : SparqlInterface)
    (r : record) :
  fst (normalize_binding row st) = Return (Row r) ->
  map fst r = map fst row.
Proof.
  intros H. unfold normalize_binding in H.
  apply normalize_items_keys in H. exact H.
Qed.

Lemma normalized_record_keys_witness :
  let row := [("id", Binding "typed-literal" (Some xsd_integer) "7");
              ("title", Binding "typed-literal" (Some xsd_string) "NULL");
              ("uri", Binding "uri" None "article:7");
              ("odd", Binding "bnode" None "b0")] in
  let st := init (W := Env.Scripted) [] (Env.Script [] []) in
  fst (normalize_binding row st)
  = Return (Row [("id", VInt 7); ("title", VNone); ("uri", VStr "article:7");
                 ("odd", VCell (Binding "bnode" None "b0"))])
  /\ map fst [("id", VInt 7); ("title", VNone); ("uri", VStr "article:7");
              ("odd", VCell (Binding "bnode" None "b0"))]
     = ["id"; "title"; "uri"; "odd"].
Proof.
  intros row st. split; [reflexivity|].
  exact (normalized_record_keys (W := Env.Scripted) row st _ eq_refl).
Defined.

(** X2.  A cell of type "literal" ends the normalisation of its row: the
    cells after it are not looked at, so the answer is the same whatever
    they are; the row is never answered by a record; and when the cells
    before it are all of type "uri" the answer is the text of the cell. *)
Theorem literal_cell_ends_row `{W : World} (pre post post' : raw_row) (item : string)
    (cell : binding) (st : SparqlInterface) :
  b_type cell = "literal" ->
  normalize_binding (pre ++ (item, cell) :: post)%list st
  = normalize_binding (pre ++ (item, cell) :: post')%list st
  /\ (forall r,
        fst (normalize_binding (pre ++ (item, cell) :: post)%list st) <> Return (Row r))
  /\ (Forall (fun kc => b_type (snd kc) = "uri") pre ->
      fst (normalize_binding (pre ++ (item, cell) :: post)%list st)
      = Return (Scalar (b_value cell))).
Proof.
  intros Hlit. unfold normalize_binding.
  apply normalize_items_literal. exact Hlit.
Qed.

Lemma literal_cell_ends_row_witness :
  let pre := [("s", Binding "uri" None "article:7")] in
  let cell := Binding "literal" None "Insert into <g>, 4 triples -- done" in
  let broken := [("t", Binding "typed-literal" None "no datatype")] in
  let st := init (W := Env.Scripted) [] (Env.Script [] []) in
  fst (normalize_binding (pre ++ ("callret-0", cell) :: broken)%list st)
  = Return (Scalar "Insert into <g>, 4 triples -- done")
  /\ fst (normalize_binding (pre ++ broken)%list st) = Raise KeyError.
Proof.
  intros pre cell broken st. split; [|reflexivity].
  destruct (literal_cell_ends_row (W := Env.Scripted) pre broken [] "callret-0" cell st
              eq_refl) as (_ & _ & H).
  apply H. repeat constructor.
Defined.

(* --------------------------------------------------------------------- *)
(** ** Answers that cannot be read, and what a failure leaves behind      *)
(* --------------------------------------------------------------------- *)

Section Failures.
Context `{W : World}.

Lemma handled_frame q e st :
  cache (handled q e st) = cache st /\ sparql (handled q e st) = sparql st
  /\ ids (handled q e st) = ids st /\ privileges (handled q e st) = privileges st.
Proof.
  destruct st as [i g p c s u l d].
  destruct e; cbn; try (repeat split; reflexivity).
  destruct u; repeat split; reflexivity.
Qed.

Lemma handled_other q e st :
  e <> URLError ->
  sparql_is_up (handled q e st) = sparql_is_up st
  /\ exists extra,
       logging (handled q e st) = (logging st ++ extra)%list /\ query_logged q extra.
Proof.
  intros He. destruct st as [i g p c s u l d].
  destruct e; try contradiction; cbn;
    (split; [reflexivity|]; eexists; split; [reflexivity|]; unfold query_logged;
     first [ solve [apply Exists_cons; right; apply Exists_cons; left;
                    cbn; apply list_elem_of_here]
           | solve [apply Exists_cons; right; apply Exists_cons; right;
                    apply Exists_cons; left; cbn; apply list_elem_of_here] ]).
Qed.

(** A failed call, case by case. *)
Lemma run_query_failed q cache_key_string prefix st e s' :
  cache_miss cache_key_string prefix st ->
  (sparql_query q (sparql st) = (Raise e, s')
   \/ exists rows, sparql_query q (sparql st) = (Return rows, s')
                   /\ fst (map_list normalize_binding rows (set_sparql s' st)) = Raise e) ->
  exists extra,
    run_query q cache_key_string prefix st
    = (Return [], handled q e (set_logging (logging st ++ extra)%list (set_sparql s' st)))
    /\ Forall normalizer_record extra.
Proof.
  intros Hmiss Hfail. rewrite run_query_cases.
  unfold cache_miss in Hmiss. rewrite Hmiss.
  destruct Hfail as [Hq | (rows & Hq & Hn)]; rewrite Hq.
  - exists []. split; [|constructor].
    replace (set_logging (logging st ++ [])%list (set_sparql s' st)) with (set_sparql s' st)
      by (destruct st; cbn; rewrite app_nil_r; reflexivity).
    reflexivity.
  - destruct (map_list_normalize_logs rows (set_sparql s' st)) as (extra & Hmore & Hall).
    destruct (map_list normalize_binding rows (set_sparql s' st)) as [[results|e0] st2];
      cbn [fst snd] in *; [discriminate|].
    injection Hn as ->. unfold logs_more in Hmore. subst st2.
    exists extra. split; [|exact Hall].
    destruct st; reflexivity.
Qed.

End Failures.

(** X3.  When the endpoint answers but a cell of one row cannot be
    normalised, [__run_query] returns the empty list: the rows that were
    read are lost with the one that was not.  The failure is logged with
    the text of the query, the query has reached the store, and the flag
    of the connection stays as it was, so an outage that the answer ends
    is not reported as ended. *)
Theorem unreadable_answer_is_lost `{W : World} (q : query)
    (cache_key_string : option query) (prefix : option string) (st : SparqlInterface)
    (rows : list raw_row) (s' : store) (e : exn) :
  cache_miss cache_key_string prefix st ->
  sparql_query q (sparql st) = (Return rows, s') ->
  fst (map_list normalize_binding rows (set_sparql s' st)) = Raise e ->
  e <> URLError ->
  let r := run_query q cache_key_string prefix st in
  fst r = Return []
  /\ sparql (snd r) = s'
  /\ sparql_is_up (snd r) = sparql_is_up st
  /\ exists extra,
       logging (snd r) = (logging st ++ extra)%list /\ query_logged q extra.
Proof.
  intros Hmiss Hq Hn He. cbv zeta.
  destruct (run_query_failed q cache_key_string prefix st e s' Hmiss) as (e1 & -> & Hall);
    [right; eauto|].
  cbn [fst snd].
  destruct (handled_frame q e (set_logging (logging st ++ e1)%list (set_sparql s' st)))
    as (_ & Hs & _).
  destruct (handled_other q e (set_logging (logging st ++ e1)%list (set_sparql s' st)) He)
    as (Hu & e2 & Hl & Hlogged).
  split; [reflexivity|]. split; [rewrite Hs; destruct st; reflexivity|].
  split; [rewrite Hu; destruct st; reflexivity|].
  exists (e1 ++ e2)%list. split.
  - rewrite Hl. destruct st; cbn. rewrite app_assoc. reflexivity.
  - unfold query_logged in *. apply Exists_app. right. exact Hlogged.
Qed.

Lemma unreadable_answer_is_lost_witness :
  let good := [("id", Binding "typed-literal" (Some xsd_integer) "7")] in
  let bad := [("id", Binding "typed-literal" None "8")] in
  let q := Template "licenses" [] in
  let st := set_sparql_is_up false
              (init (W := Env.Scripted) [] (Env.Script [Return [good; bad]] [])) in
  fst (run_query q None None st) = Return []
  /\ sparql_is_up (snd (run_query q None None st)) = false.
Proof.
  intros good bad q st.
  destruct (unreadable_answer_is_lost (W := Env.Scripted) q None None st [good; bad]
              (Env.Script [] [q]) KeyError eq_refl eq_refl eq_refl)
    as (Hr & _ & Hu & _); [discriminate|].
  split; assumption.
Defined.

(** X4.  A call of [__run_query] that fails, because the endpoint raised
    or because a row could not be normalised, stores nothing in the cache
    and leaves the counters and the privileges alone: the cache still
    holds nothing for the call, and the same call made again goes to the
    endpoint again. *)
Theorem failed_query_caches_nothing `{W : World} (q : query)
    (cache_key_string : option query) (prefix : option string) (st : SparqlInterface)
    (e : exn) (s' : store) :
  cache_miss cache_key_string prefix st ->
  (sparql_query q (sparql st) = (Raise e, s')
   \/ exists rows, sparql_query q (sparql st) = (Return rows, s')
                   /\ fst (map_list normalize_binding rows (set_sparql s' st)) = Raise e) ->
  let r := run_query q cache_key_string prefix st in
  fst r = Return []
  /\ cache (snd r) = cache st
  /\ ids (snd r) = ids st
  /\ privileges (snd r) = privileges st
  /\ cache_miss cache_key_string prefix (snd r)
  /\ sparql (snd (run_query q cache_key_string prefix (snd r)))
     = snd (sparql_query q s').
Proof.
  intros Hmiss Hfail. cbv zeta.
  destruct (run_query_failed q cache_key_string prefix st e s' Hmiss Hfail)
    as (e1 & -> & _).
  cbn [fst snd].
  set (st1 := set_logging (logging st ++ e1)%list (set_sparql s' st)).
  destruct (handled_frame q e st1) as (Hc & Hs & Hi & Hp).
  assert (cache (handled q e st1) = cache st) as Hc'
    by (rewrite Hc; destruct st; reflexivity).
  assert (cache_miss cache_key_string prefix (handled q e st1)) as Hmiss'
    by (unfold cache_miss in *; rewrite Hc'; exact Hmiss).
  split; [reflexivity|]. split; [exact Hc'|].
  split; [rewrite Hi; destruct st; reflexivity|].
  split; [rewrite Hp; destruct st; reflexivity|].
  split; [exact Hmiss'|].
  rewrite (run_query_store q cache_key_string prefix _ Hmiss'), Hs.
  destruct st; reflexivity.
Qed.

Lemma failed_query_caches_nothing_witness :
  let q := Template "licenses" [] in
  let st := Interface (W := Env.Scripted) [] "https://data.4tu.nl/portal/self-test" []
              (CacheLayer.Cache (Some "/cache") [])
              (Env.Script [Raise QueryBadFormed; Return []] []) true [] O in
  cache (snd (run_query q (Some q) (Some "licenses") st)) = CacheLayer.Cache (Some "/cache") []
  /\ Env.received
       (sparql (snd (run_query q (Some q) (Some "licenses")
                       (snd (run_query q (Some q) (Some "licenses") st)))))
     = [q; q].
Proof.
  intros q st.
  destruct (failed_query_caches_nothing (W := Env.Scripted) q (Some q) (Some "licenses") st
              QueryBadFormed (Env.Script [Return []] [q]) eq_refl (or_introl eq_refl))
    as (_ & Hc & _ & _ & _ & Hs).
  split; [exact Hc|]. rewrite Hs. reflexivity.
Defined.

(* --------------------------------------------------------------------- *)
(** ** Reading through the cache                                          *)
(* --------------------------------------------------------------------- *)

Section ReadThrough.
Context `{W : World}.

Lemma cached_value_cache_value prefix key v c :
  CacheLayer.cache_is_ready c = true ->
  CacheLayer.cached_value prefix key (CacheLayer.cache_value prefix key v c) = Some v.
Proof.
  intros Hready. unfold CacheLayer.cached_value, CacheLayer.cache_value.
  rewrite Hready. unfold CacheLayer.cache_is_ready in *.
  cbn [CacheLayer.storage CacheLayer.entries]. rewrite Hready.
  cbn [find fst snd]. rewrite bool_decide_eq_true_2 by reflexivity. reflexivity.
Qed.

Lemma answered_cache key prefix results st :
  cache (answered (Some key) prefix results st)
  = CacheLayer.cache_value prefix (CacheLayer.make_key key) results (cache st).
Proof.
  destruct st as [i g p c s u l d]. unfold answered. cbn. destruct u; reflexivity.
Qed.

(** An answered query with a key, on a cache that is ready. *)
Lemma run_query_stores q key prefix st rows s' results :
  CacheLayer.cache_is_ready (cache st) = true ->
  cache_miss (Some key) prefix st ->
  sparql_query q (sparql st) = (Return rows, s') ->
  fst (map_list normalize_binding rows (set_sparql s' st)) = Return results ->
  let r := run_query q (Some key) prefix st in
  fst r = Return results
  /\ CacheLayer.cached_value prefix (CacheLayer.make_key key) (cache (snd r)) = Some results
  /\ state_graph (snd r) = state_graph st.
Proof.
  intros Hready Hmiss Hq Hn. cbv zeta.
  destruct (run_query_frame q (Some key) prefix st) as (_ & Hg & _).
  split; [|split; [|exact Hg]].
  - rewrite run_query_cases. unfold cache_miss in Hmiss. rewrite Hmiss, Hq.
    destruct (map_list normalize_binding rows (set_sparql s' st)) as [[rs|e] st2];
      cbn [fst snd] in *; [|discriminate].
    injection Hn as ->. reflexivity.
  - rewrite run_query_cases. unfold cache_miss in Hmiss. rewrite Hmiss, Hq.
    destruct (map_list_normalize_logs rows (set_sparql s' st)) as (extra & Hmore & _).
    destruct (map_list normalize_binding rows (set_sparql s' st)) as [[rs|e] st2];
      cbn [fst snd] in *; [|discriminate].
    injection Hn as ->. rewrite answered_cache.
    unfold logs_more in Hmore. subst st2.
    replace (cache (set_logging (logging (set_sparql s' st) ++ extra)%list (set_sparql s' st)))
      with (cache st) by (destruct st; reflexivity).
    apply cached_value_cache_value. exact Hready.
Qed.

End ReadThrough.

(** X5.  With a cache that is ready, a query that was answered is stored
    under its key: the next call with the same key and prefix returns the
    same rows and leaves the object as it is, the endpoint is not asked
    and nothing is logged, whatever the text of the query of that call. *)
Theorem answer_is_read_back `{W : World} (q : query) (key : query)
    (prefix : option string) (st : SparqlInterface) (rows : list raw_row) (s' : store)
    (results : list result_row) :
  CacheLayer.cache_is_ready (cache st) = true ->
  cache_miss (Some key) prefix st ->
  sparql_query q (sparql st) = (Return rows, s') ->
  fst (map_list normalize_binding rows (set_sparql s' st)) = Return results ->
  let r := run_query q (Some key) prefix st in
  fst r = Return results
  /\ forall q', run_query q' (Some key) prefix (snd r) = (Return results, snd r).
Proof.
  intros Hready Hmiss Hq Hn. cbv zeta.
  destruct (run_query_stores q key prefix st rows s' results Hready Hmiss Hq Hn)
    as (H1 & H2 & _).
  split; [exact H1|]. intros q'. rewrite run_query_cases, H2. reflexivity.
Qed.

Lemma answer_is_read_back_witness :
  let q := Template "licenses" [] in
  let row := [("id", Binding "typed-literal" (Some xsd_integer) "7")] in
  let st := Interface (W := Env.Scripted) [] "https://data.4tu.nl/portal/self-test" []
              (CacheLayer.Cache (Some "/cache") [])
              (Env.Script [Return [row]] []) true [] O in
  let r := run_query q (Some q) (Some "licenses") st in
  fst r = Return [Row [("id", VInt 7)]]
  /\ run_query q (Some q) (Some "licenses") (snd r) = (Return [Row [("id", VInt 7)]], snd r).
Proof.
  intros q row st r.
  destruct (answer_is_read_back (W := Env.Scripted) q q (Some "licenses") st [row]
              (Env.Script [] [q]) [Row [("id", VInt 7)]] eq_refl eq_refl eq_refl eq_refl)
    as (H1 & H2).
  split; [exact H1 | apply H2].
Defined.

(* --------------------------------------------------------------------- *)
(** ** Start-up on a store that answers                                   *)
(* --------------------------------------------------------------------- *)

Section Resume.
Context `{W : World}.

(** The first loop of [load_state] on a store that reports its highest
    identifiers. *)
Lemma load_loop_reports latest items : forall st,
  reports latest (state_graph st) items (sparql st) ->
  let r := for_each items load_counter st in
  fst r = Return tt
  /\ (forall item, item ∈ items -> dict_get item (ids (snd r)) = Some (VInt (latest item)))
  /\ (forall item, item ∉ items -> dict_get item (ids (snd r)) = dict_get item (ids st)).
Proof.
  induction items as [|item items IH]; intros st Hrep.
  - cbn. split; [reflexivity|]. split; [intros item H; inversion H | auto].
  - cbv zeta. cbn [reports] in Hrep. destruct Hrep as (text & s1 & Hq & Hn & Hrest).
    set (st1 := set_sparql s1 st).
    set (st1' := answered None None [Row [("id", VInt (latest item))]] st1).
    set (st2 := set_ids (dict_set item (VInt (latest item)) (ids st1')) st1').
    assert (run_query (highest_id_query item st) None None st
            = (Return [Row [("id", VInt (latest item))]], st1')) as Hrun.
    { rewrite run_query_cases. unfold highest_id_query. rewrite Hq.
      cbn [map_list]. unfold bind at 1. unfold normalize_binding at 1.
      cbn [normalize_items b_type b_datatype b_value].
      change (String.eqb "typed-literal" "typed-literal") with true.
      change (String.eqb xsd_integer xsd_integer) with true. cbv iota.
      unfold bind at 1. rewrite Hn. unfold lift. cbn [app normalize_items].
      reflexivity. }
    assert (for_each (item :: items) load_counter st = for_each items load_counter st2) as ->.
    { cbn [for_each]. unfold bind.
      rewrite load_counter_cases, highest_id_cases. cbv zeta.
      rewrite Hrun. cbn [fst snd dict_get].
      destruct (decide ("id" = "id")); [reflexivity | contradiction]. }
    assert (sparql st2 = s1 /\ state_graph st2 = state_graph st /\ ids st1' = ids st)
      as (Hs2 & Hg2 & Hi2).
    { unfold st2, st1', st1, answered. destruct st as [i g p c s u l d]. cbn.
      destruct u; auto. }
    assert (reports latest (state_graph st2) items (sparql st2)) as Hrep2
      by (rewrite Hs2, Hg2; exact Hrest).
    destruct (IH st2 Hrep2) as (R1 & R2 & R3).
    split; [exact R1|]. split.
    + intros item0 Hin. destruct (decide (item0 ∈ items)) as [Hi | Hni]; [auto|].
      rewrite R3 by exact Hni.
      apply elem_of_cons in Hin as [-> | Hin]; [|contradiction].
      unfold st2. cbn [ids set_ids]. apply dict_get_set_eq.
    + intros item0 Hni. rewrite R3 by (intros H; apply Hni; right; exact H).
      unfold st2. cbn [ids set_ids]. rewrite dict_get_set_ne, Hi2; [reflexivity|].
      intros ->. apply Hni. left.
Qed.

End Resume.

(** X6.  On a store that answers the query of each kind by a row with its
    highest identifier, [load_state] raises nothing and leaves every
    counter at the identifier that the store reported for its kind, so the
    first identifier drawn for a kind after start-up is one more than the
    highest that the store holds. *)
Theorem load_state_resumes_counters `{W : World} (werkzeug_run_main : bool)
    (st : SparqlInterface) (latest : string -> Z) :
  reports latest (state_graph st) (IdGenerator.keys (ids st)) (sparql st) ->
  let r := load_state werkzeug_run_main st in
  fst r = Return tt
  /\ forall item, item ∈ IdGenerator.keys (ids st) ->
       dict_get item (ids (snd r)) = Some (VInt (latest item))
       /\ fst (ids_next_id item (snd r)) = Return (latest item + 1).
Proof.
  intros Hrep. cbv zeta.
  destruct (load_loop_reports latest (IdGenerator.keys (ids st)) st Hrep) as (R1 & R2 & _).
  destruct (for_each (IdGenerator.keys (ids st)) load_counter st) as [x st1] eqn:E.
  cbn [fst snd] in *. subst x.
  rewrite (load_state_returned werkzeug_run_main st st1 E).
  assert (forall item, item ∈ IdGenerator.keys (ids st) ->
            forall st2, ids st2 = ids st1 ->
            dict_get item (ids st2) = Some (VInt (latest item))
            /\ fst (ids_next_id item st2) = Return (latest item + 1)) as Hend.
  { intros item Hin st2 Hi. rewrite Hi. split; [exact (R2 item Hin)|].
    unfold ids_next_id, IdGenerator.next_id. rewrite Hi, (R2 item Hin). reflexivity. }
  destruct (negb werkzeug_run_main && sparql_is_up st1).
  - destruct (log_loop (IdGenerator.keys (ids st1)) st1) as (L1 & L2 & _).
    { intros item Hin. apply dict_get_keys. exact Hin. }
    split; [exact L1|]. intros item Hin. apply Hend; assumption.
  - cbn [fst snd]. split; [reflexivity|]. intros item Hin. apply Hend; auto.
Qed.

Lemma load_state_resumes_counters_witness :
  let answer n := Return [[("id", Binding "typed-literal" (Some xsd_integer) n)]] in
  let st := init (W := Env.Scripted) [("article", VNone); ("collection", VNone)]
              (Env.Script [answer "41"; answer "7"] []) in
  ids (snd (load_state false st)) = [("article", VInt 41); ("collection", VInt 7)]
  /\ fst (ids_next_id "article" (snd (load_state false st))) = Return 42.
Proof.
  intros answer st.
  assert (reports (W := Env.Scripted)
            (fun item => if decide (item = "article") then 41 else 7)
            (state_graph st) (IdGenerator.keys (ids st)) (sparql st)) as Hrep.
  { cbn. eexists _, _. split; [reflexivity|]. split; [reflexivity|].
    eexists _, _. split; [reflexivity|]. split; [reflexivity|]. exact I. }
  destruct (load_state_resumes_counters (W := Env.Scripted) false st _ Hrep) as (_ & H).
  split; [reflexivity|].
  destruct (H "article") as [_ Hnext]; [left|]. exact Hnext.
Defined.

(* --------------------------------------------------------------------- *)
(** ** Identifiers drawn by the insertions                                *)
(* --------------------------------------------------------------------- *)

Section Drawing.
Context `{W : World}.

Lemma stored_cases graph v st :
  ids (snd (stored graph v st)) = ids st
  /\ (fst (stored graph v st) = Return v \/ fst (stored graph v st) = Return VNone)
  /\ ((forall q, exists e, fst (sparql_query q (sparql st)) = Raise e) ->
      fst (stored graph v st) = Return VNone).
Proof.
  set (q := Insert (state_graph st) graph).
  destruct (run_query_returns q None None st) as [results Hr].
  destruct (run_query_frame q None None st) as (Hi & _).
  assert ((forall q0, exists e, fst (sparql_query q0 (sparql st)) = Raise e) ->
          results = []) as Hfail.
  { intros Hall. destruct (Hall q) as [e He].
    rewrite run_query_cases in Hr.
    destruct (sparql_query q (sparql st)) as [[rows|e0] s]; cbn [fst] in He; [discriminate|].
    cbn in Hr. congruence. }
  assert (stored graph v st
          = (Return (if nonempty results then v else VNone),
             snd (run_query q None None st))) as ->.
  { unfold stored. unfold bind at 1. unfold insert_query_for_graph, gets. fold q.
    unfold bind. destruct (run_query q None None st) as [r st1]. cbn [fst snd] in *.
    subst r. destruct results; reflexivity. }
  cbn [fst snd]. split; [exact Hi|]. split.
  - destruct results; [right | left]; reflexivity.
  - intros Hall. rewrite (Hfail Hall). reflexivity.
Qed.

Lemma draws_one_stored k n (op : M value) graph st :
  dict_get k (ids st) = Some (VInt n) ->
  op st = stored graph (VInt (n + 1)) (set_ids (dict_set k (VInt (n + 1)) (ids st)) st) ->
  draws_one k n op st.
Proof.
  intros Hk Hop. unfold draws_one. rewrite Hop.
  destruct (stored_cases graph (VInt (n + 1))
              (set_ids (dict_set k (VInt (n + 1)) (ids st)) st)) as (Hi & Hr & Hf).
  split; [rewrite Hi; destruct st; reflexivity|]. split; [exact Hr|].
  intros Hall. apply Hf. intros q. destruct st; apply Hall.
Qed.

Lemma ids_next_id_drawn k n st :
  dict_get k (ids st) = Some (VInt n) ->
  ids_next_id k st = (Return (n + 1), set_ids (dict_set k (VInt (n + 1)) (ids st)) st).
Proof.
  intros Hk. unfold ids_next_id, IdGenerator.next_id. rewrite Hk. reflexivity.
Qed.

End Drawing.

(** X7.  Each of the methods that insert one record with a new identifier
    draws exactly one identifier from its counter, and draws it before the
    record is sent: the counter has moved whether the endpoint stored the
    record or not, and a call that fails returns [None] with its
    identifier lost. *)
Theorem insertion_draws_one_identifier `{W : World} (st : SparqlInterface) (n : Z) :
  (forall revision first_online publisher_publication publisher_acceptance posted
          submission,
     dict_get "timeline" (ids st) = Some (VInt n) ->
     draws_one "timeline" n
       (insert_timeline revision first_online publisher_publication publisher_acceptance
          posted submission) st)
  /\ (forall item_id category_id item_type,
        dict_get (item_type +:+ "_category") (ids st) = Some (VInt n) ->
        draws_one (item_type +:+ "_category") n
          (insert_item_category item_id category_id item_type) st)
  /\ (forall author_id item_id item_type,
        dict_get (item_type +:+ "_author") (ids st) = Some (VInt n) ->
        draws_one (item_type +:+ "_author") n
          (insert_author_link author_id item_id item_type) st)
  /\ (forall article_version_id file_id,
        dict_get "article_file" (ids st) = Some (VInt n) ->
        draws_one "article_file" n (insert_article_file article_version_id file_id) st)
  /\ (forall url item_id item_type,
        dict_get "reference" (ids st) = Some (VInt n) ->
        draws_one "reference" n (insert_reference url item_id item_type) st)
  /\ (forall name value_ default_value max_length min_length field_type is_mandatory
             placeholder is_multiple item_id item_type,
        dict_get "custom_field" (ids st) = Some (VInt n) ->
        draws_one "custom_field" n
          (insert_custom_field name value_ default_value max_length min_length field_type
             is_mandatory placeholder is_multiple item_id item_type) st).
Proof.
  split; [|split; [|split; [|split; [|split]]]]; intros;
    (eapply draws_one_stored; [eassumption|]).
  - unfold insert_timeline. unfold bind at 1.
    rewrite (ids_next_id_drawn _ _ _ H). reflexivity.
  - unfold insert_item_category. unfold bind at 1.
    rewrite (ids_next_id_drawn _ _ _ H). reflexivity.
  - unfold insert_author_link. unfold bind at 1.
    rewrite (ids_next_id_drawn _ _ _ H). reflexivity.
  - unfold insert_article_file. unfold bind at 1.
    rewrite (ids_next_id_drawn _ _ _ H). reflexivity.
  - unfold insert_reference. unfold bind at 1.
    rewrite (ids_next_id_drawn _ _ _ H). reflexivity.
  - unfold insert_custom_field. unfold bind at 1.
    rewrite (ids_next_id_drawn _ _ _ H). reflexivity.
Qed.

Lemma insertion_draws_one_identifier_witness :
  let st := init (W := Env.Scripted) [("timeline", VInt 4)] (Env.Script [] []) in
  let r := insert_timeline VNone VNone VNone VNone (VStr "2021-05-03") VNone st in
  fst r = Return VNone /\ ids (snd r) = [("timeline", VInt 5)].
Proof.
  intros st r.
  destruct (proj1 (insertion_draws_one_identifier (W := Env.Scripted) st 4)
              VNone VNone VNone VNone (VStr "2021-05-03") VNone eq_refl) as (Hi & _ & Hf).
  split; [|exact Hi].
  apply Hf. intros q. exists URLError. reflexivity.
Defined.

(* --------------------------------------------------------------------- *)
(** ** Look-ups on an endpoint without rows                               *)
(* --------------------------------------------------------------------- *)

Section Silence.
Context `{W : World}.

Lemma run_query_silent q cache_key_string prefix st :
  silent (sparql st) -> nothing_cached st ->
  fst (run_query q cache_key_string prefix st) = Return [].
Proof.
  intros Hs Hc. rewrite run_query_cases.
  assert (match cache_key_string with
          | Some s => CacheLayer.cached_value prefix (CacheLayer.make_key s) (cache st)
          | None => None
          end = None) as -> by (destruct cache_key_string; [apply Hc | reflexivity]).
  destruct (Hs q) as [[e He] | He];
    destruct (sparql_query q (sparql st)) as [[rows|e0] s]; cbn [fst] in He;
    try discriminate; [reflexivity|].
  injection He as ->. reflexivity.
Qed.

Lemma account_by_session_token_silent session_token st :
  silent (sparql st) -> nothing_cached st ->
  fst (account_by_session_token session_token st) = Return None.
Proof.
  intros Hs Hc. unfold account_by_session_token.
  unfold bind at 1. unfold query_from_template, gets.
  unfold try_except. unfold bind at 1.
  match goal with |- context [run_query ?q None None st] =>
    pose proof (run_query_silent q None None st Hs Hc) as Hr;
    destruct (run_query q None None st) as [r st1]
  end.
  cbn [fst] in Hr. subst r. reflexivity.
Qed.

End Silence.

(** X8.  On an endpoint that has no row for a query, because it fails or
    because it finds nothing, and with nothing cached, the look-ups answer
    their default and raise nothing: [dataset_storage_used] answers 0,
    [account_id_by_orcid] and [category_by_id] answer [None], and no
    session token is logged in, is a depositor, may administer or may
    impersonate. *)
Theorem lookups_default_without_rows `{W : World} (st : SparqlInterface) :
  silent (sparql st) -> nothing_cached st ->
  (forall container_uri, fst (dataset_storage_used container_uri st) = Return (VInt 0))
  /\ (forall orcid, fst (account_id_by_orcid orcid st) = Return VNone)
  /\ (forall category_id, fst (category_by_id category_id st) = Return None)
  /\ (forall session_token,
        fst (is_logged_in session_token st) = Return (VBool false)
        /\ fst (is_depositor session_token st) = Return (VBool false)
        /\ fst (may_administer session_token st) = Return (VBool false)
        /\ fst (may_impersonate session_token st) = Return (VBool false)).
Proof.
  intros Hs Hc.
  split; [|split; [|split]].
  - intros uri. unfold dataset_storage_used.
    unfold bind at 1. unfold query_from_template, gets. unfold bind at 1.
    match goal with |- context [run_query ?q ?k ?p st] =>
      pose proof (run_query_silent q k p st Hs Hc) as Hr;
      destruct (run_query q k p st) as [r st1]
    end.
    cbn [fst] in Hr. subst r. reflexivity.
  - intros orcid. unfold account_id_by_orcid.
    unfold bind at 1. unfold query_from_template, gets.
    unfold try_except. unfold bind at 1.
    match goal with |- context [run_query ?q ?k ?p st] =>
      pose proof (run_query_silent q k p st Hs Hc) as Hr;
      destruct (run_query q k p st) as [r st1]
    end.
    cbn [fst] in Hr. subst r. reflexivity.
  - intros category_id. unfold category_by_id.
    unfold bind at 1. unfold query_from_template, gets.
    unfold try_except. unfold bind at 1.
    match goal with |- context [run_query ?q ?k ?p st] =>
      pose proof (run_query_silent q k p st Hs Hc) as Hr;
      destruct (run_query q k p st) as [r st1]
    end.
    cbn [fst] in Hr. subst r. reflexivity.
  - intros token.
    pose proof (account_by_session_token_silent token st Hs Hc) as Ha.
    unfold is_logged_in, is_depositor, may_administer, may_impersonate, may_execute_role.
    unfold bind.
    destruct (account_by_session_token token st) as [a st1]. cbn [fst] in Ha. subst a.
    repeat split; reflexivity.
Qed.

Lemma lookups_default_without_rows_witness :
  let st := init (W := Env.Scripted) [] (Env.Script [] []) in
  fst (dataset_storage_used (VStr "container:1") st) = Return (VInt 0)
  /\ fst (is_logged_in (VStr "token") st) = Return (VBool false).
Proof.
  intros st.
  assert (silent (W := Env.Scripted) (sparql st)) as Hs
    by (intros q; left; exists URLError; reflexivity).
  assert (nothing_cached st) as Hc by (intros prefix key; reflexivity).
  destruct (lookups_default_without_rows (W := Env.Scripted) st Hs Hc)
    as (Hd & _ & _ & Hl).
  split; [apply Hd | apply (Hl (VStr "token"))].
Defined.

(** X9.  [collections_article_count] answers 0 for the version [None]
    without asking the endpoint.  For another version, on an endpoint that
    has no row for the query, it raises [IndexError]: only [KeyError] is
    caught, so a failure of the connection, which the other look-ups
    answer with their default, comes out of this one as an exception. *)
Theorem article_count_raises_without_rows `{W : World} (st : SparqlInterface) :
  silent (sparql st) -> nothing_cached st ->
  collections_article_count VNone st = (Return (VInt 0), st)
  /\ forall collection_version_id,
       collection_version_id <> VNone ->
       fst (collections_article_count collection_version_id st) = Raise IndexError.
Proof.
  intros Hs Hc. split; [reflexivity|].
  intros v Hv. unfold collections_article_count.
  assert (is_none v = false) as -> by (destruct v; [contradiction|..]; reflexivity).
  unfold bind at 1. unfold query_from_template, gets. unfold bind at 1.
  match goal with |- context [run_query ?q ?k ?p st] =>
    pose proof (run_query_silent q k p st Hs Hc) as Hr;
    destruct (run_query q k p st) as [r st1]
  end.
  cbn [fst] in Hr. subst r. reflexivity.
Qed.

Lemma article_count_raises_without_rows_witness :
  let st := init (W := Env.Scripted) [] (Env.Script [] []) in
  fst (collections_article_count (VInt 9) st) = Raise IndexError.
Proof.
  intros st.
  assert (silent (W := Env.Scripted) (sparql st)) as Hs
    by (intros q; left; exists URLError; reflexivity).
  assert (nothing_cached st) as Hc by (intros prefix key; reflexivity).
  apply (proj2 (article_count_raises_without_rows (W := Env.Scripted) st Hs Hc)).
  discriminate.
Defined.

(* --------------------------------------------------------------------- *)
(** ** The storage that an account uses                                   *)
(* --------------------------------------------------------------------- *)

Section Storage.
Context `{W : World}.

Lemma sum_bytes_all files sizes : forall acc st,
  Forall2 holds_bytes files sizes ->
  sum_bytes files acc st = (Return (acc + fold_right Z.add 0 sizes), st).
Proof.
  intros acc st H. revert acc.
  induction H as [|row n files sizes (r & -> & Hb & Hn) _ IH]; intros acc.
  - cbn. rewrite Z.add_0_r. reflexivity.
  - cbn [sum_bytes fold_right]. unfold bind at 1. unfold subscript. rewrite Hb.
    unfold ret at 1. unfold bind at 1. unfold lift. cbn [py_int_float]. rewrite Hn.
    rewrite IH. f_equal. f_equal. lia.
Qed.

Lemma sum_bytes_missing good sizes r rest : forall acc st,
  Forall2 holds_bytes good sizes ->
  dict_get "bytes" r = None ->
  sum_bytes (good ++ Row r :: rest)%list acc st = (Raise KeyError, st).
Proof.
  intros acc st H Hr. revert acc.
  induction H as [|row n files sizes0 (r0 & -> & Hb & Hn) _ IH]; intros acc.
  - cbn [app sum_bytes]. unfold bind at 1. unfold subscript. rewrite Hr. reflexivity.
  - cbn [app sum_bytes]. unfold bind at 1. unfold subscript. rewrite Hb.
    unfold ret at 1. unfold bind at 1. unfold lift. cbn [py_int_float]. rewrite Hn.
    apply IH.
Qed.

Lemma sum_bytes_unset good sizes r rest : forall acc st,
  Forall2 holds_bytes good sizes ->
  dict_get "bytes" r = Some VNone ->
  sum_bytes (good ++ Row r :: rest)%list acc st = (Raise TypeError, st).
Proof.
  intros acc st H Hr. revert acc.
  induction H as [|row n files sizes0 (r0 & -> & Hb & Hn) _ IH]; intros acc.
  - cbn [app sum_bytes]. unfold bind at 1. unfold subscript. rewrite Hr. reflexivity.
  - cbn [app sum_bytes]. unfold bind at 1. unfold subscript. rewrite Hb.
    unfold ret at 1. unfold bind at 1. unfold lift. cbn [py_int_float]. rewrite Hn.
    apply IH.
Qed.

Lemma account_storage_used_cases account_id st :
  account_storage_used account_id st =
  let q := Template "account_storage_used"
             [("account_id", account_id); ("state_graph", VStr (state_graph st))] in
  let r := run_query q (Some q) (Some "storage") st in
  match fst r with
  | Return files =>
      match sum_bytes files 0 (snd r) with
      | (Return n, st2) => (Return (VInt n), st2)
      | (Raise IndexError, st2) => (Return (VInt 0), st2)
      | (Raise KeyError, st2) => (Return (VInt 0), st2)
      | (Raise e, st2) => (Raise e, st2)
      end
  | Raise e => (Raise e, snd r)
  end.
Proof.
  cbv zeta. unfold account_storage_used.
  unfold bind at 1. unfold query_from_template, gets.
  change (dict_merge [("account_id", account_id)] [("state_graph", VStr (state_graph st))])
    with [("account_id", account_id); ("state_graph", VStr (state_graph st))].
  unfold bind at 1.
  destruct (run_query _ _ _ st) as [[files|e] st1]; cbn [fst snd]; [|reflexivity].
  unfold try_except. unfold bind at 1.
  destruct (sum_bytes files 0 st1) as [[n|e] st2]; [reflexivity|].
  destruct e; reflexivity.
Qed.

End Storage.

(** X10.  [account_storage_used] answers the sum of the bytes of the rows
    when every row holds an integer.  After rows that hold an integer, a
    row that lacks the field makes the answer 0: the bytes counted so far
    are dropped with the [KeyError].  After such rows a row whose bytes
    are [None] makes the call raise [TypeError], which no handler
    catches. *)
Theorem storage_used_all_or_nothing `{W : World} (account_id : value)
    (st : SparqlInterface) (files : list result_row) :
  let q := Template "account_storage_used"
             [("account_id", account_id); ("state_graph", VStr (state_graph st))] in
  fst (run_query q (Some q) (Some "storage") st) = Return files ->
  (forall sizes,
     Forall2 holds_bytes files sizes ->
     fst (account_storage_used account_id st) = Return (VInt (fold_right Z.add 0 sizes)))
  /\ (forall good sizes r rest,
        files = (good ++ Row r :: rest)%list ->
        Forall2 holds_bytes good sizes ->
        dict_get "bytes" r = None ->
        fst (account_storage_used account_id st) = Return (VInt 0))
  /\ (forall good sizes r rest,
        files = (good ++ Row r :: rest)%list ->
        Forall2 holds_bytes good sizes ->
        dict_get "bytes" r = Some VNone ->
        fst (account_storage_used account_id st) = Raise TypeError).
Proof.
  cbv zeta. intros Hr. rewrite account_storage_used_cases. cbv zeta. rewrite Hr.
  split; [|split].
  - intros sizes Hall. rewrite (sum_bytes_all files sizes 0 _ Hall). reflexivity.
  - intros good sizes r rest -> Hall Hmiss.
    rewrite (sum_bytes_missing good sizes r rest 0 _ Hall Hmiss). reflexivity.
  - intros good sizes r rest -> Hall Hnone.
    rewrite (sum_bytes_unset good sizes r rest 0 _ Hall Hnone). reflexivity.
Qed.

Lemma storage_used_all_or_nothing_witness :
  let cell n := Binding "typed-literal" (Some xsd_integer) n in
  let st rows := init (W := Env.Scripted) [] (Env.Script [Return rows] []) in
  fst (account_storage_used (VInt 2)
         (st [[("bytes", cell "10")]; [("bytes", cell "32")]])) = Return (VInt 42)
  /\ fst (account_storage_used (VInt 2)
            (st [[("bytes", cell "10")]; [("name", cell "32")]])) = Return (VInt 0)
  /\ fst (account_storage_used (VInt 2)
            (st [[("bytes", cell "10")];
                 [("bytes", Binding "typed-literal" (Some xsd_string) "NULL")];
                 [("name", cell "32")]])) = Raise TypeError.
Proof.
  intros cell st. split; [|split].
  - refine (proj1 (storage_used_all_or_nothing (W := Env.Scripted) (VInt 2)
                     (st [[("bytes", cell "10")]; [("bytes", cell "32")]])
                     [Row [("bytes", VInt 10)]; Row [("bytes", VInt 32)]] eq_refl)
              [10; 32] _).
    repeat constructor; eexists; repeat split; reflexivity.
  - refine (proj1 (proj2 (storage_used_all_or_nothing (W := Env.Scripted) (VInt 2)
                            (st [[("bytes", cell "10")]; [("name", cell "32")]])
                            [Row [("bytes", VInt 10)]; Row [("name", VInt 32)]] eq_refl))
              [Row [("bytes", VInt 10)]] [10] [("name", VInt 32)] [] eq_refl _ eq_refl).
    repeat constructor; eexists; repeat split; reflexivity.
  - refine (proj2 (proj2 (storage_used_all_or_nothing (W := Env.Scripted) (VInt 2)
                            (st [[("bytes", cell "10")];
                                 [("bytes", Binding "typed-literal" (Some xsd_string) "NULL")];
                                 [("name", cell "32")]])
                            [Row [("bytes", VInt 10)]; Row [("bytes", VNone)];
                             Row [("name", VInt 32)]] eq_refl))
              [Row [("bytes", VInt 10)]] [10] [("bytes", VNone)] [Row [("name", VInt 32)]]
              eq_refl _ eq_refl).
    repeat constructor; eexists; repeat split; reflexivity.
Defined.

(* --------------------------------------------------------------------- *)
(** ** The escaping of the reference to delete                            *)
(* --------------------------------------------------------------------- *)

Lemma escape_quotes_closed url :
  backslash_free url = true -> unescaped_quotes (escape_quotes url) = O.
Proof.
  unfold escape_quotes, backslash_free.
  induction url as [|c url IH]; [reflexivity|].
  cbn [list_ascii_of_string forallb replace_char]. intros H.
  apply andb_prop in H as [Hc Hrest]. apply negb_true_iff in Hc.
  destruct (Ascii.eqb c (ascii_of_nat 34)) eqn:Eq.
  - change (backslash +:+ dq +:+ replace_char (ascii_of_nat 34) (backslash +:+ dq) url)
      with (String (ascii_of_nat 92)
              (String (ascii_of_nat 34)
                 (replace_char (ascii_of_nat 34) (backslash +:+ dq) url))).
    cbn [unescaped_quotes].
    change (Ascii.eqb (ascii_of_nat 92) (ascii_of_nat 92)) with true. cbv iota.
    apply IH. exact Hrest.
  - cbn [unescaped_quotes]. rewrite Hc, Eq. apply IH. exact Hrest.
Qed.

(** X11.  The escaping that [delete_article_reference] applies to its
    [url] leaves no double quote of the url able to end a string literal,
    as long as the url holds no backslash.  A backslash before a quote
    undoes it: the quote of the url backslash-quote still ends the
    literal. *)
Theorem escaped_url_and_backslash :
  (forall url, backslash_free url = true -> unescaped_quotes (escape_quotes url) = O)
  /\ unescaped_quotes (escape_quotes (backslash +:+ dq)) = 1%nat.
Proof.
  split; [exact escape_quotes_closed | reflexivity].
Qed.

Lemma escaped_url_and_backslash_witness :
  unescaped_quotes (escape_quotes ("https://example.org/a" +:+ dq +:+ "b")) = O.
Proof.
  apply (proj1 escaped_url_and_backslash). reflexivity.
Defined.

(* --------------------------------------------------------------------- *)
(** ** Accounts and their privileges                                      *)
(* --------------------------------------------------------------------- *)

Section Accounts.
Context `{W : World}.

Lemma dict_get_fold_set {V} (k : string) (b : dict string V) : forall a,
  NoDup (map fst b) ->
  dict_get k (dict_merge a b)
  = match dict_get k b with Some v => Some v | None => dict_get k a end.
Proof.
  unfold dict_merge.
  induction b as [|[k' v'] b IH]; intros a Hnd; [reflexivity|].
  cbn [fold_left fst snd map] in *. apply NoDup_cons in Hnd as [Hnotin Hnd].
  rewrite IH by exact Hnd. cbn [dict_get].
  destruct (decide (k = k')) as [->|Hne].
  - assert (dict_get k' b = None) as ->.
    { clear -Hnotin. induction b as [|[k0 v0] b IH]; [reflexivity|].
      cbn in *. destruct (decide (k' = k0)) as [->|Hne].
      - exfalso. apply Hnotin. left.
      - apply IH. intros H. apply Hnotin. right. exact H. }
    apply dict_get_set_eq.
  - rewrite dict_get_set_ne by exact Hne. reflexivity.
Qed.

(** [account_by_session_token], case by case on the answer of its query. *)
Lemma account_by_session_token_cases session_token st :
  let q := Template "account_by_session_token"
             [("token", session_token); ("state_graph", VStr (state_graph st))] in
  let r := run_query q None None st in
  account_by_session_token session_token st
  = (match fst r with
     | Return [] => Return None
     | Return (Scalar _ :: _) => Raise TypeError
     | Return (Row account :: _) =>
         match dict_get "account_id" account with
         | None => Return (Some (Row account))
         | Some v =>
             match py_int v with
             | Raise KeyError => Return (Some (Row account))
             | Raise IndexError => Return None
             | Raise e => Raise e
             | Return n =>
                 match dict_get (VInt n) (privileges st) with
                 | Some p => Return (Some (Row (dict_merge account p)))
                 | None => Return (Some (Row account))
                 end
             end
         end
     | Raise e => Raise e
     end, snd r).
Proof.
  intros q r. unfold account_by_session_token.
  unfold bind at 1. unfold query_from_template, gets.
  change (Template "account_by_session_token"
            (dict_merge [("token", session_token)]
                        [("state_graph", VStr (state_graph st))])) with q.
  destruct (run_query_returns q None None st) as [o Ho].
  destruct (run_query_frame q None None st) as (_ & _ & Hp & _).
  fold r in Hp, Ho. unfold try_except at 1. unfold bind at 1. fold r.
  destruct r as [o' st1]. cbn [fst snd] in *. subst o'.
  destruct o as [|[account|s] rest]; [reflexivity| |reflexivity].
  cbn [first]. unfold bind at 1. unfold ret at 1.
  unfold try_except. unfold bind at 1. cbn [subscript].
  destruct (dict_get "account_id" account) as [v|]; [|reflexivity].
  unfold ret at 1. unfold bind at 1. unfold lift.
  destruct (py_int v) as [n|e]; [|destruct e; reflexivity].
  unfold bind at 1. rewrite Hp.
  destruct (dict_get (VInt n) (privileges st)); reflexivity.
Qed.

(** [__may_execute_role] after [account_by_session_token]. *)
Lemma may_execute_role_cases session_token task st :
  may_execute_role session_token task st
  = (match fst (account_by_session_token session_token st) with
     | Return None => Return (VBool false)
     | Return (Some (Scalar _)) => Return (VBool false)
     | Return (Some (Row account)) =>
         match dict_get ("may_" +:+ task) account with
         | Some v => Return v
         | None => Return (VBool false)
         end
     | Raise e => Raise e
     end, snd (account_by_session_token session_token st)).
Proof.
  unfold may_execute_role. unfold bind at 1.
  destruct (account_by_session_token session_token st) as [[[[account|s]|]|e] st1];
    cbn [fst snd]; try reflexivity.
  unfold try_except. cbn [subscript].
  destruct (dict_get ("may_" +:+ task) account); reflexivity.
Qed.

End Accounts.

(** X12.  When the privileges hold an entry for the identifier of the
    account, [account_by_session_token] returns the row of the store with
    the entry laid over it: a key of the entry hides the field of the row
    of the same name, the other fields of the row are kept.  So
    [may_administer] and [may_impersonate] answer what the entry says,
    whatever the store holds under these names. *)
Theorem privileges_override_row `{W : World} (session_token : value)
    (st : SparqlInterface) (account : record) (rest : list result_row) (n : Z)
    (entry : record) :
  let q := Template "account_by_session_token"
             [("token", session_token); ("state_graph", VStr (state_graph st))] in
  let r := run_query q None None st in
  fst r = Return (Row account :: rest) ->
  dict_get "account_id" account = Some (VInt n) ->
  dict_get (VInt n) (privileges st) = Some entry ->
  NoDup (map fst entry) ->
  exists merged,
    account_by_session_token session_token st = (Return (Some (Row merged)), snd r)
    /\ (forall k, dict_get k merged
                  = match dict_get k entry with
                    | Some v => Some v
                    | None => dict_get k account
                    end)
    /\ (forall v, dict_get "may_administer" entry = Some v ->
                  may_administer session_token st = (Return v, snd r))
    /\ (forall v, dict_get "may_impersonate" entry = Some v ->
                  may_impersonate session_token st = (Return v, snd r)).
Proof.
  intros q r Ho Hid Hentry Hnd.
  assert (account_by_session_token session_token st
          = (Return (Some (Row (dict_merge account entry))), snd r)) as Ha.
  { rewrite account_by_session_token_cases. cbv zeta. fold q. fold r.
    rewrite Ho, Hid. cbn [py_int]. rewrite Hentry. reflexivity. }
  exists (dict_merge account entry).
  split; [exact Ha|]. split; [intros k; apply dict_get_fold_set; exact Hnd|].
  unfold may_administer, may_impersonate.
  rewrite !may_execute_role_cases, Ha. cbn [fst snd].
  change ("may_" +:+ "administer") with "may_administer".
  change ("may_" +:+ "impersonate") with "may_impersonate".
  rewrite !dict_get_fold_set by exact Hnd.
  split; intros v ->; reflexivity.
Qed.

Lemma privileges_override_row_witness :
  let account := [("account_id", Binding "typed-literal" (Some xsd_integer) "7");
                  ("may_administer", Binding "typed-literal" (Some xsd_boolean) "0")] in
  let st := Interface (W := Env.Scripted) []
              "https://data.4tu.nl/portal/self-test"
              [(VInt 7, [("may_administer", VBool true); ("orcid", VNone)])]
              (CacheLayer.Cache None []) (Env.Script [Return [account]] []) true [] O in
  fst (may_administer (VStr "token") st) = Return (VBool true).
Proof.
  intros account st.
  destruct (privileges_override_row (W := Env.Scripted) (VStr "token") st
              [("account_id", VInt 7); ("may_administer", VBool false)] [] 7
              [("may_administer", VBool true); ("orcid", VNone)]
              eq_refl eq_refl eq_refl) as (merged & _ & _ & Hm & _).
  - repeat constructor; rewrite ?elem_of_cons, ?elem_of_nil; intros H;
      repeat (destruct H as [H | H]; [discriminate H|]); exact H.
  - rewrite (Hm (VBool true) eq_refl). reflexivity.
Defined.

(* --------------------------------------------------------------------- *)
(** ** An account read after it was updated                               *)
(* --------------------------------------------------------------------- *)

Section StaleAccounts.
Context `{W : World}.

Lemma update_account_frame account_id u categories now st :
  given categories = false ->
  cache (snd (update_account account_id u categories now st)) = cache st
  /\ state_graph (snd (update_account account_id u categories now st)) = state_graph st.
Proof.
  intros Hg. unfold update_account.
  rewrite bind_state. unfold query_from_template, gets. cbn [fst snd].
  rewrite bind_state.
  match goal with |- context [run_query ?q None None st] =>
    destruct (run_query_returns q None None st) as [results Hr];
    destruct (run_query_frame q None None st) as (_ & Hs & _ & _ & Hc);
    rewrite Hr
  end.
  rewrite Hg, andb_false_r. cbn. split; [apply Hc; reflexivity | exact Hs].
Qed.

End StaleAccounts.

(** X13.  [update_account] called without categories invalidates no
    prefix of the cache, and [accounts] reads through the prefix
    "accounts".  So, with a cache that is ready, the rows that [accounts]
    returned before the update are returned again after it, and the
    endpoint is not asked: the update is not seen. *)
Theorem accounts_are_stale_after_update `{W : World} (account_id updated : value)
    (u : account_update) (categories : option (list value)) (now : string)
    (st : SparqlInterface) (rows : list raw_row) (s' : store)
    (results : list result_row) :
  let q := Template "accounts"
             [("account_id", account_id); ("state_graph", VStr (state_graph st))] in
  CacheLayer.cache_is_ready (cache st) = true ->
  cache_miss (Some q) (Some "accounts") st ->
  sparql_query q (sparql st) = (Return rows, s') ->
  fst (map_list normalize_binding rows (set_sparql s' st)) = Return results ->
  categories = None \/ categories = Some [] ->
  let st1 := snd (accounts account_id st) in
  let st2 := snd (update_account updated u categories now st1) in
  fst (accounts account_id st) = Return results
  /\ accounts account_id st2 = (Return results, st2).
Proof.
  intros q Hready Hmiss Hq Hn Hcat. cbv zeta.
  assert (given categories = false) as Hg by (destruct Hcat as [-> | ->]; reflexivity).
  assert (forall st0, state_graph st0 = state_graph st ->
            accounts account_id st0 = run_query q (Some q) (Some "accounts") st0) as Hacc.
  { intros st0 Hsg. unfold accounts. unfold bind. unfold query_from_template, gets.
    rewrite Hsg. reflexivity. }
  rewrite (Hacc st eq_refl).
  destruct (run_query_stores q q (Some "accounts") st rows s' results Hready Hmiss Hq Hn)
    as (H1 & H2 & H3).
  split; [exact H1|].
  set (st1 := snd (run_query q (Some q) (Some "accounts") st)) in *.
  destruct (update_account_frame updated u categories now st1 Hg) as (Hc & Hs).
  rewrite Hacc by (rewrite Hs; exact H3).
  rewrite run_query_cases, Hc, H2. reflexivity.
Qed.

Lemma accounts_are_stale_after_update_witness :
  let row v := [("email", Binding "typed-literal" (Some xsd_string) v)] in
  let st := Interface (W := Env.Scripted) [] "https://data.4tu.nl/portal/self-test" []
              (CacheLayer.Cache (Some "/cache") [])
              (Env.Script [Return [row "old@example.org"];
                           Return (TripleStore.status "Modify <g> -- done");
                           Return [row "new@example.org"]] []) true [] O in
  let st1 := snd (accounts (VInt 7) st) in
  let st2 := snd (update_account (VInt 7) no_account_update None "2023-01-02 03:04:05" st1) in
  fst (accounts (VInt 7) st2) = Return [Row [("email", VStr "old@example.org")]].
Proof.
  intros row st st1 st2.
  destruct (accounts_are_stale_after_update (W := Env.Scripted) (VInt 7) (VInt 7)
              no_account_update None "2023-01-02 03:04:05" st
              [row "old@example.org"]
              (Env.Script [Return (TripleStore.status "Modify <g> -- done");
                           Return [row "new@example.org"]]
                 [Template "accounts"
                    [("account_id", VInt 7);
                     ("state_graph", VStr "https://data.4tu.nl/portal/self-test")]])
              [Row [("email", VStr "old@example.org")]]
              eq_refl eq_refl eq_refl eq_refl (or_introl eq_refl)) as (_ & H).
  fold st1 st2 in H. rewrite H. reflexivity.
Defined.

(* --------------------------------------------------------------------- *)
(** ** The privileges of the configuration file                           *)
(* --------------------------------------------------------------------- *)

Section Privileges.
Context `{W : World}.

Lemma read_privileges_of_root accounts st :
  read_privilege_configuration (privileges_root accounts) st
  = for_each accounts read_account_privileges st.
Proof.
  unfold read_privilege_configuration, privileges_root, e_find. cbn.
  destruct accounts; reflexivity.
Qed.

(** What reading one account does to the privileges. *)
Lemma read_account_effect account st :
  let st' := snd (read_account_privileges account st) in
  ids st' = ids st /\ state_graph st' = state_graph st /\ sparql st' = sparql st
  /\ (privileges st' = privileges st
      \/ exists email entry,
           privileges st' = dict_set (VStr email) entry (privileges st)).
Proof.
  cbv zeta. unfold read_account_privileges, try_except.
  unfold bind at 1.
  destruct (dict_get "email" (e_attrib account)) as [email|].
  2:{ cbn. destruct st; cbn. auto. }
  unfold ret at 1.
  assert (forall (e : exn) (st0 : SparqlInterface),
            ids st0 = ids st -> state_graph st0 = state_graph st ->
            sparql st0 = sparql st -> privileges st0 = privileges st ->
            let st' := snd (match match e with
                                  | KeyError =>
                                      Some (logging_call ERROR
                                              "Missing %s attribute for a privilege configuration."
                                              [ArgExn KeyError])
                                  | ValueError =>
                                      Some (logging_call ERROR
                                              "Privilege configuration error: %s"
                                              [ArgExn ValueError])
                                  | _ => None
                                  end with
                            | Some arm => arm st0
                            | None => (Raise e, st0)
                            end) in
            ids st' = ids st /\ state_graph st' = state_graph st
            /\ sparql st' = sparql st
            /\ (privileges st' = privileges st
                \/ exists email entry,
                     privileges st' = dict_set (VStr email) entry (privileges st)))
    as Hfail.
  { intros e st0 H1 H2 H3 H4.
    destruct e; cbn [snd]; rewrite ?logging_call_more; cbn [snd];
      destruct st0; cbn in *; auto. }
  unfold privilege_flag.
  repeat (unfold bind at 1; unfold lift at 1;
          match goal with
          | |- context [py_int ?v] => destruct (py_int v) as [?n|?e]
          end;
          [unfold ret at 1 | apply Hfail; reflexivity]).
  unfold bind, modify. cbn [snd].
  destruct st; cbn. eauto 8.
Qed.

Lemma keyed_by_text_set email entry p :
  keyed_by_text p -> keyed_by_text (dict_set (VStr email) entry p).
Proof.
  unfold keyed_by_text. induction p as [|[k v] p IH]; cbn; intros H.
  - constructor; [cbn; eauto | constructor].
  - apply Forall_cons in H as [Hk Hp].
    destruct (decide (VStr email = k)).
    + apply Forall_cons. split; [cbn; eauto | exact Hp].
    + apply Forall_cons. split; [exact Hk | apply IH; exact Hp].
Qed.

Lemma keyed_by_text_no_number p n :
  keyed_by_text p -> dict_get (VInt n) p = None.
Proof.
  unfold keyed_by_text. induction p as [|[k v] p IH]; cbn; intros H; [reflexivity|].
  apply Forall_cons in H as [[s Hk] Hp]. cbn in Hk. subst k.
  destruct (decide (VInt n = VStr s)); [discriminate | apply IH; exact Hp].
Qed.

Lemma read_accounts_keyed accounts : forall st,
  keyed_by_text (privileges st) ->
  keyed_by_text (privileges (snd (for_each accounts read_account_privileges st))).
Proof.
  induction accounts as [|account accounts IH]; intros st Hk; [exact Hk|].
  cbn [for_each]. rewrite bind_state.
  destruct (read_account_effect account st) as (_ & _ & _ & Hp).
  assert (keyed_by_text (privileges (snd (read_account_privileges account st)))) as Hk'.
  { destruct Hp as [-> | (email & entry & ->)];
      [exact Hk | apply keyed_by_text_set; exact Hk]. }
  destruct (fst (read_account_privileges account st)); [apply IH|]; exact Hk'.
Qed.

End Privileges.

(** X14.  [read_privilege_configuration] reads the accounts one by one.
    An account without the attribute "email" is reported and skipped, and
    so is an account whose flag "may-administer" does not read as a
    number: the accounts after it are read as if it were not there.  An
    account whose flag "may-administer" has no text is not skipped: the
    [TypeError] comes out, nothing is stored for it and the accounts after
    it are not read. *)
Theorem broken_account_in_the_file `{W : World} (account : element)
    (rest : list element) (st : SparqlInterface) :
  (dict_get "email" (e_attrib account) = None ->
   read_privilege_configuration (privileges_root (account :: rest)) st
   = read_privilege_configuration (privileges_root rest)
       (set_logging
          (logging st ++ [Log ERROR "Missing %s attribute for a privilege configuration."
                            [ArgExn KeyError]])%list st))
  /\ (forall email item text,
        dict_get "email" (e_attrib account) = Some email ->
        e_find account "may-administer" = Some item ->
        e_text item = Some text ->
        int_of_text text = Raise ValueError ->
        read_privilege_configuration (privileges_root (account :: rest)) st
        = read_privilege_configuration (privileges_root rest)
            (set_logging
               (logging st ++ [Log ERROR "Privilege configuration error: %s"
                                 [ArgExn ValueError]])%list st))
  /\ (forall email item,
        dict_get "email" (e_attrib account) = Some email ->
        e_find account "may-administer" = Some item ->
        e_text item = None ->
        read_privilege_configuration (privileges_root (account :: rest)) st
        = (Raise TypeError, st)).
Proof.
  assert (forall item, e_find account "may-administer" = Some item ->
            e_truth (Some account) = true) as Htruth.
  { intros item H. unfold e_find in H. cbn. destruct (e_children account); [discriminate H|].
    reflexivity. }
  rewrite !read_privileges_of_root. cbn [for_each].
  split; [|split].
  - intros Hemail. unfold bind at 1. unfold read_account_privileges at 1.
    unfold try_except. unfold bind at 1. rewrite Hemail. reflexivity.
  - intros email item text Hemail Hfind Htext Hint.
    unfold bind at 1. unfold read_account_privileges at 1.
    unfold try_except. unfold bind at 1. rewrite Hemail. unfold ret at 1.
    unfold privilege_flag at 1. unfold bind at 1. unfold bind at 1. unfold lift at 1.
    unfold config_value at 1. cbn [truthy]. rewrite (Htruth item Hfind), Hfind, Htext.
    cbn [py_int]. rewrite Hint. reflexivity.
  - intros email item Hemail Hfind Htext.
    unfold bind at 1. unfold read_account_privileges at 1.
    unfold try_except. unfold bind at 1. rewrite Hemail. unfold ret at 1.
    unfold privilege_flag at 1. unfold bind at 1. unfold bind at 1. unfold lift at 1.
    unfold config_value at 1. cbn [truthy]. rewrite (Htruth item Hfind), Hfind, Htext.
    reflexivity.
Qed.

Lemma broken_account_in_the_file_witness :
  let flag text := Element "may-administer" [] (Some text) [] in
  let nameless := Element "account" [("orcid", "0000-0001")] None [flag "1"] in
  let admin := Element "account" [("email", "a@example.org")] None [flag "1"] in
  let st := init (W := Env.Scripted) [] (Env.Script [] []) in
  privileges (snd (read_privilege_configuration (privileges_root [nameless; admin]) st))
  = [(VStr "a@example.org",
      [("may_administer", VBool true); ("may_impersonate", VBool false);
       ("may_review", VBool false); ("may_review_quotas", VBool false);
       ("orcid", VNone)])].
Proof.
  intros flag nameless admin st.
  rewrite (proj1 (broken_account_in_the_file (W := Env.Scripted) nameless [admin] st)
             eq_refl).
  reflexivity.
Defined.

(** X15.  [read_privilege_configuration] stores the privileges of an
    account under its e-mail address, a text, and
    [account_by_session_token] looks the privileges up under the
    identifier of the account, a number.  So, on an object whose
    privileges come from the configuration file, the row of the session
    is returned without any privilege laid over it. *)
Theorem privileges_of_the_file_are_not_found `{W : World} (xml_root : element)
    (st : SparqlInterface) :
  keyed_by_text (privileges st) ->
  let st1 := snd (read_privilege_configuration xml_root st) in
  keyed_by_text (privileges st1)
  /\ forall session_token st2 account rest n,
       privileges st2 = privileges st1 ->
       fst (run_query (Template "account_by_session_token"
                         [("token", session_token);
                          ("state_graph", VStr (state_graph st2))]) None None st2)
       = Return (Row account :: rest) ->
       dict_get "account_id" account = Some (VInt n) ->
       fst (account_by_session_token session_token st2) = Return (Some (Row account)).
Proof.
  intros Hk. cbv zeta.
  assert (keyed_by_text (privileges (snd (read_privilege_configuration xml_root st))))
    as Hk1.
  { unfold read_privilege_configuration.
    destruct (negb (e_truth (e_find xml_root "privileges"))); [exact Hk|].
    apply read_accounts_keyed. exact Hk. }
  split; [exact Hk1|].
  intros token st2 account rest n Hp Hr Hid.
  rewrite account_by_session_token_cases. cbv zeta. cbn [fst].
  rewrite Hr, Hid. cbn [py_int].
  rewrite Hp, (keyed_by_text_no_number _ n Hk1). reflexivity.
Qed.

Lemma privileges_of_the_file_are_not_found_witness :
  let flag text := Element "may-administer" [] (Some text) [] in
  let admin := Element "account" [("email", "a@example.org")] None [flag "1"] in
  let row := [("account_id", Binding "typed-literal" (Some xsd_integer) "7");
              ("email", Binding "typed-literal" (Some xsd_string) "a@example.org")] in
  let st := init (W := Env.Scripted) [] (Env.Script [Return [row]] []) in
  let st1 := snd (read_privilege_configuration (privileges_root [admin]) st) in
  dict_get (VStr "a@example.org") (privileges st1)
  = Some [("may_administer", VBool true); ("may_impersonate", VBool false);
          ("may_review", VBool false); ("may_review_quotas", VBool false);
          ("orcid", VNone)]
  /\ fst (account_by_session_token (VStr "token") st1)
     = Return (Some (Row [("account_id", VInt 7); ("email", VStr "a@example.org")]))
  /\ fst (may_administer (VStr "token") st1) = Return (VBool false).
Proof.
  intros flag admin row st st1.
  split; [reflexivity|].
  assert (keyed_by_text (privileges st)) as Hk by constructor.
  destruct (privileges_of_the_file_are_not_found (W := Env.Scripted)
              (privileges_root [admin]) st Hk) as (_ & H).
  assert (fst (account_by_session_token (VStr "token") st1)
          = Return (Some (Row [("account_id", VInt 7); ("email", VStr "a@example.org")])))
    as Ha by (apply (H (VStr "token") st1 _ [] 7); reflexivity).
  split; [exact Ha|].
  unfold may_administer. rewrite may_execute_role_cases, Ha. reflexivity.
Defined.

(* --------------------------------------------------------------------- *)
(** ** What start-up writes during an outage                              *)
(* --------------------------------------------------------------------- *)

Section OutageLog.
Context `{W : World}.

Lemma load_loop_unreachable_log (P : store -> Prop) items :
  (forall q s0, P s0 ->
     fst (sparql_query q s0) = Raise URLError /\ P (snd (sparql_query q s0))) ->
  forall st,
  P (sparql st) ->
  logging (snd (for_each items load_counter st))
  = (logging st ++ if sparql_is_up st && nonempty items
                   then [Log ERROR msg_down []] else [])%list.
Proof.
  intros HP. induction items as [|item items IH]; intros st Hst.
  - cbn. rewrite andb_false_r, app_nil_r. reflexivity.
  - set (q := highest_id_query item st).
    destruct (HP q (sparql st) Hst) as [Hfail HP'].
    set (s' := snd (sparql_query q (sparql st))) in *.
    set (st2 := set_ids (dict_set item (VInt 0) (ids (handled q URLError (set_sparql s' st))))
                  (handled q URLError (set_sparql s' st))).
    assert (for_each (item :: items) load_counter st = for_each items load_counter st2) as ->.
    { cbn [for_each]. unfold bind.
      rewrite load_counter_cases, highest_id_cases. cbv zeta. fold q.
      pose proof (run_query_cases q None None st) as Hc. cbn beta iota in Hc.
      destruct (sparql_query q (sparql st)) as [answer s0] eqn:Eq. cbn [fst snd] in *.
      subst answer. rewrite Hc. reflexivity. }
    assert (sparql st2 = s' /\ sparql_is_up st2 = false
            /\ logging st2 = (logging st ++ if sparql_is_up st
                                            then [Log ERROR msg_down []] else [])%list)
      as (Hs2 & Hu2 & Hl2).
    { unfold st2. destruct st as [i g p c s u l d]. cbn. destruct u; cbn; auto.
      rewrite app_nil_r. auto. }
    rewrite IH by (rewrite Hs2; exact HP').
    rewrite Hu2, Hl2. cbn [andb nonempty]. rewrite app_nil_r, andb_true_r. reflexivity.
Qed.

End OutageLog.

(** X16.  When the endpoint cannot be reached, [load_state] writes one
    record at most: the error that the connection seems down, once,
    however many kinds there are, and only when the flag of the
    connection was up and there is a kind to ask for.  No counter is
    reported in the log. *)
Theorem load_state_outage_log `{W : World} (werkzeug_run_main : bool)
    (st : SparqlInterface) :
  unreachable (sparql st) ->
  logging (snd (load_state werkzeug_run_main st))
  = (logging st ++ if sparql_is_up st && nonempty (IdGenerator.keys (ids st))
                   then [Log ERROR msg_down []] else [])%list.
Proof.
  intros (P & HPs & HP).
  pose proof (load_loop_unreachable_log P (IdGenerator.keys (ids st)) HP st HPs) as Hl.
  destruct (load_loop_unreachable P (IdGenerator.keys (ids st)) HP st HPs)
    as (R1 & _ & _ & _ & R6).
  destruct (for_each (IdGenerator.keys (ids st)) load_counter st) as [r st1] eqn:E.
  cbn [fst snd] in *. subst r.
  rewrite (load_state_returned _ _ _ E).
  destruct (IdGenerator.keys (ids st)) as [|k ks] eqn:Ek.
  - cbn in E. injection E as <-. rewrite Ek. cbn [for_each nonempty].
    rewrite andb_false_r, app_nil_r.
    destruct (negb werkzeug_run_main && sparql_is_up st); reflexivity.
  - rewrite (R6 ltac:(discriminate)), andb_false_r. cbn [fst snd]. exact Hl.
Qed.

Lemma load_state_outage_log_witness :
  let st := init (W := Env.Scripted)
              [("article", VNone); ("collection", VNone); ("file", VNone)]
              (Env.Script [] []) in
  logging (snd (load_state false st)) = [Log ERROR msg_down []].
Proof.
  intros st.
  assert (unreachable (W := Env.Scripted) (sparql st)) as Hun.
  { exists (fun s => Env.answers s = []). split; [reflexivity|].
    intros q [a r] Ha. cbn in Ha. subst a. split; reflexivity. }
  rewrite (load_state_outage_log (W := Env.Scripted) false st Hun). reflexivity.
Defined.

(* --------------------------------------------------------------------- *)
(** ** Deletions and the cache                                            *)
(* --------------------------------------------------------------------- *)

Section Deletions.
Context `{W : World}.

Lemma delete_then_invalidate (q : query) (narrow : string) st :
  cache (snd ((result <- run_query q None None ;;
               cache_invalidate_by_prefix narrow ;;
               cache_invalidate_by_prefix "article" ;;
               ret result) st))
  = CacheLayer.invalidate_by_prefix "article"
      (CacheLayer.invalidate_by_prefix narrow (cache st)).
Proof.
  rewrite bind_state.
  destruct (run_query_returns q None None st) as [results Hr].
  destruct (run_query_frame q None None st) as (_ & _ & _ & _ & Hc).
  rewrite Hr. unfold bind, cache_invalidate_by_prefix, modify, ret. cbn [snd].
  destruct (snd (run_query q None None st)) eqn:E. cbn in *.
  rewrite (Hc eq_refl). reflexivity.
Qed.

End Deletions.

(** X17.  [delete_article] and [delete_article_version] invalidate the
    prefix of the article and the prefix "article" after their query,
    whatever the query returned: also when the endpoint failed and nothing
    was deleted, no value cached under one of the two prefixes is served
    afterwards. *)
Theorem deletion_always_invalidates `{W : World} (item_id account_id : value)
    (st : SparqlInterface) :
  let narrow := fmt_value item_id +:+ "_article" in
  let expected := CacheLayer.invalidate_by_prefix "article"
                    (CacheLayer.invalidate_by_prefix narrow (cache st)) in
  cache (snd (delete_article item_id account_id st)) = expected
  /\ cache (snd (delete_article_version item_id account_id st)) = expected
  /\ forall key,
       CacheLayer.cached_value (Some "article") key expected = None
       /\ CacheLayer.cached_value (Some narrow) key expected = None.
Proof.
  cbv zeta. split; [|split].
  - unfold delete_article. rewrite bind_state. unfold query_from_template, gets.
    cbn [fst snd]. apply delete_then_invalidate.
  - unfold delete_article_version. rewrite bind_state. unfold query_from_template, gets.
    cbn [fst snd]. apply delete_then_invalidate.
  - intros key. split; [apply cached_value_invalidated|].
    set (c := CacheLayer.invalidate_by_prefix (fmt_value item_id +:+ "_article") (cache st)).
    pose proof (cached_value_invalidated (fmt_value item_id +:+ "_article") key (cache st))
      as Hn. fold c in Hn.
    unfold CacheLayer.cached_value, CacheLayer.invalidate_by_prefix in *.
    destruct (CacheLayer.cache_is_ready c) eqn:E; [|rewrite E; reflexivity].
    unfold CacheLayer.cache_is_ready in *. cbn [CacheLayer.storage CacheLayer.entries].
    rewrite E.
    destruct (find _ (filter _ _)) as [e|] eqn:Ef; [|reflexivity].
    apply find_some in Ef as [Hin Hb].
    apply list_elem_of_In, list_elem_of_filter in Hin as [_ Hin].
    destruct (find (fun e0 => bool_decide (fst e0 = (Some (fmt_value item_id +:+ "_article"), key)))
                (CacheLayer.entries c)) as [e'|] eqn:Ef'; [discriminate Hn|].
    exfalso. apply list_elem_of_In in Hin.
    pose proof (find_none _ _ Ef' e Hin) as Hcontra. cbn beta in Hcontra.
    rewrite Hb in Hcontra. discriminate.
Qed.

(* --------------------------------------------------------------------- *)
(** ** Records made of two insertions                                     *)
(* --------------------------------------------------------------------- *)

Section Links.
Context `{W : World}.

Lemma insert_run {A} (graph : Graph) (k : list result_row -> M A) st :
  (q <- insert_query_for_graph graph ;; results <- run_query q None None ;; k results) st
  = match fst (run_query (Insert (state_graph st) graph) None None st) with
    | Return results => k results (snd (run_query (Insert (state_graph st) graph) None None st))
    | Raise e => (Raise e, snd (run_query (Insert (state_graph st) graph) None None st))
    end.
Proof.
  unfold bind at 1. unfold insert_query_for_graph, gets. unfold bind.
  destruct (run_query (Insert (state_graph st) graph) None None st) as [[results|e] st1];
    reflexivity.
Qed.

Lemma set_cache_fields c st :
  ids (set_cache c st) = ids st /\ cache (set_cache c st) = c.
Proof. destruct st; split; reflexivity. Qed.

Lemma run_query_failing q st :
  failing (sparql st) -> fst (run_query q None None st) = Return [].
Proof.
  intros Hall. destruct (Hall q) as [e He]. rewrite run_query_cases.
  destruct (sparql_query q (sparql st)) as [[rows|e0] s]; cbn [fst] in He; [discriminate|].
  reflexivity.
Qed.

Lemma run_query_stored q st :
  stores_once (sparql st) ->
  exists results,
    fst (run_query q None None st) = Return results
    /\ nonempty results = true
    /\ unreachable (sparql (snd (run_query q None None st))).
Proof.
  intros Hs. destruct (Hs q) as (rows & s1 & Hq & Hn & Hf).
  destruct (Hn (set_sparql s1 st)) as (results & Hr & Hne).
  exists results.
  pose proof (run_query_store q None None st eq_refl) as Hstore.
  rewrite Hq in Hstore. cbn [snd] in Hstore. rewrite Hstore.
  split; [|split; [exact Hne | exact Hf]].
  rewrite run_query_cases, Hq.
  destruct (map_list normalize_binding rows (set_sparql s1 st)) as [[r|e] st2];
    cbn [fst] in Hr; [|discriminate].
  injection Hr as ->. reflexivity.
Qed.

Lemma unreachable_failing s : unreachable s -> failing s.
Proof.
  intros (P & HP & Hstep) q. exists URLError. apply (Hstep q s HP).
Qed.

Lemma unreachable_next q s : unreachable s -> unreachable (snd (sparql_query q s)).
Proof.
  intros (P & HP & Hstep). exists P. split; [apply (Hstep q s HP) | exact Hstep].
Qed.

Lemma bind_eq {A B} (m : M A) (k : A -> M B) st a st' :
  m st = (Return a, st') -> bind m k st = k a st'.
Proof. intros H. unfold bind. rewrite H. reflexivity. Qed.

Lemma update_article_unreachable vid acc u now st :
  unreachable (sparql st) ->
  exists st',
    update_article vid acc u None now st = (Return [], st')
    /\ ids st' = ids st /\ unreachable (sparql st').
Proof.
  intros Hu. pose proof (update_article_phases vid acc u None now st) as Hp.
  cbv zeta in Hp. rewrite Hp. clear Hp.
  set (q := Template "update_article" (update_article_args vid acc u now (state_graph st))).
  set (prefix := fmt_value vid +:+ "_article").
  set (st0 := invalidated "article" prefix st).
  pose proof (invalidated_miss "article" prefix q st) as Hmiss. fold st0 in Hmiss.
  assert (sparql st0 = sparql st) as Hs0 by (destruct st; reflexivity).
  assert (ids st0 = ids st) as Hi0 by (destruct st; reflexivity).
  destruct (run_query_frame q (Some q) (Some prefix) st0) as (Hi & _).
  pose proof (run_query_store q (Some q) (Some prefix) st0 Hmiss) as Hst.
  assert (fst (run_query q (Some q) (Some prefix) st0) = Return []) as Hr.
  { rewrite run_query_cases. unfold cache_miss in Hmiss. rewrite Hmiss.
    pose proof (unreachable_failing _ Hu q) as [e He]. rewrite Hs0.
    destruct (sparql_query q (sparql st)) as [[rows|e0] s]; cbn [fst] in He; [discriminate|].
    reflexivity. }
  rewrite Hr. cbn [nonempty andb].
  exists (snd (run_query q (Some q) (Some prefix) st0)).
  split; [reflexivity|]. split; [congruence|].
  rewrite Hst, Hs0. apply unreachable_next. exact Hu.
Qed.

Lemma insert_article_file_draws article_version_id file_id n st :
  dict_get "article_file" (ids st) = Some (VInt n) ->
  draws_one "article_file" n (insert_article_file article_version_id file_id) st.
Proof.
  intros Hk. eapply draws_one_stored; [exact Hk|].
  unfold insert_article_file. unfold bind at 1.
  rewrite (ids_next_id_drawn _ _ _ Hk). reflexivity.
Qed.

End Links.

(** X18.  [insert_collection_article] answers [False] when one of the two
    identifiers is [None], and leaves the object as it is: no identifier
    is drawn and nothing is sent.  Otherwise it draws one identifier, and
    it invalidates the prefix "article" only when the link was stored: a
    call that returns [None] leaves the cache as it was. *)
Theorem collection_link_invalidates_on_success `{W : World}
    (collection_version_id article_version_id : value) (st : SparqlInterface) (n : Z) :
  (collection_version_id = VNone \/ article_version_id = VNone ->
   insert_collection_article collection_version_id article_version_id st
   = (Return (VBool false), st))
  /\ (collection_version_id <> VNone -> article_version_id <> VNone ->
      dict_get "collection_article" (ids st) = Some (VInt n) ->
      let r := insert_collection_article collection_version_id article_version_id st in
      ids (snd r) = dict_set "collection_article" (VInt (n + 1)) (ids st)
      /\ ((fst r = Return (VInt (n + 1))
           /\ cache (snd r) = CacheLayer.invalidate_by_prefix "article" (cache st))
          \/ (fst r = Return VNone /\ cache (snd r) = cache st))
      /\ (failing (sparql st) -> fst r = Return VNone /\ cache (snd r) = cache st)).
Proof.
  split.
  - intros [-> | ->]; unfold insert_collection_article; cbn [is_none orb];
      [|rewrite orb_true_r]; reflexivity.
  - intros Hc Ha Hk. cbv zeta.
    set (st0 := set_ids (dict_set "collection_article" (VInt (n + 1)) (ids st)) st).
    assert (exists graph,
              insert_collection_article collection_version_id article_version_id st
              = (q <- insert_query_for_graph graph ;;
                 results <- run_query q None None ;;
                 if nonempty results
                 then cache_invalidate_by_prefix "article" ;; ret (VInt (n + 1))
                 else ret VNone) st0) as [graph ->].
    { eexists. unfold insert_collection_article.
      replace (is_none collection_version_id || is_none article_version_id) with false
        by (destruct collection_version_id, article_version_id; try reflexivity; congruence).
      unfold bind at 1. rewrite (ids_next_id_drawn _ _ _ Hk). reflexivity. }
    rewrite insert_run.
    set (q := Insert (state_graph st0) graph).
    destruct (run_query_returns q None None st0) as [results Hr].
    destruct (run_query_frame q None None st0) as (Hi & _ & _ & _ & Hca).
    specialize (Hca eq_refl).
    assert (failing (sparql st) -> results = []) as Hfail.
    { intros Hall. assert (failing (sparql st0)) as Hall0 by (destruct st; exact Hall).
      pose proof (run_query_failing q st0 Hall0) as H0. congruence. }
    rewrite Hr.
    assert (ids st0 = dict_set "collection_article" (VInt (n + 1)) (ids st)) as Hi0
      by (destruct st; reflexivity).
    assert (cache st0 = cache st) as Hc0 by (destruct st; reflexivity).
    destruct results as [|row results]; cbn [nonempty].
    + unfold ret. cbn [fst snd]. rewrite Hi, Hca, Hi0, Hc0. auto.
    + unfold bind, cache_invalidate_by_prefix, modify, ret. cbn [fst snd].
      destruct (set_cache_fields
                  (CacheLayer.invalidate_by_prefix "article"
                     (cache (snd (run_query q None None st0))))
                  (snd (run_query q None None st0))) as (-> & ->).
      rewrite Hi, Hca, Hi0, Hc0. split; [reflexivity|]. split; [left; auto|].
      intros Hall. specialize (Hfail Hall). discriminate.
Qed.

Lemma collection_link_invalidates_on_success_witness :
  let st := init (W := Env.Scripted) [("collection_article", VInt 4)] (Env.Script [] []) in
  insert_collection_article VNone (VInt 7) st = (Return (VBool false), st)
  /\ fst (insert_collection_article (VInt 3) (VInt 7) st) = Return VNone
  /\ ids (snd (insert_collection_article (VInt 3) (VInt 7) st))
     = [("collection_article", VInt 5)]
  /\ cache (snd (insert_collection_article (VInt 3) (VInt 7) st)) = cache st.
Proof.
  intros st.
  split; [apply (proj1 (collection_link_invalidates_on_success (W := Env.Scripted)
                          VNone (VInt 7) st 4)); left; reflexivity|].
  assert (VInt 3 <> VNone) as H3 by discriminate.
  assert (VInt 7 <> VNone) as H7 by discriminate.
  destruct (proj2 (collection_link_invalidates_on_success (W := Env.Scripted)
                     (VInt 3) (VInt 7) st 4) H3 H7 eq_refl) as (Hi & _ & Hf).
  destruct Hf as [Hr Hc]; [intros q; exists URLError; reflexivity|].
  split; [exact Hr|]. split; [exact Hi | exact Hc].
Defined.

(** X19.  [insert_file] is not atomic.  On an endpoint that stores the
    record of the file and cannot be reached afterwards, the call without
    an article returns the identifier of the file, and the call for an
    article returns [None]: the record of the file has been stored, the
    link to the article has not, an identifier of a link has been drawn,
    and the caller is told nothing was inserted. *)
Theorem stored_file_without_link `{W : World} (file_id name size is_link_only download_url
    supplied_md5 computed_md5 viewer_type preview_state status upload_url upload_token
    article_version_id account_id : value) (now : string) (st : SparqlInterface)
    (m n : Z) :
  (file_id = VNone -> dict_get "file" (ids st) = Some (VInt m)) ->
  stores_once (sparql st) ->
  let new_id := if is_none file_id then VInt (m + 1) else file_id in
  let ids0 := if is_none file_id then dict_set "file" (VInt (m + 1)) (ids st) else ids st in
  (let r := insert_file file_id name size is_link_only download_url supplied_md5
              computed_md5 viewer_type preview_state status upload_url upload_token
              VNone account_id now st in
   fst r = Return new_id /\ ids (snd r) = ids0)
  /\ (article_version_id <> VNone ->
      dict_get "article_file" ids0 = Some (VInt n) ->
      let r := insert_file file_id name size is_link_only download_url supplied_md5
                 computed_md5 viewer_type preview_state status upload_url upload_token
                 article_version_id account_id now st in
      fst r = Return VNone
      /\ ids (snd r) = dict_set "article_file" (VInt (n + 1)) ids0).
Proof.
  intros Hfile Hstore. cbv zeta.
  set (new_id := if is_none file_id then VInt (m + 1) else file_id).
  set (ids0 := if is_none file_id then dict_set "file" (VInt (m + 1)) (ids st) else ids st).
  set (st0 := set_ids ids0 st).
  assert ((if is_none file_id
           then k <- ids_next_id "file" ;; ret (VInt k)
           else ret file_id) st = (Return new_id, st0)) as Hfirst.
  { unfold new_id, st0, ids0. destruct (is_none file_id) eqn:E.
    - assert (file_id = VNone) as Hn by (destruct file_id; try discriminate; reflexivity).
      unfold bind. rewrite (ids_next_id_drawn _ _ _ (Hfile Hn)). reflexivity.
    - destruct st; reflexivity. }
  set (st1 := set_cache (CacheLayer.invalidate_by_prefix "article" (cache st0)) st0).
  assert (sparql st1 = sparql st /\ ids st1 = ids0) as (Hs1 & Hi1)
    by (unfold st1, st0; destruct st; split; reflexivity).
  assert (forall article,
            exists st2,
              insert_file file_id name size is_link_only download_url supplied_md5
                computed_md5 viewer_type preview_state status upload_url upload_token
                article account_id now st
              = (if negb (is_none article) then
                   ((if truthy is_link_only
                     then update_article article account_id
                            (with_has_linked_file (VBool true) no_article_update) None now ;;
                          ret tt
                     else ret tt) ;;
                    link_id <- insert_article_file article new_id ;;
                    if negb (is_none link_id) then ret new_id else ret VNone)
                 else ret new_id) st2
              /\ ids st2 = ids0 /\ unreachable (sparql st2)) as Hsteps.
  { intros article. unfold insert_file.
    rewrite (bind_eq _ _ st new_id st0 Hfirst). cbv zeta.
    rewrite (bind_eq _ _ st0 tt st1 eq_refl).
    rewrite insert_run.
    set (q := Insert (state_graph st1) _).
    destruct (run_query_stored q st1) as (results & Hr & Hne & Hun);
      [rewrite Hs1; exact Hstore|].
    destruct (run_query_frame q None None st1) as (Hi & _).
    exists (snd (run_query q None None st1)).
    rewrite Hr, Hne. split; [reflexivity|].
    split; [congruence | exact Hun]. }
  split.
  - destruct (Hsteps VNone) as (st2 & -> & Hi & _).
    cbn [is_none negb]. unfold ret. cbn [fst snd]. auto.
  - intros Ha Hk.
    destruct (Hsteps article_version_id) as (st2 & -> & Hi & Hun).
    replace (negb (is_none article_version_id)) with true
      by (destruct article_version_id; try reflexivity; congruence).
    assert (exists st3,
              (if truthy is_link_only
               then update_article article_version_id account_id
                      (with_has_linked_file (VBool true) no_article_update) None now ;;
                    ret tt
               else ret tt) st2 = (Return tt, st3)
              /\ ids st3 = ids0 /\ unreachable (sparql st3)) as (st3 & Hup & Hi3 & Hun3).
    { destruct (truthy is_link_only).
      - destruct (update_article_unreachable article_version_id account_id
                    (with_has_linked_file (VBool true) no_article_update) now st2 Hun)
          as (st3 & Hu & Hi3 & Hun3).
        exists st3. rewrite (bind_eq _ _ st2 [] st3 Hu).
        split; [reflexivity|]. split; [congruence | exact Hun3].
      - exists st2. split; [reflexivity|]. split; [exact Hi | exact Hun]. }
    rewrite (bind_eq _ _ st2 tt st3 Hup).
    assert (dict_get "article_file" (ids st3) = Some (VInt n)) as Hk3 by (rewrite Hi3; exact Hk).
    destruct (insert_article_file_draws article_version_id new_id n st3 Hk3)
      as (Hids & _ & Hfail).
    specialize (Hfail (unreachable_failing _ Hun3)).
    unfold bind.
    destruct (insert_article_file article_version_id new_id st3) as [link st4].
    cbn [fst snd] in *. subst link. cbn [is_none negb]. unfold ret. cbn [fst snd].
    split; [reflexivity|]. rewrite Hids, Hi3. reflexivity.
Qed.

Lemma stored_file_without_link_witness :
  let st := init (W := Env.Scripted) [("file", VInt 4); ("article_file", VInt 9)]
              (Env.Script
                 [Return (TripleStore.status "Insert into <g>, 3 triples -- done")] []) in
  let insert_file_for article :=
    insert_file VNone (VStr "a.txt") (VInt 12) VNone VNone VNone VNone VNone VNone VNone
      VNone VNone article (VInt 2) "2021-05-03 10:15:00" st in
  fst (insert_file_for VNone) = Return (VInt 5)
  /\ fst (insert_file_for (VInt 7)) = Return VNone
  /\ ids (snd (insert_file_for (VInt 7))) = [("file", VInt 5); ("article_file", VInt 10)].
Proof.
  intros st insert_file_for.
  assert (stores_once (W := Env.Scripted) (sparql st)) as Hstore.
  { intros q. eexists _, _. split; [reflexivity|]. split.
    - intros st'. exists [Scalar "Insert into <g>, 3 triples -- done"].
      destruct (normalize_status (W := Env.Scripted)
                  "Insert into <g>, 3 triples -- done" st') as [extra ->].
      split; reflexivity.
    - exists (fun s => Env.answers s = []). split; [reflexivity|].
      intros q0 [a r] Ha. cbn in Ha. subst a. split; reflexivity. }
  assert (VInt 7 <> VNone) as H7 by discriminate.
  destruct (stored_file_without_link (W := Env.Scripted) VNone (VStr "a.txt") (VInt 12)
              VNone VNone VNone VNone VNone VNone VNone VNone VNone (VInt 7) (VInt 2)
              "2021-05-03 10:15:00" st 4 9 (fun _ => eq_refl) Hstore)
    as [[H1 _] H2].
  destruct (H2 H7 eq_refl) as [H3 H4].
  split; [exact H1|]. split; [exact H3 | exact H4].
Defined.

(* --------------------------------------------------------------------- *)
(** ** The filters of [opendap_to_doi]                                    *)
(* --------------------------------------------------------------------- *)

Lemma backslash_free_app a b :
  backslash_free (a +:+ b) = backslash_free a && backslash_free b.
Proof.
  unfold backslash_free. induction a as [|c a IH]; [reflexivity|].
  change (String c a +:+ b) with (String c (a +:+ b)).
  cbn [list_ascii_of_string forallb]. rewrite IH. apply andb_assoc.
Qed.

Lemma unescaped_quotes_app a b :
  backslash_free a = true ->
  unescaped_quotes (a +:+ b) = (unescaped_quotes a + unescaped_quotes b)%nat.
Proof.
  unfold backslash_free. induction a as [|c a IH]; [reflexivity|].
  change (String c a +:+ b) with (String c (a +:+ b)).
  cbn [list_ascii_of_string forallb unescaped_quotes]. intros H.
  apply andb_prop in H as [Hc Hrest]. apply negb_true_iff in Hc. rewrite Hc.
  destruct (Ascii.eqb c (ascii_of_nat 34)); rewrite (IH Hrest); reflexivity.
Qed.

Lemma plain_cases s :
  plain s = true -> backslash_free s = true /\ unescaped_quotes s = O.
Proof.
  unfold plain, backslash_free. induction s as [|c s IH]; [split; reflexivity|].
  cbn [list_ascii_of_string forallb unescaped_quotes]. intros H.
  apply andb_prop in H as [Hc Hrest]. apply andb_prop in Hc as [Hb Hq].
  destruct (IH Hrest) as [IH1 IH2]. rewrite Hb, IH1.
  apply negb_true_iff in Hb, Hq. rewrite Hb, Hq. split; [reflexivity | exact IH2].
Qed.

Lemma quoted_cases before item after :
  backslash_free before = true -> backslash_free item = true ->
  backslash_free after = true ->
  backslash_free (before +:+ dq +:+ item +:+ dq +:+ after) = true
  /\ unescaped_quotes (before +:+ dq +:+ item +:+ dq +:+ after)
     = (unescaped_quotes before + (2 + unescaped_quotes item) + unescaped_quotes after)%nat.
Proof.
  intros Hb Hi Ha. split.
  - rewrite !backslash_free_app, Hb, Hi, Ha. reflexivity.
  - rewrite (unescaped_quotes_app before), (unescaped_quotes_app dq),
      (unescaped_quotes_app item), (unescaped_quotes_app dq) by (assumption || reflexivity).
    change (unescaped_quotes dq) with 1%nat. lia.
Qed.

Lemma starts_alternatives_cases items : forall filters,
  backslash_free filters = true ->
  Forall (fun item => plain item = true) items ->
  backslash_free (starts_alternatives filters items) = true
  /\ unescaped_quotes (starts_alternatives filters items)
     = (unescaped_quotes filters + 2 * length items)%nat.
Proof.
  unfold starts_alternatives.
  induction items as [|item items IH]; intros filters Hf Hall.
  - cbn. split; [exact Hf | lia].
  - apply Forall_cons in Hall as [Hitem Hall].
    destruct (plain_cases item Hitem) as [Hb Hq].
    cbn [fold_left length].
    assert (backslash_free (" OR (STRSTARTS(STR(?download_url), "
                            +:+ dq +:+ item +:+ dq +:+ "))") = true
            /\ unescaped_quotes (" OR (STRSTARTS(STR(?download_url), "
                                 +:+ dq +:+ item +:+ dq +:+ "))") = 2%nat) as [Hb1 Hq1].
    { destruct (quoted_cases " OR (STRSTARTS(STR(?download_url), " item "))"
                  eq_refl Hb eq_refl) as [H1 H2].
      split; [exact H1|]. rewrite H2, Hq. reflexivity. }
    destruct (IH (filters +:+ " OR (STRSTARTS(STR(?download_url), "
                          +:+ dq +:+ item +:+ dq +:+ "))")) as [R1 R2].
    + rewrite backslash_free_app, Hf, Hb1. reflexivity.
    + exact Hall.
    + split; [exact R1|]. rewrite R2, (unescaped_quotes_app filters) by exact Hf.
      rewrite Hq1. lia.
Qed.

Lemma opendap_to_doi_sends `{W : World} (m : M string) (endswith : option string)
    (filters : string) (st st1 : SparqlInterface) :
  m st = (Return filters, st1) ->
  (filters <- m ;;
   let filters := match endswith with
                  | Some endswith =>
                      filters +:+ "FILTER (STRENDS(STR(?download_url), "
                              +:+ dq +:+ endswith +:+ dq +:+ "))" +:+ nl
                  | None => filters
                  end in
   q <- query_from_template "opendap_to_doi" [("filters", VStr filters)] ;;
   run_query q None None) st
  = run_query
      (opendap_query
         match endswith with
         | Some endswith =>
             filters +:+ "FILTER (STRENDS(STR(?download_url), "
                     +:+ dq +:+ endswith +:+ dq +:+ "))" +:+ nl
         | None => filters
         end st1) None None st1.
Proof.
  intros Hm. rewrite (bind_eq _ _ st filters st1 Hm). cbv zeta.
  unfold bind at 1. unfold query_from_template, gets. reflexivity.
Qed.

(** X20.  [opendap_to_doi] copies its arguments into the filters as they
    are.  With a list of texts that hold no quote and no backslash the
    filters hold two delimiters for each text, and two more for
    [endswith]; a text is not escaped, so each quote that it holds is one
    more delimiter.  An empty list raises [IndexError] before anything is
    sent, and a value of another type is reported and then ignored: the
    query is sent without a filter. *)
Theorem opendap_filters_are_not_escaped `{W : World} (st : SparqlInterface) :
  (forall endswith, opendap_to_doi (StartsList []) endswith st = (Raise IndexError, st))
  /\ (forall items endswith,
        items <> [] ->
        Forall (fun item => plain item = true) items ->
        (forall text, endswith = Some text -> plain text = true) ->
        exists filters,
          opendap_to_doi (StartsList items) endswith st
          = run_query (opendap_query filters st) None None st
          /\ unescaped_quotes filters
             = (2 * length items + match endswith with Some _ => 2 | None => 0 end)%nat)
  /\ (forall text,
        backslash_free text = true ->
        exists filters,
          opendap_to_doi (StartsText text) None st
          = run_query (opendap_query filters st) None None st
          /\ unescaped_quotes filters = (2 + unescaped_quotes text)%nat)
  /\ (forall type_name,
        let st1 := set_logging
                     (logging st ++ [Log ERROR "startswith of type %s is not supported"
                                       [ArgStr type_name]])%list st in
        opendap_to_doi (StartsOther type_name) None st
        = run_query (opendap_query "" st1) None None st1).
Proof.
  split; [|split; [|split]].
  - intros endswith. reflexivity.
  - intros items endswith Hne Hall Hend.
    destruct items as [|item items]; [contradiction|].
    apply Forall_cons in Hall as [Hitem Hall].
    destruct (plain_cases item Hitem) as [Hb Hq].
    destruct (quoted_cases "FILTER ((STRSTARTS(STR(?download_url), " item "))"
                eq_refl Hb eq_refl) as [H1 H2].
    destruct (starts_alternatives_cases items _ H1 Hall) as [R1 R2].
    set (starts := starts_alternatives
                     ("FILTER ((STRSTARTS(STR(?download_url), " +:+ dq +:+ item
                      +:+ dq +:+ "))") items) in *.
    assert (backslash_free (starts +:+ ")" +:+ nl) = true) as Hbs
      by (rewrite backslash_free_app, R1; reflexivity).
    assert (unescaped_quotes (starts +:+ ")" +:+ nl) = (2 * length (item :: items))%nat)
      as Hqs.
    { rewrite unescaped_quotes_app by exact R1. rewrite R2, H2, Hq.
      change (unescaped_quotes (")" +:+ nl)) with O.
      change (unescaped_quotes "FILTER ((STRSTARTS(STR(?download_url), ") with O.
      change (unescaped_quotes "))") with O. cbn [length]. lia. }
    eexists. split.
    + unfold opendap_to_doi. cbv zeta.
      apply (opendap_to_doi_sends _ endswith (starts +:+ ")" +:+ nl) st st).
      reflexivity.
    + destruct endswith as [text|]; [|rewrite Hqs; lia].
      destruct (plain_cases text (Hend text eq_refl)) as [Hbt Hqt].
      destruct (quoted_cases "FILTER (STRENDS(STR(?download_url), " text ("))" +:+ nl)
                  eq_refl Hbt eq_refl) as [_ E2].
      rewrite unescaped_quotes_app by exact Hbs. rewrite Hqs, E2, Hqt.
      change (unescaped_quotes "FILTER (STRENDS(STR(?download_url), ") with O.
      change (unescaped_quotes ("))" +:+ nl)) with O. lia.
  - intros text Hb.
    destruct (quoted_cases "FILTER (STRSTARTS(STR(?download_url), " text ("))" +:+ nl)
                eq_refl Hb eq_refl) as [_ H2].
    eexists. split.
    + unfold opendap_to_doi. cbv zeta.
      apply (opendap_to_doi_sends _ None
               ("FILTER (STRSTARTS(STR(?download_url), " +:+ dq +:+ text +:+ dq +:+ "))"
                +:+ nl) st st).
      reflexivity.
    + cbv iota. rewrite H2.
      change (unescaped_quotes "FILTER (STRSTARTS(STR(?download_url), ") with O.
      change (unescaped_quotes ("))" +:+ nl)) with O. lia.
  - intros type_name. cbv zeta. unfold opendap_to_doi. cbv zeta.
    apply (opendap_to_doi_sends _ None "" st). reflexivity.
Qed.
